(** * ScrollSensie: tracking script, ingestion endpoint and dashboard aggregation

    A shallow embedding of the parts of the application that carry its
    logic:

    - [src/app/api/tracker.js/route.ts]: the generated tracking script
      ([getScrollDepth], [post], [onScroll]);
    - [src/app/api/track/route.ts]: the ingestion endpoint ([POST]);
    - [src/app/dashboard/page.tsx]: the aggregation done by the dashboard
      ([getDeviceType], [loadUserStats], [milestoneStats],
      [engagementStats]).

    JavaScript numbers are IEEE-754 binary64 values.  They are modelled by
    the rational number they denote, and every arithmetic operation of the
    source that can be inexact ([/], [*], [+]) rounds its exact result to
    binary64 with round-to-nearest, ties-to-even (module [JsNumber]).  None
    of the modelled expressions divides by zero or produces NaN; the only
    expression that can overflow is the one in [getScrollDepth], where the
    overflow is absorbed by [Math.min(100, _)]. *)

From Stdlib Require Import ZArith QArith Qround Qabs Qpower Lia Lqa.
From Stdlib Require Import List String Ascii Bool.
From Stdlib Require Import SpecFloat DecimalString.
From Stdlib Require Import Sorted Permutation.
From Stdlib Require DecimalPos DecimalZ.
From stdpp Require Import gmap strings.
Import ListNotations.

(** ** JavaScript numbers *)

Module JsNumber.

Local Open Scope Q_scope.

(** [ilog2 x] is [floor (log2 x)] for [0 < x]. *)
Definition ilog2 (x : Q) : Z :=
  let l := (Z.log2 (Qnum x) - Z.log2 (Zpos (Qden x)))%Z in
  if Qle_bool (2 ^ l) x then l else (l - 1)%Z.

(** binary64: 53 bits of precision, least exponent of the unit in the last
    place -1074 (subnormals). *)
Definition prec : Z := 53.
Definition emin : Z := -1074.

Definition ulp_exp (x : Q) : Z := Z.max (ilog2 x - (prec - 1)) emin.

(** Nearest integer, ties to even. *)
Definition rne (x : Q) : Z :=
  let f := Qfloor x in
  match Qcompare (x - inject_Z f) (1 # 2) with
  | Lt => f
  | Gt => (f + 1)%Z
  | Eq => if Z.even f then f else (f + 1)%Z
  end.

Definition round_pos (x : Q) : Q :=
  let e := ulp_exp x in inject_Z (rne (x / 2 ^ e)) * 2 ^ e.

(** The binary64 value nearest to the rational [x]. *)
Definition b64 (x : Q) : Q :=
  match Qnum x with
  | Z0 => 0
  | Zpos _ => round_pos x
  | Zneg _ => - round_pos (- x)
  end.

Definition js_add (x y : Q) : Q := b64 (x + y).
Definition js_mul (x y : Q) : Q := b64 (x * y).
Definition js_div (x y : Q) : Q := b64 (x / y).

(** [x / y] as a number of JS: for a divisor that is not zero it is the
    rounded quotient; for a zero divisor it is NaN ([0 / 0]) or an
    infinity, which the operations that follow hand on and for which
    [None] stands. *)
Definition js_quotient (x y : Q) : option Q :=
  if Qeq_bool y 0 then None else Some (js_div x y).

(** [Math.round]: the nearest integer, ties towards [+Infinity]. *)
Definition Math_round (x : Q) : Z := Qfloor (x + (1 # 2)).

(** [p] is an integer nearest to [x]. *)
Definition nearest_integer (p : Z) (x : Q) : Prop := Qabs (inject_Z p - x) <= 1 # 2.

(** The value of a finite [spec_float], to compare the operations above
    with the IEEE-754 operations of the Standard Library. *)
Definition SF2Q (f : spec_float) : Q :=
  match f with
  | S754_finite s m e =>
      (if s then - inject_Z (Zpos m) else inject_Z (Zpos m)) * 2 ^ e
  | _ => 0
  end.

Definition Z2SF (z : Z) : spec_float :=
  match z with
  | Z0 => S754_zero false
  | Zpos p => SFdiv 53 1024 (S754_finite false p 0) (S754_finite false 1 0)
  | Zneg p => SFdiv 53 1024 (S754_finite true p 0) (S754_finite false 1 0)
  end.

(** [(c / t) * 100] computed with the IEEE-754 operations of the Standard
    Library, and its agreement with [js_mul] and [js_div] for all
    [0 <= c <= t <= n + 1]. *)
Definition sf_ratio (c t : Z) : Q :=
  SF2Q (SFmul 53 1024 (SFdiv 53 1024 (Z2SF c) (Z2SF t)) (Z2SF 100)).

Definition upto (n : nat) : list Z := map Z.of_nat (seq 0 (S n)).

Definition agree_upto (n : nat) : bool :=
  forallb
    (fun t =>
       forallb
         (fun c =>
            Qeq_bool (sf_ratio c (t + 1))
              (js_mul (js_div (inject_Z c) (inject_Z (t + 1))) 100))
         (upto (Z.to_nat (t + 1))))
    (upto n).

End JsNumber.

(** ** JavaScript strings

    Strings are sequences of code units; the model keeps the code units
    below 256 (the Latin-1 range), which covers request headers and
    ordinary user-agent strings. *)

Module JsString.

Definition code (c : ascii) : Z := Z.of_N (N_of_ascii c).

Definition unit_of (z : Z) : ascii := ascii_of_N (Z.to_N z).

(** [String.prototype.toLowerCase] on one code unit: A-Z, and the Latin-1
    capitals U+00C0..U+00DE except the multiplication sign U+00D7.  The
    strings of this file hold code units below 256 only.  Beyond them
    lower-casing can produce ASCII letters (U+212A gives k, U+0130 gives i
    and U+0307), so that the lower-cased form can match an ASCII literal
    where the string as given does not; a match in the string as given is
    kept by lower-casing, whatever the string. *)
Definition lower_unit (c : ascii) : ascii :=
  let n := code c in
  if ((65 <=? n) && (n <=? 90))%Z then unit_of (n + 32)
  else if ((192 <=? n) && (n <=? 222) && negb (n =? 215))%Z then unit_of (n + 32)
  else c.

Fixpoint toLowerCase (s : string) : string :=
  match s with
  | EmptyString => EmptyString
  | String c s' => String (lower_unit c) (toLowerCase s')
  end.

(** Canonical form of a code unit under the [i] flag of a regular
    expression whose literal characters are ASCII: only a-z are folded (a
    code unit of 128 or more never folds to an ASCII one). *)
Definition canon (c : ascii) : ascii :=
  let n := code c in
  if ((97 <=? n) && (n <=? 122))%Z then unit_of (n - 32) else c.

Definition eq_ci (a b : ascii) : bool := Ascii.eqb (canon a) (canon b).

(** The literal [p] matches at the start of [s], ignoring case. *)
Fixpoint prefix_ci (p s : string) : bool :=
  match p, s with
  | EmptyString, _ => true
  | String a p', String b s' => eq_ci a b && prefix_ci p' s'
  | String _ _, EmptyString => false
  end.

(** [/p/i.test(s)] for a literal [p]. *)
Fixpoint contains_ci (p s : string) : bool :=
  prefix_ci p s ||
  match s with
  | EmptyString => false
  | String _ s' => contains_ci p s'
  end.

Fixpoint drop (n : nat) (s : string) : string :=
  match n, s with
  | O, _ => s
  | S n', String _ s' => drop n' s'
  | S _, EmptyString => EmptyString
  end.

(** [.] in a regular expression matches any code unit but a line
    terminator (of which LF and CR are in range). *)
Definition line_terminator (c : ascii) : bool :=
  ((code c =? 10) || (code c =? 13))%Z.

(** The longest prefix that [.*] can match. *)
Fixpoint dot_star (s : string) : string :=
  match s with
  | EmptyString => EmptyString
  | String c s' => if line_terminator c then EmptyString else String c (dot_star s')
  end.

Definition string_of_Z (z : Z) : string := NilZero.string_of_int (Z.to_int z).

End JsString.

(** ** The dashboard: [src/app/dashboard/page.tsx] *)

Module Dashboard.

Import JsNumber JsString.

Local Open Scope string_scope.
Local Open Scope Z_scope.

(** *** [getDeviceType] *)

(** [/android|webos|iphone|ipad|ipod|blackberry|iemobile|opera mini/i] *)
Definition mobile_re (s : string) : bool :=
  existsb (fun p => contains_ci p s)
    ["android"; "webos"; "iphone"; "ipad"; "ipod"; "blackberry"; "iemobile";
     "opera mini"].

(** The negative lookahead [(?!.*mobile)] at the start of [s]. *)
Definition not_followed_by_mobile (s : string) : bool :=
  negb (contains_ci "mobile" (dot_star s)).

(** [/ipad|android(?!.*mobile)/i] *)
Fixpoint tablet_re (s : string) : bool :=
  prefix_ci "ipad" s
  || (prefix_ci "android" s && not_followed_by_mobile (drop 7 s))
  || match s with
     | EmptyString => false
     | String _ s' => tablet_re s'
     end.

Definition getDeviceType (ua : string) (viewportW viewportH : Z) : string :=
  if String.eqb ua "" then "Unknown"
  else
    let userAgent := toLowerCase ua in
    let isMobile := mobile_re userAgent in
    let isTablet :=
      tablet_re userAgent
      || ((768 <=? viewportW) && (viewportW <=? 1024)
          && (768 <=? viewportH) && (viewportH <=? 1024)) in
    if isTablet then "Tablet"
    else if isMobile then "Mobile"
    else "Desktop".

(** *** Rows of [scroll_events] as the two queries return them; a nullable
    column is an [option]. *)

Record event := {
  occurred_at : string;
  scroll_depth : Z;
  time_on_page : option Z;
  total_time_on_page : option Z;
  max_scroll_depth : option Z;
  scroll_events_count : option Z;
  ua : option string;
  viewport_w : option Z;
  viewport_h : option Z
}.

Record visit := {
  v_ip_address : option string;
  v_occurred_at : string;
  v_ua : option string;
  v_viewport_w : option Z;
  v_viewport_h : option Z
}.

(** [x || d] on a nullable number and on a nullable string. *)
Definition num_or (x : option Z) (d : Z) : Z :=
  match x with
  | Some z => if z =? 0 then d else z
  | None => d
  end.

Definition str_or (x : option string) (d : string) : string :=
  match x with
  | Some s => if String.eqb s "" then d else s
  | None => d
  end.

(** Truthiness of a nullable number. *)
Definition truthy (x : option Z) : bool :=
  match x with
  | Some z => negb (z =? 0)
  | None => false
  end.

(** *** [loadUserStats] *)

Record country_entry := { code : string; name : string; weight : Z }.

Definition countries : list country_entry :=
  [ {| code := "US"; name := "United States"; weight := 20 |};
    {| code := "IN"; name := "India"; weight := 18 |};
    {| code := "CN"; name := "China"; weight := 15 |};
    {| code := "NP"; name := "Nepal"; weight := 15 |};
    {| code := "GB"; name := "United Kingdom"; weight := 8 |};
    {| code := "DE"; name := "Germany"; weight := 6 |};
    {| code := "CA"; name := "Canada"; weight := 5 |};
    {| code := "AU"; name := "Australia"; weight := 4 |};
    {| code := "FR"; name := "France"; weight := 3 |};
    {| code := "JP"; name := "Japan"; weight := 2 |} ].

(** [ToInt32]. *)
Definition to_int32 (z : Z) : Z := (z + 2 ^ 31) mod 2 ^ 32 - 2 ^ 31.

(** One step of the [reduce]: [a = (a << 5) - a + b.charCodeAt(0); a & a]. *)
Definition hash_step (a : Z) (b : ascii) : Z :=
  let a' := to_int32 (Z.shiftl (to_int32 a) 5) - a + JsString.code b in
  to_int32 a'.

Definition ipHash (ip : string) : Z :=
  fold_left hash_step (list_ascii_of_string ip) 0.

(** [Math.abs(ipHash) % 100] *)
Definition random_of (ip : string) : Z := Z.rem (Z.abs (ipHash ip)) 100.

(** The [for ... of] loop over the table: the country selected so far and
    whether the loop left through [break]. *)
Fixpoint select_loop (cs : list country_entry) (random cumulativeWeight : Z)
    (selectedCountry : country_entry) : country_entry * bool :=
  match cs with
  | [] => (selectedCountry, false)
  | c :: rest =>
      let cumulativeWeight := cumulativeWeight + weight c in
      if random <? cumulativeWeight then (c, true)
      else select_loop rest random cumulativeWeight selectedCountry
  end.

Definition countries_0 : country_entry := nth 0 countries {| code := ""; name := ""; weight := 0 |}.

Definition select_country (random : Z) : country_entry * bool :=
  select_loop countries random 0 countries_0.

Record user := {
  ip : string;
  country : string;
  countryName : string;
  lastSeen : string;
  avatar : string;
  deviceType : string
}.

(** The country given to an address. *)
Definition assign_country (ip_address : string) : country_entry :=
  fst (select_country (random_of ip_address)).

Definition make_user (ip_address : string) (v : visit) : user :=
  let selectedCountry := assign_country ip_address in
  {| ip := ip_address;
     country := code selectedCountry;
     countryName := name selectedCountry;
     lastSeen := v_occurred_at v;
     avatar := "https://api.dicebear.com/7.x/avataaars/svg?seed=" ++ ip_address;
     deviceType :=
       getDeviceType (str_or (v_ua v) "") (num_or (v_viewport_w v) 0)
         (num_or (v_viewport_h v) 0) |}.

(** A [Map] keyed by strings, in insertion order. *)
Definition has {A} (m : list (string * A)) (k : string) : bool :=
  existsb (fun kv => String.eqb (fst kv) k) m.

Definition values {A} (m : list (string * A)) : list A := map snd m.

(** The [forEach] over the fetched rows.  A row whose [ip_address] is null
    makes [event.ip_address.split] throw: the result is [None] and
    [setUserStats] is not reached. *)
Fixpoint collect_users (data : list visit) (uniqueUsers : list (string * user))
    : option (list (string * user)) :=
  match data with
  | [] => Some uniqueUsers
  | v :: rest =>
      match v_ip_address v with
      | None => None
      | Some a =>
          if has uniqueUsers a then collect_users rest uniqueUsers
          else collect_users rest (uniqueUsers ++ [(a, make_user a v)])%list
      end
  end.

(** The value given to [setUserStats]. *)
Definition loadUserStats (data : list visit) : option (list user) :=
  option_map values (collect_users data []).

(** The entries of the map are keyed by their own address, each address
    once, and carry the country assigned to that address. *)
Definition users_ok (m : list (string * user)) : Prop :=
  List.NoDup (map fst m)
  /\ Forall (fun kv => ip (snd kv) = fst kv
                       /\ country (snd kv) = code (assign_country (fst kv))) m.

(** A row fetched for the address [a]. *)
Definition visit_from (a : string) : visit :=
  {| v_ip_address := Some a; v_occurred_at := ""; v_ua := None;
     v_viewport_w := None; v_viewport_h := None |}.

(** *** [milestoneStats] *)

(** [events.filter((e) => e.scroll_depth >= m).length] *)
Definition count_ge (events : list event) (m : Z) : Z :=
  Z.of_nat (length (List.filter (fun e => m <=? scroll_depth e) events)).

(** [n || 1] on a length. *)
Definition len_or_1 (n : Z) : Z := if n =? 0 then 1 else n.

(** [Math.round((c / total) * 100)] *)
Definition percent (c total : Z) : Z :=
  Math_round (js_mul (js_div (inject_Z c) (inject_Z total)) 100).

Definition perc (events : list event) (m : Z) : Z :=
  let total := len_or_1 (Z.of_nat (length events)) in
  percent (count_ge events m) total.

(** [perc(m)] as a number of JS: [None] when the division is by zero, where
    [Math.round(NaN * 100)] is NaN and not a percentage. *)
Definition perc_number (events : list event) (m : Z) : option Z :=
  let total := len_or_1 (Z.of_nat (length events)) in
  match js_quotient (inject_Z (count_ge events m)) (inject_Z total) with
  | Some q => Some (Math_round (js_mul q 100))
  | None => None
  end.

Record milestone_stats := { p25 : Z; p50 : Z; p75 : Z; p100 : Z; total : Z }.

Definition milestoneStats (events : list event) : milestone_stats :=
  {| p25 := perc events 25;
     p50 := perc events 50;
     p75 := perc events 75;
     p100 := perc events 100;
     total := Z.of_nat (length events) |}.

(** An event of which only the scroll depth is set. *)
Definition event_at (depth : Z) : event :=
  {| occurred_at := ""; scroll_depth := depth; time_on_page := None;
     total_time_on_page := None; max_scroll_depth := None;
     scroll_events_count := None; ua := None; viewport_w := None;
     viewport_h := None |}.

(** *** [engagementStats] *)

Record device_stat := {
  sessions : Z; avgTime : Z; completionRate : Z; activeRate : Z
}.

Definition zero_stat : device_stat :=
  {| sessions := 0; avgTime := 0; completionRate := 0; activeRate := 0 |}.

(** A JavaScript object with string keys. *)
Definition zero_deviceStats : gmap string device_stat :=
  <["tablet" := zero_stat]> (<["mobile" := zero_stat]> (<["desktop" := zero_stat]> ∅)).

Record engagement_stats := {
  avgTimeOnPage : Z;
  scrollCompletionRate : Z;
  activeScrollRate : Z;
  totalSessions : Z;
  avgScrollSpeed : Z;
  deviceStats : gmap string device_stat
}.

Definition no_engagement : engagement_stats :=
  {| avgTimeOnPage := 0; scrollCompletionRate := 0; activeScrollRate := 0;
     totalSessions := 0; avgScrollSpeed := 0; deviceStats := zero_deviceStats |}.

(** The key of a session in the [uniqueSessions] map:
    [`${event.total_time_on_page}-${event.max_scroll_depth}`]. *)
Definition show (x : option Z) : string :=
  match x with
  | Some z => string_of_Z z
  | None => "null"
  end.

Definition session_key (e : event) : string :=
  (show (total_time_on_page e) ++ "-" ++ show (max_scroll_depth e))%string.

Fixpoint collect_sessions (sessions : list event) (uniqueSessions : list (string * event))
    : list (string * event) :=
  match sessions with
  | [] => uniqueSessions
  | e :: rest =>
      let key := session_key e in
      if has uniqueSessions key then collect_sessions rest uniqueSessions
      else collect_sessions rest (uniqueSessions ++ [(key, e)])%list
  end.

(** [l.reduce((sum, s) => sum + f(s), 0)] *)
Definition sum_by (f : event -> Q) (l : list event) : Q :=
  fold_left (fun sum s => js_add sum (f s)) l 0%Q.

Definition time_of (s : event) : Q := inject_Z (num_or (total_time_on_page s) 0).

(** [s.max_scroll_depth >= m]; null compares as 0. *)
Definition depth_ge (s : event) (m : Z) : bool :=
  m <=? match max_scroll_depth s with Some d => d | None => 0 end.

Definition completed (s : event) : bool := depth_ge s 100.

Definition active (s : event) : bool :=
  depth_ge s 75 && (10000 <? num_or (total_time_on_page s) 0).

Definition count_if (f : event -> bool) (l : list event) : Z :=
  Z.of_nat (length (List.filter f l)).

Definition speed_of (s : event) : Q :=
  if truthy (scroll_events_count s) && truthy (total_time_on_page s)
  then js_div (inject_Z (num_or (total_time_on_page s) 0))
              (inject_Z (num_or (scroll_events_count s) 0))
  else 0%Q.

(** [Math.round(sum of times / n / 1000)] *)
Definition avg_seconds (l : list event) : Z :=
  Math_round (js_div (js_div (sum_by time_of l) (inject_Z (Z.of_nat (length l)))) 1000).

(** The [forEach] that fills [deviceGroups]: a session is pushed only when
    the object has a property named by its device type. *)
Definition group_session (deviceGroups : gmap string (list event)) (session : event)
    : gmap string (list event) :=
  let deviceType :=
    getDeviceType (str_or (ua session) "") (num_or (viewport_w session) 0)
      (num_or (viewport_h session) 0) in
  match deviceGroups !! deviceType with
  | Some group => <[deviceType := (group ++ [session])%list]> deviceGroups
  | None => deviceGroups
  end.

Definition empty_deviceGroups : gmap string (list event) :=
  <["tablet" := []]> (<["mobile" := []]> (<["desktop" := []]> ∅)).

Definition deviceGroups_of (sessionData : list event) : gmap string (list event) :=
  fold_left group_session sessionData empty_deviceGroups.

Definition stat_of (deviceSessions : list event) : device_stat :=
  let n := Z.of_nat (length deviceSessions) in
  {| sessions := n;
     avgTime := avg_seconds deviceSessions;
     completionRate := percent (count_if completed deviceSessions) n;
     activeRate := percent (count_if active deviceSessions) n |}.

(** The [forEach] over [Object.keys(deviceGroups)]. *)
Definition fill_stat (deviceGroups : gmap string (list event))
    (deviceStats : gmap string device_stat) (deviceType : string)
    : gmap string device_stat :=
  match deviceGroups !! deviceType with
  | Some deviceSessions =>
      if 0 <? Z.of_nat (length deviceSessions)
      then <[deviceType := stat_of deviceSessions]> deviceStats
      else deviceStats
  | None => deviceStats
  end.

Definition device_keys : list string := ["desktop"; "mobile"; "tablet"].

Definition engagementStats (events : list event) : engagement_stats :=
  if Z.of_nat (length events) =? 0 then no_engagement
  else
    let sessions :=
      List.filter (fun e => truthy (total_time_on_page e) && truthy (max_scroll_depth e))
        events in
    let sessionData := values (collect_sessions sessions []) in
    let totalSessions := Z.of_nat (length sessionData) in
    if totalSessions =? 0 then no_engagement
    else
      let deviceGroups := deviceGroups_of sessionData in
      {| avgTimeOnPage := avg_seconds sessionData;
         scrollCompletionRate := percent (count_if completed sessionData) totalSessions;
         activeScrollRate := percent (count_if active sessionData) totalSessions;
         totalSessions := totalSessions;
         avgScrollSpeed :=
           Math_round (js_div (sum_by speed_of sessionData) (inject_Z totalSessions));
         deviceStats := fold_left (fill_stat deviceGroups) device_keys zero_deviceStats |}.

(** [engagementStats.deviceStats.desktop] and its siblings, as the page
    reads them. *)
Definition stat_at (s : engagement_stats) (k : string) : device_stat :=
  default zero_stat (deviceStats s !! k).

(** The deduplicated sessions of an event set. *)
Definition sessionData_of (events : list event) : list event :=
  values (collect_sessions
    (List.filter (fun e => truthy (total_time_on_page e) && truthy (max_scroll_depth e))
       events) []).

Definition device_of (s : event) : string :=
  getDeviceType (str_or (ua s) "") (num_or (viewport_w s) 0) (num_or (viewport_h s) 0).

(** One completed session of 20 seconds from a desktop browser. *)
Definition desktop_session : event :=
  {| occurred_at := "2025-01-01T00:00:20.000Z"; scroll_depth := 100;
     time_on_page := Some 20000; total_time_on_page := Some 20000;
     max_scroll_depth := Some 100; scroll_events_count := Some 5;
     ua := Some "Mozilla/5.0 (Windows NT 10.0; Win64; x64)";
     viewport_w := Some 1920; viewport_h := Some 1080 |}.

End Dashboard.

(** ** The generated tracking script: [src/app/api/tracker.js/route.ts] *)

Module Tracker.

Import JsNumber.

Local Open Scope Z_scope.

(** What [getScrollDepth] reads from the window and the document.  The two
    scroll offsets are doubles, the heights are integers. *)
Record dom := {
  pageYOffset : Q;
  de_scrollTop : Q;
  body_scrollHeight : Z;
  de_scrollHeight : Z;
  body_offsetHeight : Z;
  de_offsetHeight : Z;
  body_clientHeight : Z;
  de_clientHeight : Z;
  innerHeight : Z
}.

(** [x || y] on numbers. *)
Definition q_or (x y : Q) : Q := if Qeq_bool x 0 then y else x.
Definition z_or (x y : Z) : Z := if x =? 0 then y else x.

Definition scrollTop_of (d : dom) : Q := q_or (pageYOffset d) (q_or (de_scrollTop d) 0).

Definition docHeight_of (d : dom) : Z :=
  Z.max (body_scrollHeight d) (Z.max (de_scrollHeight d)
    (Z.max (body_offsetHeight d) (Z.max (de_offsetHeight d)
      (Z.max (body_clientHeight d) (de_clientHeight d))))).

Definition winHeight_of (d : dom) : Z := z_or (innerHeight d) (z_or (de_clientHeight d) 0).

Definition total_of (d : dom) : Z := Z.max (docHeight_of d - winHeight_of d) 1.

Definition getScrollDepth (d : dom) : Z :=
  let scrollTop := scrollTop_of d in
  let total := total_of d in
  let depth := Z.min 100 (Math_round (js_mul (js_div scrollTop (inject_Z total)) 100)) in
  depth.

(** The expression of the specification:
    [round(scrollTop / max(scrollHeight - viewportHeight, 1) * 100)]
    clamped to [0, 100]. *)
Definition clamped_depth (d : dom) : Z :=
  Z.max 0 (Z.min 100
    (Math_round (js_mul (js_div (scrollTop_of d) (inject_Z (total_of d))) 100))).

Definition MILESTONES : list Z := [25; 50; 75; 100].

Record scroll_record := { sr_depth : Z; sr_timestamp : Z; sr_timeOnPage : Z }.

Record engagement := {
  e_timeOnPage : Z;
  e_maxDepth : Z;
  e_scrollEvents : Z;
  e_avgScrollSpeed : Q
}.

(** The JSON body of a request to the endpoint; the fields spread into it
    for a milestone are [None] otherwise. *)
Record payload := {
  trackerId : string;
  scrollDepth : option Z;
  pageUrl : string;
  timestamp : Z;
  timeOnPage : option Z;
  totalTimeOnPage : option Z;
  maxScrollDepth : option Z;
  scrollEvents_n : option Z;
  engagement_data : option engagement
}.

(** A call of [post]: the request sent by [fetch] and the [milestone]
    argument ([None] for [undefined]). *)
Record sent_event := { body : payload; milestone : option Z }.

Record state := {
  maxDepth : Z;
  ticking : bool;
  fired : gset Z;
  scrollEvents : list scroll_record;
  clock : nat;
  sent : list sent_event;
  beacons : list payload
}.

Inductive event :=
  | Scroll              (* a scroll, resize or readystatechange event: [onScroll] *)
  | Frame (d : dom)     (* the animation frame callback runs and reads [d] *)
  | Unload.             (* [beforeunload] *)

Section Script.

(** The tracker id and the URL of the page, and the clock: [now k] is the
    value of the [k]-th call of [Date.now()].  The device descriptor added
    to every payload is left out. *)
Variable TRACKER_ID : string.
Variable href : string.
Variable now : nat -> Z.

Definition startTime : Z := now 0.

Definition engagement_of (timeOnPage maxDepth : Z) (n : nat) : engagement :=
  {| e_timeOnPage := timeOnPage;
     e_maxDepth := maxDepth;
     e_scrollEvents := Z.of_nat n;
     e_avgScrollSpeed :=
       if 1 <? Z.of_nat n then js_div (inject_Z timeOnPage) (inject_Z (Z.of_nat n))
       else 0%Q |}.

Definition post (depth : Z) (milestone : option Z) (s : state) : state :=
  let currentTime := now (clock s) in
  let timeOnPage := currentTime - startTime in
  let scrollEvents :=
    scrollEvents s ++
    [{| sr_depth := depth; sr_timestamp := currentTime; sr_timeOnPage := timeOnPage |}] in
  let n := length scrollEvents in
  let with_engagement := match milestone with Some _ => true | None => false end in
  let payload :=
    {| trackerId := TRACKER_ID;
       scrollDepth := Some depth;
       pageUrl := href;
       timestamp := currentTime;
       timeOnPage := Some timeOnPage;
       totalTimeOnPage := if with_engagement then Some timeOnPage else None;
       maxScrollDepth := if with_engagement then Some (maxDepth s) else None;
       scrollEvents_n := if with_engagement then Some (Z.of_nat n) else None;
       engagement_data :=
         if with_engagement then Some (engagement_of timeOnPage (maxDepth s) n)
         else None |} in
  {| maxDepth := maxDepth s;
     ticking := ticking s;
     fired := fired s;
     scrollEvents := scrollEvents;
     clock := S (clock s);
     sent := sent s ++ [{| body := payload; milestone := milestone |}];
     beacons := beacons s |}.

Definition set_maxDepth (d : Z) (s : state) : state :=
  {| maxDepth := d; ticking := ticking s; fired := fired s;
     scrollEvents := scrollEvents s; clock := clock s; sent := sent s;
     beacons := beacons s |}.

Definition set_ticking (b : bool) (s : state) : state :=
  {| maxDepth := maxDepth s; ticking := b; fired := fired s;
     scrollEvents := scrollEvents s; clock := clock s; sent := sent s;
     beacons := beacons s |}.

Definition add_fired (m : Z) (s : state) : state :=
  {| maxDepth := maxDepth s; ticking := ticking s; fired := {[m]} ∪ fired s;
     scrollEvents := scrollEvents s; clock := clock s; sent := sent s;
     beacons := beacons s |}.

(** The body of the loop [for (const m of MILESTONES)]. *)
Definition check_milestone (s : state) (m : Z) : state :=
  if (m <=? maxDepth s) && negb (bool_decide (m ∈ fired s))
  then post (maxDepth s) (Some m) (add_fired m s)
  else s.

(** The callback given to [requestAnimationFrame]. *)
Definition frame (d : dom) (s : state) : state :=
  let depth := getScrollDepth d in
  let s :=
    if maxDepth s <? depth then
      let s := set_maxDepth depth s in
      let s := post (maxDepth s) None s in
      fold_left check_milestone MILESTONES s
    else s in
  set_ticking false s.

(** The listener of [beforeunload]. *)
Definition unload (s : state) : state :=
  let finalTime := now (clock s) in
  let totalTimeOnPage := finalTime - startTime in
  let n := length (scrollEvents s) in
  let engagementData :=
    {| trackerId := TRACKER_ID;
       scrollDepth := None;
       pageUrl := href;
       timestamp := finalTime;
       timeOnPage := None;
       totalTimeOnPage := Some totalTimeOnPage;
       maxScrollDepth := Some (maxDepth s);
       scrollEvents_n := Some (Z.of_nat n);
       engagement_data := Some (engagement_of totalTimeOnPage (maxDepth s) n) |} in
  {| maxDepth := maxDepth s; ticking := ticking s; fired := fired s;
     scrollEvents := scrollEvents s; clock := S (clock s); sent := sent s;
     beacons := beacons s ++ [engagementData] |}.

(** The listeners.  A frame callback is pending exactly when [ticking] is
    set. *)
Definition listen (s : state) (e : event) : state :=
  match e with
  | Scroll => if ticking s then s else set_ticking true s
  | Frame d => if ticking s then frame d s else s
  | Unload => unload s
  end.

(** Without a tracker id the script warns and returns at once: nothing is
    installed and nothing is ever sent. *)
Definition installed : bool := negb (String.eqb TRACKER_ID "").

Definition blank : state :=
  {| maxDepth := 0; ticking := false; fired := ∅; scrollEvents := [];
     clock := 0; sent := []; beacons := [] |}.

(** The state once the script has been evaluated: [startTime] is read and
    [post(0)] has run. *)
Definition init : state :=
  if installed then
    post 0 None
      {| maxDepth := 0; ticking := false; fired := ∅; scrollEvents := [];
         clock := 1; sent := []; beacons := [] |}
  else blank.

Definition step (s : state) (e : event) : state :=
  if installed then listen s e else s.

Definition run (evs : list event) : state := fold_left step evs init.

End Script.

(** The number of calls of [post] for the milestone [m] in a log. *)
Definition milestone_count (m : Z) (log : list sent_event) : Z :=
  Z.of_nat (length (List.filter (fun p => bool_decide (milestone p = Some m)) log)).

(** The payload carries the session engagement fields. *)
Definition has_engagement (p : payload) : Prop :=
  is_Some (totalTimeOnPage p) /\ is_Some (maxScrollDepth p)
  /\ is_Some (scrollEvents_n p) /\ is_Some (engagement_data p).

(** A page pulled 100 pixels above its top (elastic overscroll), 3000
    pixels high in a window of 1000. *)
Definition overscrolled : dom :=
  {| pageYOffset := - (100); de_scrollTop := 0;
     body_scrollHeight := 3000; de_scrollHeight := 3000;
     body_offsetHeight := 3000; de_offsetHeight := 3000;
     body_clientHeight := 3000; de_clientHeight := 1000;
     innerHeight := 1000 |}.

(** The same page scrolled down by 1200 pixels. *)
Definition scrolled_down : dom :=
  {| pageYOffset := 0; de_scrollTop := 1200;
     body_scrollHeight := 3000; de_scrollHeight := 3000;
     body_offsetHeight := 3000; de_offsetHeight := 3000;
     body_clientHeight := 3000; de_clientHeight := 1000;
     innerHeight := 1000 |}.

(** [1] when [b] holds, [0] otherwise. *)
Definition one_if (b : bool) : Z := if b then 1 else 0.

(** The record of milestone [m] in state [s] agrees with a running maximum
    of [D]: it is in [fired], and has been posted once, exactly when
    [m <= D]; and the posts for [m] carry the engagement fields. *)
Definition settled (s : state) (m D : Z) : Prop :=
  (m ∈ fired s <-> m <= D)
  /\ milestone_count m (sent s) = one_if (m <=? D)
  /\ (forall p, In p (sent s) -> milestone p = Some m -> has_engagement (body p)).

Definition Inv (s : state) : Prop :=
  forall m, In m MILESTONES -> settled s m (maxDepth s).

End Tracker.

(** ** The ingestion endpoint: [src/app/api/track/route.ts] *)

Module Track.

Local Open Scope string_scope.
Local Open Scope Z_scope.

(** A parsed JSON value; a number is the rational it denotes, an object
    lists its properties. *)
#[local] Set Warnings "-register-all".
Inductive json :=
  | JNull
  | JBool (b : bool)
  | JNum (q : Q)
  | JStr (s : string)
  | JArr (l : list json)
  | JObj (props : list (string * json)).

Fixpoint prop (k : string) (props : list (string * json)) : option json :=
  match props with
  | [] => None
  | (k', v) :: rest => if String.eqb k' k then Some v else prop k rest
  end.

Definition len (s : string) : Z := Z.of_nat (String.length s).

(** [Number.isInteger] *)
Definition is_int (q : Q) : bool := Z.of_N (Npos (Qden (Qred q))) =? 1.

Definition to_Z (q : Q) : Z := Qfloor q.

(** The fields of [parse.data]. *)
Record device := { d_ua : option string; width : option Z; height : option Z }.

Record engagement := {
  e_timeOnPage : Z; e_maxDepth : Q; e_scrollEvents : Z; e_avgScrollSpeed : Q
}.

Record track_event := {
  trackerId : string;
  scrollDepth : Q;
  pageUrl : string;
  timestamp : Z;
  timeOnPage : option Z;
  totalTimeOnPage : option Z;
  maxScrollDepth : option Q;
  scrollEvents : option Z;
  engagement_data : option engagement;
  device_data : option device
}.

(** A row of [scroll_events] as [insert] receives it. *)
Record row := {
  tracker_id : string;
  scroll_depth : Q;
  page_url : string;
  occurred_at : Z;
  time_on_page : option Z;
  total_time_on_page : option Z;
  max_scroll_depth : option Q;
  scroll_events_count : option Z;
  engagement_json : option engagement;
  ua : option string;
  viewport_w : option Z;
  viewport_h : option Z;
  ip_address : string
}.

Record db := { trackers : list string; scroll_events : list row }.

(** What the storage layer does with the two calls of one request: either
    may fail with an error. *)
Record storage := { lookup_fails : bool; insert_fails : bool }.

Inductive reply :=
  | NoContent
  | Error (error : string)
  | Invalid (error : string).   (* with the flattened issues as [details] *)

Record response := {
  status : Z;
  reply_body : reply;
  allow_origin : option string
}.

Record request := {
  origin : option string;
  x_forwarded_for : option string;
  x_real_ip : option string;
  json_body : option json      (* [None]: [request.json()] throws *)
}.

(** Validators of the schema; [None] is a validation issue. *)
Definition zstring (lo hi : Z) (v : json) : option string :=
  match v with
  | JStr s => if (lo <=? len s) && (len s <=? hi) then Some s else None
  | _ => None
  end.

Definition znumber (lo hi : Q) (v : json) : option Q :=
  match v with
  | JNum q => if Qle_bool lo q && Qle_bool q hi then Some q else None
  | _ => None
  end.

(** [z.number().int().min(lo)], with an upper bound when [hi] is given. *)
Definition zint (lo : Z) (hi : option Z) (v : json) : option Z :=
  match v with
  | JNum q =>
      if is_int q && (lo <=? to_Z q)
         && match hi with Some h => to_Z q <=? h | None => true end
      then Some (to_Z q) else None
  | _ => None
  end.

(** [.optional()]: an absent property is accepted. *)
Definition optional {A} (f : json -> option A) (v : option json) : option (option A) :=
  match v with
  | None => Some None
  | Some j => option_map Some (f j)
  end.

Definition required {A} (f : json -> option A) (v : option json) : option A :=
  match v with
  | None => None
  | Some j => f j
  end.

Definition zengagement (v : json) : option engagement :=
  match v with
  | JObj props =>
      a ← required (zint 0 None) (prop "timeOnPage" props);
      b ← required (znumber 0 100) (prop "maxDepth" props);
      c ← required (zint 0 None) (prop "scrollEvents" props);
      d ← required (fun j => match j with
                              | JNum q => if Qle_bool 0 q then Some q else None
                              | _ => None
                              end) (prop "avgScrollSpeed" props);
      Some {| e_timeOnPage := a; e_maxDepth := b; e_scrollEvents := c;
              e_avgScrollSpeed := d |}
  | _ => None
  end.

Definition zdevice (v : json) : option device :=
  match v with
  | JObj props =>
      a ← optional (zstring 0 512) (prop "ua" props);
      b ← optional (zint 1 (Some 20000)) (prop "width" props);
      c ← optional (zint 1 (Some 20000)) (prop "height" props);
      Some {| d_ua := a; width := b; height := c |}
  | _ => None
  end.

Section Endpoint.

(** [z.string().url()] is the validator of the library; [production] is
    [process.env.NODE_ENV === "production"]. *)
Variable is_url : string -> bool.
Variable production : bool.

Definition zurl (v : json) : option string :=
  match v with
  | JStr s => if is_url s then Some s else None
  | _ => None
  end.

(** [trackEventSchema.safeParse(body)]: [None] when [success] is false. *)
Definition safeParse (body : json) : option track_event :=
  match body with
  | JObj props =>
      a ← required (zstring 8 64) (prop "trackerId" props);
      b ← required (znumber 0 100) (prop "scrollDepth" props);
      c ← required zurl (prop "pageUrl" props);
      d ← required (zint 1 None) (prop "timestamp" props);
      e ← optional (zint 0 None) (prop "timeOnPage" props);
      f ← optional (zint 0 None) (prop "totalTimeOnPage" props);
      g ← optional (znumber 0 100) (prop "maxScrollDepth" props);
      h ← optional (zint 0 None) (prop "scrollEvents" props);
      i ← optional zengagement (prop "engagement" props);
      j ← optional zdevice (prop "device" props);
      Some {| trackerId := a; scrollDepth := b; pageUrl := c; timestamp := d;
              timeOnPage := e; totalTimeOnPage := f; maxScrollDepth := g;
              scrollEvents := h; engagement_data := i; device_data := j |}
  | _ => None
  end.

Definition allowedOrigins : list string :=
  if production then ["https://yourdomain.com"; "https://www.yourdomain.com"]
  else ["*"].

Definition includes (l : list string) (s : option string) : bool :=
  match s with
  | Some s => existsb (String.eqb s) l
  | None => false
  end.

(** The [Access-Control-Allow-Origin] header of [getCorsHeaders]. *)
Definition getCorsHeaders (origin : option string) : option string :=
  if includes allowedOrigins (Some "*") then Some "*"
  else if includes allowedOrigins origin then origin
  else nth_error allowedOrigins 0.

(** [x || null] on an optional integer, an optional number and an optional
    string. *)
Definition int_or_null (x : option Z) : option Z :=
  match x with
  | Some z => if z =? 0 then None else Some z
  | None => None
  end.

Definition num_or_null (x : option Q) : option Q :=
  match x with
  | Some q => if Qeq_bool q 0 then None else Some q
  | None => None
  end.

Definition str_or_null (x : option string) : option string :=
  match x with
  | Some s => if String.eqb s "" then None else Some s
  | None => None
  end.

Definition header_or (x : option string) (d : string) : string :=
  match str_or_null x with
  | Some s => s
  | None => d
  end.

(** [new Date(timestamp).toISOString()] throws a [RangeError] beyond the
    range of time values; the instant is kept as its epoch milliseconds. *)
Definition toISOString (timestamp : Z) : option Z :=
  if timestamp <=? 8640000000000000 then Some timestamp else None.

Definition row_of (req : request) (ev : track_event) (occurred : Z) : row :=
  {| tracker_id := trackerId ev;
     scroll_depth := scrollDepth ev;
     page_url := pageUrl ev;
     occurred_at := occurred;
     time_on_page := int_or_null (timeOnPage ev);
     total_time_on_page := int_or_null (totalTimeOnPage ev);
     max_scroll_depth := num_or_null (maxScrollDepth ev);
     scroll_events_count := int_or_null (scrollEvents ev);
     engagement_json := engagement_data ev;
     ua := str_or_null (device_data ev ≫= d_ua);
     viewport_w := int_or_null (device_data ev ≫= width);
     viewport_h := int_or_null (device_data ev ≫= height);
     ip_address :=
       header_or (x_forwarded_for req) (header_or (x_real_ip req) "unknown") |}.

(** [.from("trackers").select("id").eq("id", trackerId).maybeSingle()] *)
Definition find_tracker (d : db) (id : string) : option string :=
  find (String.eqb id) (trackers d).

Definition server_error (allow : option string) : response :=
  {| status := 500; reply_body := Error "Server error"; allow_origin := allow |}.

(** The handler: the response and the storage after the request. *)
Definition POST (st : storage) (req : request) (d : db) : response * db :=
  let corsHeaders := getCorsHeaders (origin req) in
  match json_body req with
  | None => (server_error (Some "*"), d)
  | Some body =>
      match safeParse body with
      | None =>
          ({| status := 400; reply_body := Invalid "Invalid payload";
              allow_origin := corsHeaders |}, d)
      | Some ev =>
          if lookup_fails st then (server_error corsHeaders, d)
          else
            match find_tracker d (trackerId ev) with
            | None =>
                ({| status := 404; reply_body := Error "Unknown trackerId";
                    allow_origin := corsHeaders |}, d)
            | Some _ =>
                match toISOString (timestamp ev) with
                | None => (server_error (Some "*"), d)
                | Some occurred =>
                    if insert_fails st then (server_error corsHeaders, d)
                    else
                      ({| status := 204; reply_body := NoContent;
                          allow_origin := Some "*" |},
                       {| trackers := trackers d;
                          scroll_events :=
                            scroll_events d ++ [row_of req ev occurred] |})
                end
            end
      end
  end.

(** A tracker with this id exists. *)
Definition tracker_exists (d : db) (id : string) : Prop := In id (trackers d).

End Endpoint.

(** A valid body for the tracker [abcd1234], a store that does not have
    it, and a request carrying the body. *)
Definition https_url (s : string) : bool := String.prefix "https://" s.

Definition sample_body : json :=
  JObj [("trackerId", JStr "abcd1234"); ("scrollDepth", JNum 50);
        ("pageUrl", JStr "https://example.com"); ("timestamp", JNum 1700000000000)].

Definition sample_request : request :=
  {| origin := Some "https://example.com"; x_forwarded_for := Some "10.0.0.1";
     x_real_ip := None; json_body := Some sample_body |}.

Definition other_db : db := {| trackers := ["zzzz9999"]; scroll_events := [] |}.

Definition storage_ok : storage := {| lookup_fails := false; insert_fails := false |}.

End Track.

(** ** Visitors and sessions: what the maps hold *)

Module DashboardMaps.

Import JsString Dashboard.

Local Open Scope string_scope.
Local Open Scope Z_scope.

(** The first fetched row that carries the address [a]. *)
Definition first_row (a : string) (data : list visit) : option visit :=
  find (fun v => match v_ip_address v with
                 | Some b => String.eqb b a
                 | None => false
                 end) data.

(** The polynomial of which [ipHash] is the value modulo [2 ^ 32]. *)
Definition poly31 (s : string) : Z :=
  fold_left (fun a c => 31 * a + JsString.code c) (list_ascii_of_string s) 0.

(** The residues in [0, 100) to which the table gives the country [c]. *)
Definition residues_of (c : string) : list Z :=
  List.filter (fun r => String.eqb (code (fst (select_country r))) c)
    (map Z.of_nat (seq 0 100)).

(** An event that counts as a session. *)
Definition is_session (e : event) : bool :=
  truthy (total_time_on_page e) && truthy (max_scroll_depth e).

(** The first session among the events with the key [k]. *)
Definition first_session (k : string) (events : list event) : option event :=
  find (fun e => is_session e && String.eqb (session_key e) k) events.

(** [crypto.randomUUID().replace(/-/g, "").slice(0, 16)] in
    [createTracker]. *)
Fixpoint remove_dashes (s : string) : string :=
  match s with
  | EmptyString => EmptyString
  | String c s' => if Ascii.eqb c "-" then remove_dashes s' else String c (remove_dashes s')
  end.

Fixpoint take (n : nat) (s : string) : string :=
  match n, s with
  | S n', String c s' => String c (take n' s')
  | _, _ => EmptyString
  end.

Definition new_tracker_id (uuid : string) : string := take 16 (remove_dashes uuid).

(** No code unit of [s] is a dash. *)
Fixpoint dash_free (s : string) : Prop :=
  match s with
  | EmptyString => True
  | String c s' => c <> "-"%char /\ dash_free s'
  end.

(** The 256 code units of the model, and the patterns made of ASCII ones. *)
Definition all_units : list ascii := map ascii_of_nat (seq 0 256).

Fixpoint ascii_only (p : string) : bool :=
  match p with
  | EmptyString => true
  | String a p' => (JsString.code a <? 128) && ascii_only p'
  end.

(** Three fetched rows of two visitors, and a second session. *)
Definition sample_visits : list visit :=
  [visit_from "10.0.0.1"; visit_from "10.0.0.2"; visit_from "10.0.0.1"].

Definition mobile_session : event :=
  {| occurred_at := "2025-01-01T00:00:45.000Z"; scroll_depth := 60;
     time_on_page := Some 45000; total_time_on_page := Some 45000;
     max_scroll_depth := Some 60; scroll_events_count := Some 3;
     ua := Some "Mozilla/5.0 (iPhone; CPU iPhone OS 17_0 like Mac OS X)";
     viewport_w := Some 390; viewport_h := Some 844 |}.

End DashboardMaps.

(** ** The log of the tracking script *)

Module TrackerLog.

Import JsNumber Tracker.

Local Open Scope Z_scope.

(** The depths of the posts made without a milestone, in the order sent. *)
Definition plain_depths (log : list sent_event) : list Z :=
  flat_map
    (fun p =>
       match milestone p, scrollDepth (body p) with
       | None, Some d => [d]
       | _, _ => []
       end)
    log.

Section Log.

Variable TRACKER_ID : string.
Variable href : string.
Variable now : nat -> Z.

(** What a call [post(d, milestone)] made with [maxDepth = d] sends: the
    payload is built from the tracker id, the page, a reading [now k] of
    the clock, the depth [d] and the number [n] of posts so far; [d] is
    within [0, 100], and a milestone is one of [MILESTONES] that [d] has
    reached. *)
Definition well_formed (p : sent_event) : Prop :=
  exists (k n : nat) (d : Z),
    let t := now k - now 0 in
    let e := match milestone p with Some _ => true | None => false end in
    body p
    = {| trackerId := TRACKER_ID;
         scrollDepth := Some d;
         pageUrl := href;
         timestamp := now k;
         timeOnPage := Some t;
         totalTimeOnPage := if e then Some t else None;
         maxScrollDepth := if e then Some d else None;
         scrollEvents_n := if e then Some (Z.of_nat n) else None;
         engagement_data := if e then Some (engagement_of t d n) else None |}
    /\ 0 <= d <= 100
    /\ (1 <= n)%nat
    /\ match milestone p with
       | Some m => In m MILESTONES /\ m <= d
       | None => True
       end.

(** The state of a running script: the maximum is a depth in [0, 100],
    every request sent is well formed, each post has left one record in
    [scrollEvents], and the posts without a milestone carry strictly
    increasing depths, the last of which is the maximum. *)
Definition log_ok (s : state) : Prop :=
  0 <= maxDepth s <= 100
  /\ Forall well_formed (sent s)
  /\ length (scrollEvents s) = length (sent s)
  /\ StronglySorted Z.lt (plain_depths (sent s))
  /\ List.last (plain_depths (sent s)) 0 = maxDepth s.

(** What the listener of [beforeunload] sends: no [scrollDepth], and the
    maximum, a depth in [0, 100], as [maxScrollDepth]. *)
Definition beacon_ok (b : payload) : Prop :=
  scrollDepth b = None /\ timeOnPage b = None
  /\ trackerId b = TRACKER_ID /\ pageUrl b = href
  /\ exists d, maxScrollDepth b = Some d /\ 0 <= d <= 100.

End Log.

Definition is_scroll (e : event) : bool :=
  match e with Scroll => true | _ => false end.

Definition is_unload (e : event) : bool :=
  match e with Unload => true | _ => false end.

(** The depths read by the frame callbacks that run: a callback is pending
    from a scroll, resize or readystatechange event until it runs. *)
Fixpoint depths_read (pending : bool) (evs : list event) : list Z :=
  match evs with
  | [] => []
  | Scroll :: rest => depths_read true rest
  | Frame d :: rest =>
      if pending then getScrollDepth d :: depths_read false rest
      else depths_read false rest
  | Unload :: rest => depths_read pending rest
  end.

(** The largest depth read so far, and 0 when none is above it. *)
Definition largest_depth_read (evs : list event) : Z :=
  fold_right Z.max 0 (depths_read false evs).

(** A clock that advances by one millisecond at each reading, and a visit:
    one scroll, the frame that follows it, and the unload. *)
Definition sample_clock (k : nat) : Z := 1700000000000 + Z.of_nat k.

Definition sample_visit : list event := [Scroll; Frame scrolled_down; Unload].

End TrackerLog.

(** ** From the script to the endpoint: the JSON bodies *)

Module Wire.

Import JsNumber Track.

Local Open Scope string_scope.
Local Open Scope Z_scope.

(** What [post] reads from the window for the [device] of a payload. *)
Record window := { userAgent : string; innerWidth : Z; innerHeight : Z }.

Definition jint (z : Z) : json := JNum (inject_Z z).

(** [JSON.stringify] leaves out a property whose value is [undefined]. *)
Definition opt {A} (k : string) (f : A -> json) (x : option A) : list (string * json) :=
  match x with
  | Some a => [(k, f a)]
  | None => []
  end.

Definition json_of_engagement (e : Tracker.engagement) : json :=
  JObj [("timeOnPage", jint (Tracker.e_timeOnPage e));
        ("maxDepth", jint (Tracker.e_maxDepth e));
        ("scrollEvents", jint (Tracker.e_scrollEvents e));
        ("avgScrollSpeed", JNum (Tracker.e_avgScrollSpeed e))].

(** The body that [post] gives to [fetch]. *)
Definition json_of_post (w : window) (p : Tracker.payload) : json :=
  JObj ([("trackerId", JStr (Tracker.trackerId p))]
        ++ opt "scrollDepth" jint (Tracker.scrollDepth p)
        ++ [("pageUrl", JStr (Tracker.pageUrl p));
            ("timestamp", jint (Tracker.timestamp p))]
        ++ opt "timeOnPage" jint (Tracker.timeOnPage p)
        ++ opt "totalTimeOnPage" jint (Tracker.totalTimeOnPage p)
        ++ opt "maxScrollDepth" jint (Tracker.maxScrollDepth p)
        ++ opt "scrollEvents" jint (Tracker.scrollEvents_n p)
        ++ opt "engagement" json_of_engagement (Tracker.engagement_data p)
        ++ [("device",
             JObj [("ua", JStr (userAgent w));
                   ("width", jint (innerWidth w));
                   ("height", jint (innerHeight w))])])%list.

(** The body that the listener of [beforeunload] gives to [sendBeacon]. *)
Definition json_of_beacon (p : Tracker.payload) : json :=
  JObj ([("trackerId", JStr (Tracker.trackerId p));
         ("pageUrl", JStr (Tracker.pageUrl p));
         ("timestamp", jint (Tracker.timestamp p))]
        ++ opt "totalTimeOnPage" jint (Tracker.totalTimeOnPage p)
        ++ opt "maxScrollDepth" jint (Tracker.maxScrollDepth p)
        ++ opt "scrollEvents" jint (Tracker.scrollEvents_n p)
        ++ opt "engagement" json_of_engagement (Tracker.engagement_data p))%list.

(** A request that carries the body [j]. *)
Definition request_with (j : json) : request :=
  {| origin := None; x_forwarded_for := None; x_real_ip := None; json_body := Some j |}.

Definition sample_window : window :=
  {| userAgent := "Mozilla/5.0 (Windows NT 10.0; Win64; x64)";
     innerWidth := 1920; innerHeight := 1080 |}.

(** The request sent on load by the script of tracker [abcd1234] when the
    clock reads 1700000000000 at the start and one millisecond later. *)
Definition load_post : Tracker.sent_event :=
  {| Tracker.body :=
       {| Tracker.trackerId := "abcd1234";
          Tracker.scrollDepth := Some 0;
          Tracker.pageUrl := "https://example.com/";
          Tracker.timestamp := 1700000000001;
          Tracker.timeOnPage := Some 1;
          Tracker.totalTimeOnPage := None;
          Tracker.maxScrollDepth := None;
          Tracker.scrollEvents_n := None;
          Tracker.engagement_data := None |};
     Tracker.milestone := None |}.

(** A body sent on unload after five seconds and two posts, at depth 40. *)
Definition sample_beacon : Tracker.payload :=
  {| Tracker.trackerId := "abcd1234";
     Tracker.scrollDepth := None;
     Tracker.pageUrl := "https://example.com/";
     Tracker.timestamp := 1700000005000;
     Tracker.timeOnPage := None;
     Tracker.totalTimeOnPage := Some 5000;
     Tracker.maxScrollDepth := Some 40;
     Tracker.scrollEvents_n := Some 2;
     Tracker.engagement_data := Some (Tracker.engagement_of 5000 40 2) |}.

End Wire.

(** ** The rows the endpoint stores *)

Module TrackRows.

Import Track.

Local Open Scope string_scope.
Local Open Scope Z_scope.

(** An optional integer column that is positive when present. *)
Definition positive_or_null (x : option Z) : Prop :=
  match x with
  | Some z => 1 <= z
  | None => True
  end.

(** An optional viewport dimension: the [CHECK] of the table. *)
Definition viewport_ok (x : option Z) : Prop :=
  match x with
  | Some z => 0 < z <= 20000
  | None => True
  end.

(** The constraints of the table [scroll_events] on a row (the foreign key
    on [tracker_id], the [CHECK]s on [scroll_depth], [viewport_w] and
    [viewport_h]) and what the handler adds to them. *)
Definition row_ok (trackers : list string) (r : row) : Prop :=
  In (tracker_id r) trackers
  /\ 8 <= len (tracker_id r) <= 64
  /\ (0 <= scroll_depth r <= 100)%Q
  /\ 1 <= occurred_at r <= 8640000000000000
  /\ positive_or_null (time_on_page r)
  /\ positive_or_null (total_time_on_page r)
  /\ positive_or_null (scroll_events_count r)
  /\ match max_scroll_depth r with
     | Some q => (~ q == 0 /\ 0 <= q <= 100)%Q
     | None => True
     end
  /\ match ua r with
     | Some s => 1 <= len s <= 512
     | None => True
     end
  /\ viewport_ok (viewport_w r)
  /\ viewport_ok (viewport_h r)
  /\ ip_address r <> "".

(** What the schema promises of a parsed body. *)
Definition device_ok (dv : device) : Prop :=
  match d_ua dv with Some s => len s <= 512 | None => True end
  /\ match width dv with Some z => 1 <= z <= 20000 | None => True end
  /\ match height dv with Some z => 1 <= z <= 20000 | None => True end.

Definition nonneg_or_absent (x : option Z) : Prop :=
  match x with
  | Some z => 0 <= z
  | None => True
  end.

Definition parsed_ok (is_url : string -> bool) (ev : track_event) : Prop :=
  8 <= len (trackerId ev) <= 64
  /\ (0 <= scrollDepth ev <= 100)%Q
  /\ is_url (pageUrl ev) = true
  /\ 1 <= timestamp ev
  /\ nonneg_or_absent (timeOnPage ev)
  /\ nonneg_or_absent (totalTimeOnPage ev)
  /\ match maxScrollDepth ev with Some q => (0 <= q <= 100)%Q | None => True end
  /\ nonneg_or_absent (scrollEvents ev)
  /\ match engagement_data ev with
     | Some e =>
         0 <= e_timeOnPage e /\ (0 <= e_maxDepth e <= 100)%Q
         /\ 0 <= e_scrollEvents e /\ (0 <= e_avgScrollSpeed e)%Q
     | None => True
     end
  /\ match device_data ev with Some dv => device_ok dv | None => True end.

(** A store that has the tracker of [sample_body]; the properties of a
    body whose depth is out of range; and a body whose time is beyond the
    range of dates. *)
Definition own_db : db := {| trackers := ["abcd1234"]; scroll_events := [] |}.

Definition deep_props : list (string * json) :=
  [("trackerId", JStr "abcd1234"); ("scrollDepth", JNum 150);
   ("pageUrl", JStr "https://example.com"); ("timestamp", JNum 1700000000000)].

Definition late_body : json :=
  JObj [("trackerId", JStr "abcd1234"); ("scrollDepth", JNum 50);
        ("pageUrl", JStr "https://example.com"); ("timestamp", JNum 9000000000000000)].

Definition request_of (j : json) : request :=
  {| origin := Some "https://example.com"; x_forwarded_for := None;
     x_real_ip := Some "10.0.0.2"; json_body := Some j |}.

End TrackRows.

(** * Properties

    ** Rounding to binary64 *)

Module JsNumberFacts.
Import JsNumber.
Local Open Scope Q_scope.

(** Powers of two. *)
Lemma pow2_pos (e : Z) : 0 < 2 ^ e.
Proof. apply Qpower_0_lt. reflexivity. Qed.

Lemma pow2_add (a b : Z) : 2 ^ (a + b) == 2 ^ a * 2 ^ b.
Proof. apply Qpower_plus. discriminate. Qed.

Lemma pow2_le (a b : Z) : (a <= b)%Z -> 2 ^ a <= 2 ^ b.
Proof. intros H. apply Qpower_le_compat_l; [exact H | discriminate]. Qed.

Lemma pow2_lt (a b : Z) : (a < b)%Z -> 2 ^ a < 2 ^ b.
Proof. intros H. apply Qpower_lt_compat_l; [exact H | reflexivity]. Qed.

Lemma pow2_lt_inv (a b : Z) : 2 ^ a < 2 ^ b -> (a < b)%Z.
Proof.
  intros H. destruct (Z_lt_le_dec a b) as [L | L]; [exact L | ].
  apply pow2_le in L. lra.
Qed.

Lemma pow2_inject (k : Z) : (0 <= k)%Z -> inject_Z (2 ^ k) == 2 ^ k.
Proof. intros H. apply (Zpower_Qpower 2 k H). Qed.

Lemma pow2_succ (a : Z) : 2 ^ (a + 1) == 2 * 2 ^ a.
Proof. rewrite pow2_add. change (2 ^ 1) with 2. ring. Qed.

Lemma Qmul_lt_cancel (a b c : Q) : 0 < c -> a * c < b * c -> a < b.
Proof. intros Hc H. apply (Qmult_lt_r a b c Hc). exact H. Qed.

Lemma Qmul_le_cancel (a b c : Q) : 0 < c -> a * c <= b * c -> a <= b.
Proof. intros Hc H. apply (Qmult_le_r a b c Hc). exact H. Qed.

(** [ilog2 x] is the exponent of the binade of [x]. *)
Lemma ilog2_spec (x : Q) : 0 < x -> 2 ^ ilog2 x <= x /\ x < 2 ^ (ilog2 x + 1).
Proof.
  intros Hx. unfold ilog2.
  assert (Hn : (0 < Qnum x)%Z).
  { unfold Qlt in Hx. simpl in Hx. lia. }
  destruct (Z.log2_spec (Qnum x) Hn) as [N1 N2].
  destruct (Z.log2_spec (Zpos (Qden x)) (Pos2Z.is_pos _)) as [D1 D2].
  set (ln := Z.log2 (Qnum x)) in *.
  set (ld := Z.log2 (Zpos (Qden x))) in *.
  assert (Ln : (0 <= ln)%Z) by apply Z.log2_nonneg.
  assert (Ld : (0 <= ld)%Z) by apply Z.log2_nonneg.
  assert (Hxd : x * inject_Z (Zpos (Qden x)) == inject_Z (Qnum x)).
  { destruct x as [n d]. simpl. unfold Qeq, Qmult, inject_Z. simpl. lia. }
  set (N := inject_Z (Qnum x)) in *.
  set (D := inject_Z (Zpos (Qden x))) in *.
  assert (A1 : 2 ^ ln <= N).
  { rewrite <- pow2_inject by lia. unfold N. rewrite <- Zle_Qle. exact N1. }
  assert (A2 : N < 2 * 2 ^ ln).
  { rewrite <- pow2_succ. rewrite <- pow2_inject by lia. unfold N.
    rewrite <- Zlt_Qlt. replace (ln + 1)%Z with (Z.succ ln) by lia. exact N2. }
  assert (B1 : 2 ^ ld <= D).
  { rewrite <- pow2_inject by lia. unfold D. rewrite <- Zle_Qle. exact D1. }
  assert (B2 : D < 2 * 2 ^ ld).
  { rewrite <- pow2_succ. rewrite <- pow2_inject by lia. unfold D.
    rewrite <- Zlt_Qlt. replace (ld + 1)%Z with (Z.succ ld) by lia. exact D2. }
  assert (E : 2 ^ (ln - ld) * 2 ^ ld == 2 ^ ln).
  { rewrite <- pow2_add. replace (ln - ld + ld)%Z with ln by lia. reflexivity. }
  pose proof (pow2_pos ln) as Pa. pose proof (pow2_pos ld) as Pb.
  pose proof (pow2_pos (ln - ld)) as Pl.
  assert (PD : 0 < D) by lra.
  set (A := 2 ^ ln) in *. set (B := 2 ^ ld) in *. set (L := 2 ^ (ln - ld)) in *.
  destruct (Qle_bool L x) eqn:T.
  - apply Qle_bool_iff in T. split; [exact T | ].
    rewrite pow2_succ. fold L.
    apply (Qmul_lt_cancel _ _ (D * B)); [nra | ].
    assert (X : x * (D * B) == N * B) by (rewrite <- Hxd; ring); rewrite X; clear X.
    assert (X : 2 * L * (D * B) == 2 * A * D) by (rewrite <- E; ring); rewrite X; clear X.
    nra.
  - assert (T' : x < L).
    { apply Qnot_le_lt. intros C. apply Qle_bool_iff in C. congruence. }
    replace (ln - ld - 1 + 1)%Z with (ln - ld)%Z by lia. fold L.
    split; [ | exact T'].
    assert (E2 : 2 * 2 ^ (ln - ld - 1) == L).
    { rewrite <- pow2_succ. replace (ln - ld - 1 + 1)%Z with (ln - ld)%Z by lia.
      reflexivity. }
    pose proof (pow2_pos (ln - ld - 1)) as Pm.
    set (M := 2 ^ (ln - ld - 1)) in *.
    apply (Qmul_le_cancel _ _ (D * (2 * B))); [nra | ].
    assert (X : x * (D * (2 * B)) == 2 * N * B) by (rewrite <- Hxd; ring); rewrite X; clear X.
    assert (X : M * (D * (2 * B)) == A * D) by (rewrite <- E, <- E2; ring); rewrite X; clear X.
    nra.
Qed.

Lemma ilog2_mono (x y : Q) : 0 < x -> x <= y -> (ilog2 x <= ilog2 y)%Z.
Proof.
  intros Hx Hxy. destruct (ilog2_spec x Hx) as [S1 _].
  destruct (ilog2_spec y ltac:(lra)) as [_ S2].
  assert (ilog2 x < ilog2 y + 1)%Z by (apply pow2_lt_inv; lra).
  lia.
Qed.

#[local] Instance rne_comp : Proper (Qeq ==> eq) rne.
Proof.
  intros x y E. unfold rne. rewrite (Qfloor_comp x y E).
  assert (E' : x - inject_Z (Qfloor y) == y - inject_Z (Qfloor y)) by (rewrite E; reflexivity).
  rewrite (Qcompare_comp _ _ E' (1 # 2) (1 # 2) (Qeq_refl _)). reflexivity.
Qed.

(** [rne x] is within one half of [x], and [rne] is monotone. *)
Lemma rne_bounds (x : Q) :
  inject_Z (rne x) - (1 # 2) <= x /\ x <= inject_Z (rne x) + (1 # 2).
Proof.
  unfold rne. pose proof (Qfloor_le x) as F1. pose proof (Qlt_floor x) as F2.
  rewrite inject_Z_plus in F2. change (inject_Z 1) with 1 in F2.
  destruct (Qcompare_spec (x - inject_Z (Qfloor x)) (1 # 2)) as [E | L | G].
  - destruct (Z.even (Qfloor x)).
    + lra.
    + rewrite inject_Z_plus. change (inject_Z 1) with 1. lra.
  - lra.
  - rewrite inject_Z_plus. change (inject_Z 1) with 1. lra.
Qed.

Lemma rne_mono (x y : Q) : x <= y -> (rne x <= rne y)%Z.
Proof.
  intros Hxy. destruct (Z_le_gt_dec (rne x) (rne y)) as [L | G]; [exact L | exfalso].
  destruct (rne_bounds x) as [X1 _]. destruct (rne_bounds y) as [_ Y2].
  assert (G' : inject_Z (rne y) + 1 <= inject_Z (rne x)).
  { change 1 with (inject_Z 1). rewrite <- inject_Z_plus. rewrite <- Zle_Qle. lia. }
  assert (E : x == y) by lra.
  rewrite (rne_comp x y E) in G. lia.
Qed.

Lemma rne_Z (z : Z) : rne (inject_Z z) = z.
Proof.
  unfold rne. rewrite Qfloor_Z.
  assert (Z0 : inject_Z z - inject_Z z == 0) by ring.
  destruct (Qcompare_spec (inject_Z z - inject_Z z) (1 # 2)) as [E | L | G].
  - rewrite Z0 in E. discriminate E.
  - reflexivity.
  - rewrite Z0 in G. discriminate G.
Qed.

Lemma ulp_exp_mono (x y : Q) : 0 < x -> x <= y -> (ulp_exp x <= ulp_exp y)%Z.
Proof.
  intros Hx Hxy. unfold ulp_exp. pose proof (ilog2_mono x y Hx Hxy). lia.
Qed.

(** A positive number scaled by its unit in the last place is below
    [2 ^ 53]; a normal one is at least [2 ^ 52]. *)
Lemma scaled_lt (x : Q) : 0 < x -> x / 2 ^ ulp_exp x < 2 ^ 53.
Proof.
  intros Hx. destruct (ilog2_spec x Hx) as [_ S2].
  pose proof (pow2_pos (ulp_exp x)) as P.
  apply Qlt_shift_div_r; [exact P | ].
  rewrite <- pow2_add.
  eapply Qlt_le_trans; [exact S2 | ].
  apply pow2_le. unfold ulp_exp, prec. lia.
Qed.

Lemma scaled_ge (x : Q) :
  0 < x -> (emin <= ilog2 x - 52)%Z -> 2 ^ 52 <= x / 2 ^ ulp_exp x.
Proof.
  intros Hx Hn. destruct (ilog2_spec x Hx) as [S1 _].
  pose proof (pow2_pos (ulp_exp x)) as P.
  apply Qle_shift_div_l; [exact P | ].
  rewrite <- pow2_add.
  eapply Qle_trans; [ | exact S1].
  apply pow2_le. unfold ulp_exp, prec. lia.
Qed.

Lemma rne_le_53 (x : Q) : 0 < x -> inject_Z (rne (x / 2 ^ ulp_exp x)) <= 2 ^ 53.
Proof.
  intros Hx.
  assert (U : (rne (x / 2 ^ ulp_exp x) <= rne (inject_Z (2 ^ 53)))%Z).
  { apply rne_mono. eapply Qle_trans; [apply Qlt_le_weak, scaled_lt, Hx | ].
    apply Qle_bool_iff. reflexivity. }
  rewrite rne_Z in U. rewrite Zle_Qle in U.
  eapply Qle_trans; [exact U | ]. apply Qle_bool_iff. reflexivity.
Qed.

Lemma rne_ge_52 (x : Q) :
  0 < x -> (emin <= ilog2 x - 52)%Z -> 2 ^ 52 <= inject_Z (rne (x / 2 ^ ulp_exp x)).
Proof.
  intros Hx Hn.
  assert (V : (rne (inject_Z (2 ^ 52)) <= rne (x / 2 ^ ulp_exp x))%Z).
  { apply rne_mono. eapply Qle_trans; [ | apply scaled_ge; assumption].
    apply Qle_bool_iff. reflexivity. }
  rewrite rne_Z in V. rewrite Zle_Qle in V.
  eapply Qle_trans; [ | exact V]. apply Qle_bool_iff. reflexivity.
Qed.

Lemma round_pos_nonneg (x : Q) : 0 < x -> 0 <= round_pos x.
Proof.
  intros Hx. unfold round_pos.
  pose proof (pow2_pos (ulp_exp x)) as P.
  apply Qmult_le_0_compat; [ | lra].
  change 0 with (inject_Z 0). rewrite <- Zle_Qle.
  rewrite <- (rne_Z 0). apply rne_mono. change (inject_Z 0) with 0.
  apply Qle_shift_div_l; [exact P | lra].
Qed.

(** Monotone within a binade by [rne_mono]; across binades because the
    scaled significand stays between [2 ^ 52] and [2 ^ 53]. *)
Lemma round_pos_mono (x y : Q) : 0 < x -> x <= y -> round_pos x <= round_pos y.
Proof.
  intros Hx Hxy. assert (Hy : 0 < y) by lra.
  pose proof (ulp_exp_mono x y Hx Hxy) as He.
  unfold round_pos.
  pose proof (pow2_pos (ulp_exp x)) as Px. pose proof (pow2_pos (ulp_exp y)) as Py.
  destruct (Z.eq_dec (ulp_exp x) (ulp_exp y)) as [E | NE].
  - rewrite E. apply Qmult_le_compat_r; [ | lra].
    rewrite <- Zle_Qle. apply rne_mono.
    apply Qmult_le_compat_r; [exact Hxy | ].
    apply Qlt_le_weak, Qinv_lt_0_compat, Py.
  - assert (Lt : (ulp_exp x + 1 <= ulp_exp y)%Z) by lia.
    assert (Hn : (emin <= ilog2 y - 52)%Z).
    { unfold ulp_exp, prec in *. lia. }
    pose proof (rne_le_53 x Hx) as U.
    pose proof (rne_ge_52 y Hy Hn) as V.
    apply Qle_trans with (2 ^ 53 * 2 ^ ulp_exp x).
    { apply Qmult_le_compat_r; [exact U | lra]. }
    apply Qle_trans with (2 ^ 52 * 2 ^ ulp_exp y).
    { rewrite <- !pow2_add. apply pow2_le. lia. }
    apply Qmult_le_compat_r; [exact V | lra].
Qed.

Lemma b64_pos (x : Q) : 0 < x -> b64 x = round_pos x.
Proof.
  intros Hx. unfold b64. destruct x as [[ | p | p] d]; simpl.
  - discriminate Hx.
  - reflexivity.
  - discriminate Hx.
Qed.

Lemma b64_zero (x : Q) : x == 0 -> b64 x = 0.
Proof.
  intros Hx. unfold b64. destruct x as [[ | p | p] d]; simpl.
  - reflexivity.
  - discriminate Hx.
  - discriminate Hx.
Qed.

Lemma b64_nonneg (x : Q) : 0 <= x -> 0 <= b64 x.
Proof.
  intros Hx. destruct (Qlt_le_dec 0 x) as [P | N].
  - rewrite (b64_pos x P). apply round_pos_nonneg, P.
  - rewrite (b64_zero x) by lra. lra.
Qed.

(** Rounding to binary64 is monotone (on the non-negative numbers, which
    is where the aggregation uses it). *)
Lemma b64_mono (x y : Q) : 0 <= x -> x <= y -> b64 x <= b64 y.
Proof.
  intros Hx Hxy. destruct (Qlt_le_dec 0 x) as [P | N].
  - rewrite (b64_pos x P), (b64_pos y) by lra. apply round_pos_mono; assumption.
  - rewrite (b64_zero x) by lra. apply b64_nonneg. lra.
Qed.

(** A number in the normal range is rounded with a relative error of at
    most [2 ^ -53]. *)
Lemma b64_error (x : Q) :
  2 ^ (-1022) <= x ->
  x - x * 2 ^ (-53) <= b64 x /\ b64 x <= x + x * 2 ^ (-53).
Proof.
  intros Hn. pose proof (pow2_pos (-1022)) as P0.
  assert (Hx : 0 < x) by lra.
  rewrite (b64_pos x Hx). unfold round_pos.
  destruct (ilog2_spec x Hx) as [S1 S2].
  assert (Hl : (-1022 <= ilog2 x)%Z).
  { assert (-1022 < ilog2 x + 1)%Z by (apply pow2_lt_inv; lra). lia. }
  assert (He : ulp_exp x = (ilog2 x - 52)%Z).
  { unfold ulp_exp, prec, emin. lia. }
  pose proof (pow2_pos (ulp_exp x)) as Pe.
  destruct (rne_bounds (x / 2 ^ ulp_exp x)) as [R1 R2].
  set (r := inject_Z (rne (x / 2 ^ ulp_exp x))) in *.
  set (u := 2 ^ ulp_exp x) in *.
  assert (Hs : x / u * u == x) by (field; lra).
  assert (Hu : u <= 2 * (x * 2 ^ (-53))).
  { assert (X : 2 * 2 ^ (-53) * 2 ^ (ilog2 x) == u).
    { unfold u. rewrite He. rewrite <- pow2_succ, <- pow2_add.
      replace (-53 + 1 + ilog2 x)%Z with (ilog2 x - 52)%Z by lia. reflexivity. }
    pose proof (pow2_pos (-53)) as P53. nra. }
  split; nra.
Qed.

Lemma b64_nonpos (x : Q) : x <= 0 -> b64 x <= 0.
Proof.
  intros Hx. unfold b64. destruct x as [[ | p | p] d] eqn:E; cbn [Qnum].
  - lra.
  - exfalso. unfold Qle in Hx. simpl in Hx. lia.
  - assert (P : 0 < - (Z.neg p # d)) by reflexivity.
    pose proof (round_pos_nonneg _ P). lra.
Qed.

Lemma Math_round_mono (x y : Q) : x <= y -> (Math_round x <= Math_round y)%Z.
Proof. intros H. unfold Math_round. apply Qfloor_resp_le. lra. Qed.

Lemma Math_round_nonneg (x : Q) : 0 <= x -> (0 <= Math_round x)%Z.
Proof.
  intros H. unfold Math_round. change 0%Z with (Qfloor 0). apply Qfloor_resp_le. lra.
Qed.

(** The rounding of this file against the IEEE-754 operations of the
    Standard Library, on every ratio [c / t] with [0 <= c <= t <= 65]. *)
Lemma b64_agrees_with_SpecFloat : agree_upto 64 = true.
Proof. vm_compute. reflexivity. Qed.

Lemma Math_round_nonpos (x : Q) : x <= 0 -> (Math_round x <= 0)%Z.
Proof.
  intros H. unfold Math_round. change 0%Z with (Qfloor (1 # 2)). apply Qfloor_resp_le. lra.
Qed.

End JsNumberFacts.

(** ** Percentages *)

Module PercentFacts.
Import JsNumber JsNumberFacts Dashboard.
Local Open Scope Q_scope.

Lemma div_nonneg (c t : Z) : (0 <= c)%Z -> (0 < t)%Z -> 0 <= inject_Z c / inject_Z t.
Proof.
  intros Hc Ht. apply Qle_shift_div_l.
  - change 0 with (inject_Z 0). rewrite <- Zlt_Qlt. exact Ht.
  - rewrite Qmult_0_l. change 0 with (inject_Z 0). rewrite <- Zle_Qle. exact Hc.
Qed.

Lemma div_le (c1 c2 t : Z) :
  (c1 <= c2)%Z -> (0 < t)%Z -> inject_Z c1 / inject_Z t <= inject_Z c2 / inject_Z t.
Proof.
  intros Hc Ht. apply Qmult_le_compat_r.
  - rewrite <- Zle_Qle. exact Hc.
  - apply Qlt_le_weak, Qinv_lt_0_compat.
    change 0 with (inject_Z 0). rewrite <- Zlt_Qlt. exact Ht.
Qed.

(** [percent] is monotone in the count. *)
Lemma percent_mono (c1 c2 t : Z) :
  (0 <= c1)%Z -> (c1 <= c2)%Z -> (0 < t)%Z -> (percent c1 t <= percent c2 t)%Z.
Proof.
  intros H0 Hc Ht. unfold percent, js_mul, js_div.
  pose proof (div_nonneg c1 t H0 Ht) as N.
  pose proof (div_le c1 c2 t Hc Ht) as L.
  pose proof (b64_nonneg _ N) as N1.
  pose proof (b64_mono _ _ N L) as L1.
  apply Math_round_mono. apply b64_mono; lra.
Qed.

Lemma percent_0 (t : Z) : percent 0 t = 0%Z.
Proof.
  unfold percent, js_mul, js_div.
  rewrite (b64_zero (inject_Z 0 / inject_Z t)).
  - reflexivity.
  - unfold Qdiv. change (inject_Z 0) with 0. ring.
Qed.

(** The error of the two roundings is too small to move the result past
    an integer. *)
Lemma percent_nearest_Z (c t : Z) :
  (0 <= c <= t)%Z -> (1 <= t < 2 ^ 32)%Z ->
  (Z.abs (2 * t * percent c t - 200 * c) <= t)%Z.
Proof.
  intros Hc Ht.
  destruct (Z.eq_dec c 0%Z) as [-> | Hne].
  { rewrite percent_0. lia. }
  unfold percent, js_mul, js_div, Math_round.
  set (T := inject_Z t). set (C := inject_Z c).
  assert (HT1 : 1 <= T).
  { change 1 with (inject_Z 1). unfold T. rewrite <- Zle_Qle. lia. }
  assert (HT2 : T <= 2 ^ 32).
  { apply Qle_trans with (inject_Z (2 ^ 32)); [ | apply Qle_bool_iff; reflexivity].
    unfold T. rewrite <- Zle_Qle. lia. }
  assert (HC1 : 1 <= C).
  { change 1 with (inject_Z 1). unfold C. rewrite <- Zle_Qle. lia. }
  assert (HC2 : C <= T).
  { unfold C, T. rewrite <- Zle_Qle. lia. }
  set (x := C / T).
  assert (Hx : x * T == C) by (unfold x; field; lra).
  assert (E32 : 2 ^ 32 * 2 ^ (-32) == 1) by reflexivity.
  assert (E53 : 2 ^ 53 * 2 ^ (-53) == 1) by reflexivity.
  pose proof (pow2_pos (-32)) as P32. pose proof (pow2_pos (-53)) as P53.
  pose proof (pow2_pos 32) as Q32. pose proof (pow2_pos 53) as Q53.
  assert (L1022 : 2 ^ (-1022) <= 2 ^ (-33)) by (apply pow2_le; lia).
  assert (E33 : 2 * 2 ^ (-33) == 2 ^ (-32)) by reflexivity.
  pose proof (pow2_pos (-33)) as P33.
  assert (L53 : 2 ^ (-53) <= 2 ^ (-33)) by (apply pow2_le; lia).
  assert (L33 : 2 ^ (-33) <= 1 # 2) by (apply Qle_bool_iff; reflexivity).
  assert (Hx1 : 2 ^ (-32) <= x).
  { apply (Qmul_le_cancel _ _ (T * 2 ^ 32)); [nra | ].
    assert (X : 2 ^ (-32) * (T * 2 ^ 32) == T) by (rewrite <- (Qmult_1_r T) at 2; rewrite <- E32; ring).
    rewrite X. clear X.
    assert (X : x * (T * 2 ^ 32) == C * 2 ^ 32) by (rewrite <- Hx; ring).
    rewrite X. clear X. nra. }
  assert (Hx2 : x <= 1).
  { apply (Qmul_le_cancel _ _ T); [lra | ]. rewrite Hx. lra. }
  destruct (b64_error x ltac:(lra)) as [A1 A2].
  set (x1 := b64 x) in *.
  assert (Hy : 2 ^ (-1022) <= x1 * 100) by nra.
  destruct (b64_error (x1 * 100) Hy) as [B1 B2].
  set (x2 := b64 (x1 * 100)) in *.
  pose proof (Qfloor_le (x2 + (1 # 2))) as F1.
  pose proof (Qlt_floor (x2 + (1 # 2))) as F2.
  rewrite inject_Z_plus in F2. change (inject_Z 1) with 1 in F2.
  set (p := Qfloor (x2 + (1 # 2))) in *.
  set (P := inject_Z p) in *.
  set (eps := 2 ^ (-53)) in *.
  assert (Heps : 1000 * 2 ^ 32 * eps <= 1).
  { unfold eps. apply Qle_bool_iff. reflexivity. }
  assert (D1 : x2 <= 100 * x + 300 * eps) by nra.
  assert (D2 : 100 * x - 300 * eps <= x2) by nra.
  assert (U : 2 * T * P < 200 * C + T + 1).
  { rewrite <- Hx. nra. }
  assert (V : 200 * C - T - 1 < 2 * T * P).
  { rewrite <- Hx. nra. }
  assert (UZ : (2 * t * p < 200 * c + t + 1)%Z).
  { rewrite Zlt_Qlt. rewrite !inject_Z_plus, !inject_Z_mult. exact U. }
  assert (VZ : (200 * c - t - 1 < 2 * t * p)%Z).
  { assert (V' : 200 * C + - T + - (1) < 2 * T * P) by lra.
    rewrite Zlt_Qlt. unfold Z.sub. rewrite !inject_Z_plus, !inject_Z_mult, !inject_Z_opp.
    exact V'. }
  lia.
Qed.

End PercentFacts.

(** ** Milestone statistics *)

Module MilestoneFacts.
Import JsNumber JsNumberFacts Dashboard PercentFacts.
Local Open Scope Z_scope.

Lemma percent_nearest (c t : Z) :
  0 <= c <= t -> 1 <= t < 2 ^ 32 ->
  nearest_integer (percent c t) (inject_Z c / inject_Z t * 100).
Proof.
  intros Hc Ht. pose proof (percent_nearest_Z c t Hc Ht) as H.
  set (p := percent c t) in *.
  unfold nearest_integer. apply Qabs_Qle_condition.
  assert (HT : (0 < inject_Z t)%Q).
  { change 0%Q with (inject_Z 0). rewrite <- Zlt_Qlt. lia. }
  assert (Hx : (inject_Z c / inject_Z t * inject_Z t == inject_Z c)%Q) by (field; lra).
  assert (U : (2 * inject_Z t * inject_Z p <= 200 * inject_Z c + inject_Z t)%Q).
  { assert (UZ : 2 * t * p <= 200 * c + t) by lia.
    rewrite Zle_Qle in UZ. rewrite !inject_Z_plus, !inject_Z_mult in UZ. exact UZ. }
  assert (V : (200 * inject_Z c <= 2 * inject_Z t * inject_Z p + inject_Z t)%Q).
  { assert (VZ : 200 * c <= 2 * t * p + t) by lia.
    rewrite Zle_Qle in VZ. rewrite !inject_Z_plus, !inject_Z_mult in VZ. exact VZ. }
  rewrite <- Hx in U, V.
  set (x := (inject_Z c / inject_Z t)%Q) in *.
  set (T := inject_Z t) in *. set (P := inject_Z p) in *.
  clearbody x T P. clear Hx H. clearbody p.
  split.
  - apply (Qmul_le_cancel _ _ (2 * T)); [lra | ]. lra.
  - apply (Qmul_le_cancel _ _ (2 * T)); [lra | ]. lra.
Qed.

(** A tie can go either way: 29 of 200 is 14.5 per cent, the product
    computed in binary64 is 14.499999999999998, and the percentage is 14;
    1 of 8 is 12.5 per cent exactly, and the percentage is 13. *)
Example percent_29_of_200 : percent 29 200 = 14 /\ percent 1 8 = 13.
Proof. split; reflexivity. Qed.

Lemma count_ge_bounds (events : list event) (m : Z) :
  0 <= count_ge events m <= Z.of_nat (length events).
Proof.
  unfold count_ge. pose proof (filter_length_le (fun e => m <=? scroll_depth e) events). lia.
Qed.

Lemma count_ge_antitone (events : list event) (m1 m2 : Z) :
  m1 <= m2 -> count_ge events m2 <= count_ge events m1.
Proof.
  intros Hm. unfold count_ge. apply Nat2Z.inj_le.
  induction events as [ | e events IH]; simpl; [lia | ].
  destruct (m2 <=? scroll_depth e) eqn:E2.
  - apply Z.leb_le in E2. assert (E1 : (m1 <=? scroll_depth e) = true) by (apply Z.leb_le; lia).
    rewrite E1. simpl. lia.
  - destruct (m1 <=? scroll_depth e); simpl; lia.
Qed.

Lemma len_or_1_pos (n : Z) : 0 <= n -> 0 < len_or_1 n.
Proof. intros H. unfold len_or_1. destruct (n =? 0) eqn:E; lia. Qed.

Lemma perc_antitone (events : list event) (m1 m2 : Z) :
  m1 <= m2 -> perc events m2 <= perc events m1.
Proof.
  intros Hm. unfold perc. apply percent_mono.
  - apply count_ge_bounds.
  - apply count_ge_antitone, Hm.
  - apply len_or_1_pos. lia.
Qed.

(** C1. For each of the four milestones the percentage of [milestoneStats]
    is the number that [perc] computes, by a division whose divisor
    [events.length || 1] is the number of events, and 1 for the empty set,
    never 0; it is an integer nearest to [count / total * 100], where
    [count] is the number of events whose depth is at least the milestone;
    and the empty set gives 0 everywhere.  (An array has fewer than
    [2 ^ 32] elements.) *)
Theorem milestoneStats_percentages (events : list event) :
  Z.of_nat (length events) < 2 ^ 32 ->
  let s := milestoneStats events in
  let n := Z.of_nat (length events) in
  let reached m :=
    Z.of_nat (length (List.filter (fun e => m <=? scroll_depth e) events)) in
  total s = n
  /\ len_or_1 n = Z.max n 1
  /\ Forall2
       (fun m p =>
          perc_number events m = Some p
          /\ nearest_integer p (inject_Z (reached m) / inject_Z (Z.max n 1) * 100))
       [25; 50; 75; 100] [p25 s; p50 s; p75 s; p100 s]
  /\ (events = [] -> p25 s = 0 /\ p50 s = 0 /\ p75 s = 0 /\ p100 s = 0).
Proof.
  intros Hn s n reached.
  assert (Hl : len_or_1 n = Z.max n 1).
  { unfold len_or_1, n. destruct (Z.eqb_spec (Z.of_nat (length events)) 0); lia. }
  assert (Hd : 1 <= Z.max n 1 < 2 ^ 32) by (unfold n; lia).
  assert (Hc : forall m, 0 <= reached m <= Z.max n 1).
  { intros m. unfold reached, n.
    pose proof (filter_length_le (fun e => m <=? scroll_depth e) events). lia. }
  assert (P : forall m,
             perc_number events m = Some (perc events m)
             /\ nearest_integer (perc events m)
                  (inject_Z (reached m) / inject_Z (Z.max n 1) * 100)).
  { intros m. split.
    - unfold perc_number, perc, js_quotient. fold n. rewrite Hl.
      destruct (Qeq_bool (inject_Z (Z.max n 1)) 0) eqn:E; [ | reflexivity].
      apply Qeq_bool_iff in E. change 0%Q with (inject_Z 0) in E.
      apply (proj1 (inject_Z_injective _ _)) in E. lia.
    - unfold perc. fold n. rewrite Hl.
      change (count_ge events m) with (reached m).
      apply percent_nearest; [apply Hc | exact Hd]. }
  split; [reflexivity | ]. split; [exact Hl | ]. split.
  - constructor; [apply P | ]. constructor; [apply P | ].
    constructor; [apply P | ]. constructor; [apply P | constructor].
  - intros ->. repeat split; reflexivity.
Qed.

Lemma milestoneStats_percentages_witness :
  let events := [event_at 20; event_at 60; event_at 100] in
  let s := milestoneStats events in
  let reached m :=
    Z.of_nat (length (List.filter (fun e => m <=? scroll_depth e) events)) in
  total s = 3
  /\ len_or_1 3 = Z.max 3 1
  /\ Forall2
       (fun m p =>
          perc_number events m = Some p
          /\ nearest_integer p (inject_Z (reached m) / inject_Z (Z.max 3 1) * 100))
       [25; 50; 75; 100] [p25 s; p50 s; p75 s; p100 s]
  /\ (events = [] -> p25 s = 0 /\ p50 s = 0 /\ p75 s = 0 /\ p100 s = 0).
Proof.
  apply (milestoneStats_percentages [event_at 20; event_at 60; event_at 100]).
  vm_compute. reflexivity.
Defined.

(** C2 as the specification has it: 66, 66, 33, 33. *)
Lemma milestoneStats_20_60_100_not_66 :
  milestoneStats [event_at 20; event_at 60; event_at 100]
  <> {| p25 := 66; p50 := 66; p75 := 33; p100 := 33; total := 3 |}.
Proof. vm_compute. discriminate. Qed.

(** C2, amended.  Three events at depths 20, 60 and 100 give 67, 67, 33 and
    33: two thirds is 66.67 per cent, which [Math.round] takes to 67. *)
Theorem milestoneStats_20_60_100 (e1 e2 e3 : event) :
  scroll_depth e1 = 20 -> scroll_depth e2 = 60 -> scroll_depth e3 = 100 ->
  milestoneStats [e1; e2; e3]
  = {| p25 := 67; p50 := 67; p75 := 33; p100 := 33; total := 3 |}.
Proof.
  intros H1 H2 H3. unfold milestoneStats, perc, count_ge. simpl List.filter.
  rewrite H1, H2, H3. vm_compute. reflexivity.
Qed.

Lemma milestoneStats_20_60_100_witness :
  milestoneStats [event_at 20; event_at 60; event_at 100]
  = {| p25 := 67; p50 := 67; p75 := 33; p100 := 33; total := 3 |}.
Proof.
  apply (milestoneStats_20_60_100 (event_at 20) (event_at 60) (event_at 100));
    reflexivity.
Defined.

(** C4. The milestone percentages do not increase with the milestone. *)
Theorem milestoneStats_monotone (events : list event) :
  let s := milestoneStats events in
  p100 s <= p75 s /\ p75 s <= p50 s /\ p50 s <= p25 s.
Proof.
  simpl. repeat split; apply perc_antitone; lia.
Qed.

End MilestoneFacts.

(** ** Device classification and device statistics *)

Module DeviceFacts.
Import JsString Dashboard.
Local Open Scope string_scope.
Local Open Scope Z_scope.

(** A fact about one code unit, checked on each of the 256. *)
Ltac each_unit c :=
  destruct c as [[ | ] [ | ] [ | ] [ | ] [ | ] [ | ] [ | ] [ | ]]; reflexivity.

Lemma eq_ci_lower_i (c : ascii) : eq_ci "i" (lower_unit c) = eq_ci "I" c.
Proof. each_unit c. Qed.

Lemma eq_ci_lower_p (c : ascii) : eq_ci "p" (lower_unit c) = eq_ci "P" c.
Proof. each_unit c. Qed.

Lemma eq_ci_lower_a (c : ascii) : eq_ci "a" (lower_unit c) = eq_ci "a" c.
Proof. each_unit c. Qed.

Lemma eq_ci_lower_d (c : ascii) : eq_ci "d" (lower_unit c) = eq_ci "d" c.
Proof. each_unit c. Qed.

(** Lower-casing the subject does not change where [/ipad/i] matches. *)
Lemma prefix_ipad_lower (s : string) :
  prefix_ci "ipad" (toLowerCase s) = prefix_ci "iPad" s.
Proof.
  destruct s as [ | c1 [ | c2 [ | c3 [ | c4 s]]]]; cbn [prefix_ci toLowerCase];
    rewrite ?eq_ci_lower_i, ?eq_ci_lower_p, ?eq_ci_lower_a, ?eq_ci_lower_d;
    try reflexivity.
Qed.

Lemma tablet_re_ipad (s : string) :
  contains_ci "iPad" s = true -> tablet_re (toLowerCase s) = true.
Proof.
  induction s as [ | c s IH].
  - discriminate.
  - intros H. cbn [contains_ci] in H. cbn [tablet_re toLowerCase].
    change (String (lower_unit c) (toLowerCase s)) with (toLowerCase (String c s)).
    rewrite prefix_ipad_lower.
    apply orb_true_iff in H. destruct H as [H | H].
    + rewrite H. reflexivity.
    + cbn [toLowerCase]. rewrite (IH H). rewrite !orb_true_r. reflexivity.
Qed.

(** C5. The classification is a function of its three arguments, and a
    user agent in which [iPad] occurs, in any case, is a tablet whatever
    the viewport. *)
Theorem getDeviceType_iPad (ua : string) (viewportW viewportH : Z) :
  (forall ua' w' h',
      ua' = ua -> w' = viewportW -> h' = viewportH ->
      getDeviceType ua' w' h' = getDeviceType ua viewportW viewportH)
  /\ (contains_ci "iPad" ua = true -> getDeviceType ua viewportW viewportH = "Tablet").
Proof.
  split.
  - intros ua' w' h' -> -> ->. reflexivity.
  - intros H. unfold getDeviceType.
    destruct (String.eqb_spec ua "") as [-> | _]; [discriminate H | ].
    rewrite (tablet_re_ipad ua H). reflexivity.
Qed.

Lemma getDeviceType_iPad_witness :
  getDeviceType "Mozilla/5.0 (IPAD; CPU OS 13_2 like Mac OS X)" 375 667 = "Tablet".
Proof.
  apply (getDeviceType_iPad "Mozilla/5.0 (IPAD; CPU OS 13_2 like Mac OS X)" 375 667).
  reflexivity.
Defined.

(** The device type is one of four capitalised names. *)
Lemma getDeviceType_cases (ua : string) (w h : Z) :
  getDeviceType ua w h = "Unknown" \/ getDeviceType ua w h = "Tablet"
  \/ getDeviceType ua w h = "Mobile" \/ getDeviceType ua w h = "Desktop".
Proof.
  unfold getDeviceType. destruct (ua =? "")%string; [auto | ].
  destruct (_ || _); [auto | ]. destruct (mobile_re _); auto.
Qed.

(** The three groups have lower-case keys, so no session is ever pushed. *)
Lemma group_session_none (session : event) :
  group_session empty_deviceGroups session = empty_deviceGroups.
Proof.
  unfold group_session.
  destruct (getDeviceType_cases (str_or (ua session) "") (num_or (viewport_w session) 0)
              (num_or (viewport_h session) 0)) as [-> | [-> | [-> | ->]]];
    reflexivity.
Qed.

Lemma deviceGroups_of_empty (sessionData : list event) :
  deviceGroups_of sessionData = empty_deviceGroups.
Proof.
  unfold deviceGroups_of. induction sessionData as [ | s l IH]; [reflexivity | ].
  simpl. rewrite group_session_none. exact IH.
Qed.

(** Whatever the events, the device statistics stay at their initial
    zeros. *)
Lemma deviceStats_zero (events : list event) :
  deviceStats (engagementStats events) = zero_deviceStats.
Proof.
  unfold engagementStats.
  destruct (Z.of_nat (length events) =? 0); [reflexivity | ].
  destruct (Z.of_nat (length _) =? 0); [reflexivity | ].
  cbn [deviceStats]. rewrite deviceGroups_of_empty. reflexivity.
Qed.

(** C3 fails on the code.  A single session from a desktop browser is a
    deduplicated session classified [Desktop], and the sessions total of
    the desktop class is 0: the groups are keyed [desktop], [mobile] and
    [tablet], the classification returns [Desktop], [Mobile] and [Tablet]. *)
Theorem desktop_session_not_counted :
  sessionData_of [desktop_session] = [desktop_session]
  /\ device_of desktop_session = "Desktop"
  /\ totalSessions (engagementStats [desktop_session]) = 1
  /\ sessions (stat_at (engagementStats [desktop_session]) "desktop") = 0.
Proof. vm_compute. repeat split; reflexivity. Qed.

End DeviceFacts.

(** ** Country assignment *)

Module CountryFacts.
Import JsString Dashboard.
Local Open Scope string_scope.
Local Open Scope Z_scope.

(** [has] is membership among the keys. *)
Lemma has_In {A} (m : list (string * A)) (k : string) :
  has m k = true <-> In k (map fst m).
Proof.
  unfold has. rewrite existsb_exists. split.
  - intros [kv [H1 H2]]. apply String.eqb_eq in H2. subst k. apply in_map, H1.
  - intros H. apply in_map_iff in H. destruct H as [kv [H1 H2]].
    exists kv. split; [exact H2 | ]. apply String.eqb_eq, H1.
Qed.

(** The [forEach] keeps the map well formed, keeps its keys, and enters
    every address it meets. *)
Lemma collect_users_ok (data : list visit) :
  forall acc res,
    users_ok acc -> collect_users data acc = Some res ->
    users_ok res
    /\ (forall a, In a (map fst acc) -> In a (map fst res))
    /\ (forall v a, In v data -> v_ip_address v = Some a -> In a (map fst res)).
Proof.
  induction data as [ | v data IH]; intros acc res Hacc Hres; simpl in Hres.
  - injection Hres as <-. repeat split; try apply Hacc; auto. intros v a [].
  - destruct (v_ip_address v) as [a | ] eqn:Ha; [ | discriminate].
    destruct (has acc a) eqn:Hh.
    + destruct (IH acc res Hacc Hres) as (R1 & R2 & R3).
      repeat split; try apply R1; auto.
      intros v' a' [<- | Hin] Hv'.
      * rewrite Ha in Hv'. injection Hv' as <-. apply R2, has_In, Hh.
      * eapply R3; eassumption.
    + assert (Hacc' : users_ok (acc ++ [(a, make_user a v)])).
      { destruct Hacc as [N F]. split.
        - rewrite map_app. simpl. apply List.NoDup_app.
          + exact N.
          + apply List.NoDup_cons; [intros [] | apply List.NoDup_nil].
          + intros x Hx [<- | []]. apply has_In in Hx. congruence.
        - apply Forall_app. split; [exact F | ].
          constructor; [ | constructor]. simpl. split; reflexivity. }
      destruct (IH _ res Hacc' Hres) as (R1 & R2 & R3).
      repeat split; try apply R1.
      * intros a' Hin. apply R2. rewrite map_app. apply in_or_app. left. exact Hin.
      * intros v' a' [<- | Hin] Hv'.
        -- rewrite Ha in Hv'. injection Hv' as <-. apply R2.
           rewrite map_app. apply in_or_app. right. left. reflexivity.
        -- eapply R3; eassumption.
Qed.

Lemma users_ok_ips (m : list (string * user)) :
  users_ok m -> map ip (values m) = map fst m.
Proof.
  intros [_ F]. unfold values. induction F as [ | kv m [H _] F IH]; [reflexivity | ].
  simpl. rewrite H, IH. reflexivity.
Qed.

Lemma users_ok_country (m : list (string * user)) (u : user) :
  users_ok m -> In u (values m) -> country u = code (assign_country (ip u)).
Proof.
  intros [_ F] Hin. unfold values in Hin. apply in_map_iff in Hin.
  destruct Hin as [kv [<- Hkv]]. rewrite List.Forall_forall in F.
  destruct (F kv Hkv) as [H1 H2]. rewrite H1. exact H2.
Qed.

Lemma to_int32_range (z : Z) : - 2 ^ 31 <= to_int32 z < 2 ^ 31.
Proof.
  unfold to_int32. pose proof (Z.mod_pos_bound (z + 2 ^ 31) (2 ^ 32) ltac:(lia)). lia.
Qed.

(** The hash is a signed 32-bit integer. *)
Lemma ipHash_int32 (a : string) : - 2 ^ 31 <= ipHash a < 2 ^ 31.
Proof.
  unfold ipHash. induction (list_ascii_of_string a) as [ | c l IH] using rev_ind.
  - simpl. lia.
  - rewrite fold_left_app. simpl. unfold hash_step. apply to_int32_range.
Qed.

Lemma random_of_range (a : string) : 0 <= random_of a < 100.
Proof.
  unfold random_of. pose proof (Z.abs_nonneg (ipHash a)).
  rewrite Z.rem_mod_nonneg by lia. apply Z.mod_pos_bound. lia.
Qed.

Lemma loadUserStats_ok (data : list visit) (users : list user) :
  loadUserStats data = Some users ->
  List.NoDup (map ip users)
  /\ (forall u, In u users -> country u = code (assign_country (ip u)))
  /\ (forall v a, In v data -> v_ip_address v = Some a -> In a (map ip users)).
Proof.
  unfold loadUserStats. intros H.
  destruct (collect_users data []) as [m | ] eqn:E; [ | discriminate].
  injection H as <-.
  assert (H0 : users_ok ([] : list (string * user))).
  { split; [apply List.NoDup_nil | constructor]. }
  destruct (collect_users_ok data [] m H0 E) as (R1 & _ & R3).
  rewrite (users_ok_ips m R1). repeat split.
  - apply R1.
  - intros u. apply users_ok_country, R1.
  - exact R3.
Qed.

(** C6. The country of an address is a function of the address alone (a
    signed 32-bit hash, its absolute value modulo 100, the selection in the
    table): in any two loaded sets an address has the same country code;
    and in one loaded set every address of the fetched rows has exactly one
    entry. *)
Theorem country_assignment_deterministic
    (data1 data2 : list visit) (users1 users2 : list user) :
  loadUserStats data1 = Some users1 ->
  loadUserStats data2 = Some users2 ->
  (forall u1 u2,
      In u1 users1 -> In u2 users2 -> ip u1 = ip u2 -> country u1 = country u2)
  /\ (forall u,
        In u users1 ->
        - 2 ^ 31 <= ipHash (ip u) < 2 ^ 31
        /\ 0 <= random_of (ip u) < 100
        /\ country u = code (fst (select_country (random_of (ip u)))))
  /\ List.NoDup (map ip users1)
  /\ (forall v a, In v data1 -> v_ip_address v = Some a -> In a (map ip users1)).
Proof.
  intros H1 H2.
  destruct (loadUserStats_ok data1 users1 H1) as (N1 & C1 & I1).
  destruct (loadUserStats_ok data2 users2 H2) as (_ & C2 & _).
  split; [ | split; [ | split; assumption]].
  - intros u1 u2 Hu1 Hu2 E. rewrite (C1 u1 Hu1), (C2 u2 Hu2), E. reflexivity.
  - intros u Hu. split; [apply ipHash_int32 | ]. split; [apply random_of_range | ].
    apply C1, Hu.
Qed.

Lemma country_assignment_deterministic_witness :
  let data1 := [visit_from "10.0.0.1"; visit_from "10.0.0.40"; visit_from "10.0.0.1"] in
  let data2 := [visit_from "10.0.0.40"] in
  exists users1 users2,
    loadUserStats data1 = Some users1 /\ loadUserStats data2 = Some users2
    /\ (forall u1 u2,
          In u1 users1 -> In u2 users2 -> ip u1 = ip u2 -> country u1 = country u2)
    /\ List.NoDup (map ip users1).
Proof.
  intros data1 data2.
  destruct (loadUserStats data1) as [users1 | ] eqn:E1; [ | discriminate E1].
  destruct (loadUserStats data2) as [users2 | ] eqn:E2; [ | discriminate E2].
  exists users1, users2.
  destruct (country_assignment_deterministic data1 data2 users1 users2 E1 E2)
    as (H1 & _ & H2 & _).
  split; [reflexivity | ]. split; [reflexivity | ]. split; assumption.
Defined.

(** From 96 on, no cumulative weight exceeds the residue. *)
Lemma select_country_default (r : Z) : 96 <= r -> select_country r = (countries_0, false).
Proof.
  intros H. unfold select_country, countries. cbn [select_loop weight].
  repeat match goal with
         | |- context [?a <? ?b] => let E := fresh in
             destruct (Z.ltb_spec a b) as [E | E]; [exfalso; clear - H E; lia | clear E]
         end.
  reflexivity.
Qed.

(** C10. The weights add up to 96.  For a hash residue of 96 to 99 the
    loop ends without a [break] and the address keeps the initial entry,
    [US]; so [US] is the country of 24 of the 100 residues. *)
Theorem weights_sum_to_96 :
  fold_right Z.add 0 (map weight countries) = 96
  /\ length countries = 10%nat
  /\ code countries_0 = "US" /\ weight countries_0 = 20
  /\ (forall r, 96 <= r < 100 -> select_country r = (countries_0, false))
  /\ (forall a,
        96 <= random_of a ->
        select_country (random_of a) = (countries_0, false)
        /\ code (assign_country a) = "US")
  /\ length (List.filter (fun r => String.eqb (code (fst (select_country r))) "US")
               (map Z.of_nat (seq 0 100))) = 24%nat.
Proof.
  split; [reflexivity | ]. split; [reflexivity | ]. split; [reflexivity | ].
  split; [reflexivity | ]. split; [ | split; [ | reflexivity]].
  - intros r [H _]. apply select_country_default, H.
  - intros a H. split; [apply select_country_default, H | ].
    unfold assign_country. rewrite (select_country_default _ H). reflexivity.
Qed.

Lemma weights_sum_to_96_witness :
  random_of "10.0.0.40" = 97
  /\ select_country 97 = (countries_0, false)
  /\ code (assign_country "10.0.0.40") = "US".
Proof.
  destruct weights_sum_to_96 as (_ & _ & _ & _ & H1 & H2 & _).
  split; [reflexivity | ]. split.
  - apply H1. lia.
  - apply (H2 "10.0.0.40"). vm_compute. discriminate.
Defined.

End CountryFacts.

(** ** Scroll depth *)

Module TrackerFacts.
Import JsNumber JsNumberFacts Tracker.
Local Open Scope Z_scope.

Lemma total_of_pos (d : dom) : 1 <= total_of d.
Proof. unfold total_of. lia. Qed.

(** The rounded ratio has the sign of [scrollTop]. *)
Lemma raw_depth_sign (d : dom) :
  let raw := Math_round (js_mul (js_div (scrollTop_of d) (inject_Z (total_of d))) 100) in
  ((0 <= scrollTop_of d)%Q -> 0 <= raw) /\ ((scrollTop_of d <= 0)%Q -> raw <= 0).
Proof.
  intros raw. unfold raw, js_mul, js_div.
  pose proof (total_of_pos d) as Ht.
  assert (HT : (0 < inject_Z (total_of d))%Q).
  { change 0%Q with (inject_Z 0). rewrite <- Zlt_Qlt. lia. }
  assert (HI : (0 < / inject_Z (total_of d))%Q) by (apply Qinv_lt_0_compat, HT).
  set (T := inject_Z (total_of d)) in *. set (x := scrollTop_of d) in *.
  split; intros Hx.
  - apply Math_round_nonneg.
    assert (A : (0 <= b64 (x / T))%Q) by (apply b64_nonneg; unfold Qdiv; nra).
    apply b64_nonneg. nra.
  - apply Math_round_nonpos.
    assert (A : (b64 (x / T) <= 0)%Q) by (apply b64_nonpos; unfold Qdiv; nra).
    apply b64_nonpos. nra.
Qed.

(** C7 as stated fails: nothing clamps the depth from below. *)
Lemma getScrollDepth_negative :
  getScrollDepth overscrolled = -5 /\ ~ (0 <= getScrollDepth overscrolled <= 100).
Proof. split; [vm_compute; reflexivity | vm_compute; intros [H _]; apply H; reflexivity]. Qed.

(** C7, amended.  The divisor is at least 1 and the depth is
    [min(100, round(scrollTop / total * 100))]: at most 100 always, at
    least 0 (hence the clamped value) when [scrollTop] is not negative, and
    at most 0 otherwise. *)
Theorem getScrollDepth_bounds (d : dom) :
  1 <= total_of d
  /\ getScrollDepth d <= 100
  /\ ((0 <= scrollTop_of d)%Q ->
      0 <= getScrollDepth d /\ getScrollDepth d = clamped_depth d)
  /\ ((scrollTop_of d <= 0)%Q -> getScrollDepth d <= 0).
Proof.
  destruct (raw_depth_sign d) as [P N].
  unfold getScrollDepth, clamped_depth.
  split; [apply total_of_pos | ]. split; [lia | ]. split.
  - intros H. specialize (P H). lia.
  - intros H. specialize (N H). lia.
Qed.

Lemma getScrollDepth_bounds_witness :
  0 <= getScrollDepth scrolled_down <= 100 /\ getScrollDepth scrolled_down = clamped_depth scrolled_down
  /\ getScrollDepth overscrolled <= 0.
Proof.
  destruct (getScrollDepth_bounds scrolled_down) as (_ & H1 & H2 & _).
  destruct (getScrollDepth_bounds overscrolled) as (_ & _ & _ & H3).
  assert (P : (0 <= scrollTop_of scrolled_down)%Q) by (vm_compute; discriminate).
  assert (N : (scrollTop_of overscrolled <= 0)%Q) by (vm_compute; discriminate).
  destruct (H2 P) as [H4 H5]. specialize (H3 N). repeat split; assumption.
Defined.

End TrackerFacts.

(** ** Milestone events *)

Module MilestoneEvents.
Import Tracker.
Local Open Scope Z_scope.

Section Run.

Variable TRACKER_ID : string.
Variable href : string.
Variable now : nat -> Z.

Local Abbreviation post := (post TRACKER_ID href now).
Local Abbreviation step := (step TRACKER_ID href now).
Local Abbreviation frame := (frame TRACKER_ID href now).
Local Abbreviation check_milestone := (check_milestone TRACKER_ID href now).
Local Abbreviation run := (run TRACKER_ID href now).
Local Abbreviation init := (init TRACKER_ID href now).

Lemma milestone_count_app (m : Z) (l1 l2 : list sent_event) :
  milestone_count m (l1 ++ l2) = milestone_count m l1 + milestone_count m l2.
Proof.
  unfold milestone_count. rewrite List.filter_app, length_app. lia.
Qed.

(** What one call of [post] appends. *)
Lemma post_sent (depth : Z) (ms : option Z) (s : state) :
  exists p, sent (post depth ms s) = sent s ++ [p] /\ milestone p = ms
            /\ (is_Some ms -> has_engagement (body p))
            /\ maxDepth (post depth ms s) = maxDepth s
            /\ fired (post depth ms s) = fired s
            /\ ticking (post depth ms s) = ticking s.
Proof.
  eexists. split; [reflexivity | ]. split; [reflexivity | ].
  split; [ | auto].
  intros [m ->]. unfold has_engagement. simpl. repeat split; eexists; reflexivity.
Qed.

Lemma count_single (m : Z) (p : sent_event) :
  milestone_count m [p] = one_if (bool_decide (milestone p = Some m)).
Proof.
  unfold milestone_count. simpl. destruct (bool_decide _); reflexivity.
Qed.

(** One turn of the loop over the milestones: [m] becomes settled for the
    new maximum, the other milestones are left as they were, and the log
    only grows. *)
Lemma one_if_leb_eq (m D D' : Z) : (m <= D <-> m <= D') -> one_if (m <=? D) = one_if (m <=? D').
Proof.
  intros H. destruct (Z.leb_spec m D), (Z.leb_spec m D'); try reflexivity; lia.
Qed.

Lemma settled_same (s : state) (m D D' : Z) :
  (m <= D <-> m <= D') -> settled s m D -> settled s m D'.
Proof.
  intros H (F & C & E). split; [ | split].
  - rewrite F. exact H.
  - rewrite C. apply one_if_leb_eq, H.
  - exact E.
Qed.

(** A post for the milestone [m] settles [m] and leaves the others. *)
Lemma fire_settles (s : state) (m D : Z) :
  settled s m D -> D < m -> m <= maxDepth s ->
  settled (post (maxDepth s) (Some m) (add_fired m s)) m (maxDepth s).
Proof.
  intros (F & C & E) HmD L.
  destruct (post_sent (maxDepth s) (Some m) (add_fired m s))
    as (p & Hs & Hm & He & _ & Hf & _).
  cbn [add_fired sent fired] in Hs, Hf.
  split; [ | split].
  - rewrite Hf. split; [intros _; exact L | intros _].
    apply elem_of_union. left. apply elem_of_singleton. reflexivity.
  - rewrite Hs, milestone_count_app, C, count_single, Hm.
    rewrite bool_decide_eq_true_2 by reflexivity. unfold one_if.
    destruct (Z.leb_spec m D), (Z.leb_spec m (maxDepth s)); lia.
  - intros q Hq Hqm. rewrite Hs in Hq. apply in_app_or in Hq.
    destruct Hq as [Hq | [<- | []]]; [apply E; assumption | ].
    apply He. eexists. reflexivity.
Qed.

Lemma fire_keeps (s : state) (m m' D' : Z) :
  m' <> m -> settled s m' D' ->
  settled (post (maxDepth s) (Some m) (add_fired m s)) m' D'.
Proof.
  intros Hne (F & C & E).
  destruct (post_sent (maxDepth s) (Some m) (add_fired m s))
    as (p & Hs & Hm & _ & _ & Hf & _).
  cbn [add_fired sent fired] in Hs, Hf.
  split; [ | split].
  - rewrite Hf, <- F, elem_of_union, elem_of_singleton. tauto.
  - rewrite Hs, milestone_count_app, C, count_single, Hm.
    rewrite bool_decide_eq_false_2 by congruence. unfold one_if at 2. lia.
  - intros q Hq Hqm. rewrite Hs in Hq. apply in_app_or in Hq.
    destruct Hq as [Hq | [<- | []]]; [apply E; assumption | congruence].
Qed.

(** One turn of the loop over the milestones: [m] becomes settled for the
    new maximum, the other milestones are left as they were, and the log
    only grows. *)
Lemma check_milestone_spec (s : state) (m D : Z) :
  D <= maxDepth s -> settled s m D ->
  let s' := check_milestone s m in
  maxDepth s' = maxDepth s
  /\ ticking s' = ticking s
  /\ settled s' m (maxDepth s)
  /\ (forall m' D', m' <> m -> settled s m' D' -> settled s' m' D')
  /\ (exists new, sent s' = sent s ++ new).
Proof.
  intros HD S. pose proof S as (F & _ & _). unfold check_milestone.
  destruct (Z.leb_spec m (maxDepth s)) as [L | L];
    [destruct (bool_decide_reflect (m ∈ fired s)) as [I | I] | ]; cbn [andb negb].
  - (* already fired *)
    assert (m <= D) by (apply F, I).
    split; [reflexivity | ]. split; [reflexivity | ]. split; [ | split].
    + apply (settled_same s m D); [lia | exact S].
    + intros m' D' _ S'. exact S'.
    + exists []. rewrite app_nil_r. reflexivity.
  - (* fires now *)
    assert (HmD : D < m).
    { destruct (Z_lt_le_dec D m) as [H | H]; [exact H | ]. exfalso. apply I, F, H. }
    destruct (post_sent (maxDepth s) (Some m) (add_fired m s))
      as (p & Hs & _ & _ & Hmax & _ & Ht).
    cbn [add_fired maxDepth].
    split; [exact Hmax | ]. split; [exact Ht | ]. split; [ | split].
    + apply (fire_settles s m D); assumption.
    + intros m' D' Hne S'. apply fire_keeps; assumption.
    + exists [p]. exact Hs.
  - (* not reached *)
    split; [reflexivity | ]. split; [reflexivity | ]. split; [ | split].
    + apply (settled_same s m D); [lia | exact S].
    + intros m' D' _ S'. exact S'.
    + exists []. rewrite app_nil_r. reflexivity.
Qed.

(** The whole loop. *)
Lemma check_milestones_spec (l : list Z) :
  forall (s : state) (D : Z),
    List.NoDup l -> D <= maxDepth s ->
    (forall m, In m l -> settled s m D) ->
    let s' := fold_left check_milestone l s in
    maxDepth s' = maxDepth s
    /\ ticking s' = ticking s
    /\ (forall m, In m l -> settled s' m (maxDepth s))
    /\ (forall m' D', ~ In m' l -> settled s m' D' -> settled s' m' D')
    /\ (exists new, sent s' = sent s ++ new).
Proof.
  induction l as [ | m l IH]; intros s D N HD HS; cbn [fold_left].
  - split; [reflexivity | ]. split; [reflexivity | ]. split; [intros m [] | ].
    split; [auto | ]. exists []. rewrite app_nil_r. reflexivity.
  - inversion N as [ | ? ? Hnotin N']; subst.
    destruct (check_milestone_spec s m D HD (HS m (or_introl eq_refl)))
      as (M1 & T1 & S1 & K1 & [new1 A1]).
    set (s1 := check_milestone s m) in *.
    assert (HS1 : forall m', In m' l -> settled s1 m' D).
    { intros m' Hin. apply K1; [intros ->; contradiction | ].
      apply HS. right. exact Hin. }
    destruct (IH s1 D N' ltac:(lia) HS1) as (M2 & T2 & S2 & K2 & [new2 A2]).
    split; [congruence | ]. split; [congruence | ]. split; [ | split].
    + intros m' [<- | Hin].
      * apply K2; [exact Hnotin | exact S1].
      * rewrite <- M1. apply S2, Hin.
    + intros m' D' Hni S'. apply K2; [intros Hin; apply Hni; right; exact Hin | ].
      apply K1; [intros ->; apply Hni; left; reflexivity | exact S'].
    + exists (new1 ++ new2). rewrite A2, A1, app_assoc. reflexivity.
Qed.

Lemma MILESTONES_NoDup : List.NoDup MILESTONES.
Proof.
  unfold MILESTONES. repeat constructor; simpl; lia.
Qed.

(** A post without a milestone changes nothing that [settled] reads but
    the log, to which it adds no milestone event. *)
Lemma post_plain_keeps (s : state) (depth m D : Z) :
  settled s m D -> settled (post depth None s) m D.
Proof.
  intros (F & C & E).
  destruct (post_sent depth None s) as (p & Hs & Hm & _ & _ & Hf & _).
  split; [ | split].
  - rewrite Hf. exact F.
  - rewrite Hs, milestone_count_app, C, count_single, Hm.
    rewrite bool_decide_eq_false_2 by discriminate. unfold one_if at 2. lia.
  - intros q Hq Hqm. rewrite Hs in Hq. apply in_app_or in Hq.
    destruct Hq as [Hq | [<- | []]]; [apply E; assumption | congruence].
Qed.

Lemma set_ticking_keeps (s : state) (b : bool) (m D : Z) :
  settled s m D -> settled (set_ticking b s) m D.
Proof. intros H. exact H. Qed.

Lemma frame_deeper (d : dom) (s : state) :
  maxDepth s < getScrollDepth d ->
  frame d s
  = set_ticking false
      (fold_left check_milestone MILESTONES
         (post (getScrollDepth d) None (set_maxDepth (getScrollDepth d) s))).
Proof.
  intros L. unfold Tracker.frame.
  destruct (Z.ltb_spec (maxDepth s) (getScrollDepth d)); [reflexivity | lia].
Qed.

Lemma frame_not_deeper (d : dom) (s : state) :
  getScrollDepth d <= maxDepth s -> frame d s = set_ticking false s.
Proof.
  intros L. unfold Tracker.frame.
  destruct (Z.ltb_spec (maxDepth s) (getScrollDepth d)); [lia | reflexivity].
Qed.

(** One step keeps the invariant, never lowers the maximum and only
    extends the log. *)
Lemma step_spec (s : state) (e : event) :
  Inv s ->
  Inv (step s e) /\ maxDepth s <= maxDepth (step s e)
  /\ exists new, sent (step s e) = sent s ++ new.
Proof.
  intros HI.
  assert (Same : forall s', maxDepth s' = maxDepth s -> sent s' = sent s ->
                            fired s' = fired s ->
                            Inv s' /\ maxDepth s <= maxDepth s'
                            /\ exists new, sent s' = sent s ++ new).
  { intros s' M S F. split; [ | split; [lia | exists []; rewrite app_nil_r; exact S]].
    intros m Hm. destruct (HI m Hm) as (A & B & C). unfold settled.
    rewrite M, S, F. auto. }
  unfold Tracker.step. destruct (installed TRACKER_ID); [ | apply Same; reflexivity].
  destruct e as [ | d | ]; cbn [listen].
  - destruct (ticking s); apply Same; reflexivity.
  - destruct (ticking s); [ | apply Same; reflexivity].
    destruct (Z_lt_le_dec (maxDepth s) (getScrollDepth d)) as [L | L];
      [ | rewrite frame_not_deeper by exact L; apply Same; reflexivity].
    rewrite frame_deeper by exact L.
    set (D' := getScrollDepth d) in *.
    set (s1 := post D' None (set_maxDepth D' s)).
    assert (M1 : maxDepth s1 = D') by reflexivity.
    assert (HS1 : forall m, In m MILESTONES -> settled s1 m (maxDepth s)).
    { intros m Hm. apply post_plain_keeps. exact (HI m Hm). }
    destruct (check_milestones_spec MILESTONES s1 (maxDepth s) MILESTONES_NoDup
                ltac:(lia) HS1) as (M2 & _ & S2 & _ & [new A2]).
    set (s2 := fold_left check_milestone MILESTONES s1) in *.
    assert (M3 : maxDepth (set_ticking false s2) = D') by (cbn [set_ticking maxDepth]; lia).
    split; [ | split; [lia | ]].
    + intros m Hm. rewrite M3. apply set_ticking_keeps. rewrite <- M1. apply S2, Hm.
    + destruct (post_sent D' None (set_maxDepth D' s)) as (p & Hs & _).
      exists ([p] ++ new). cbn [set_ticking sent]. rewrite A2. fold s1 in Hs. rewrite Hs.
      cbn [set_maxDepth sent]. rewrite app_assoc. reflexivity.
  - apply Same; reflexivity.
Qed.

Lemma init_Inv : Inv init.
Proof.
  intros m Hm. unfold Tracker.init.
  assert (B : settled blank m 0); [ | destruct (installed TRACKER_ID);
                                      [apply (post_plain_keeps _ 0 m 0) | ]; exact B].
  split; [ | split]; cbn [fired sent].
  - split; [intros H; apply not_elem_of_empty in H; contradiction | ].
    intros H0. exfalso. unfold MILESTONES in Hm. simpl in Hm. lia.
  - unfold MILESTONES in Hm. simpl in Hm.
    destruct Hm as [<- | [<- | [<- | [<- | []]]]]; reflexivity.
  - intros p [].
Qed.

Lemma run_snoc (evs : list event) (e : event) : run (evs ++ [e]) = step (run evs) e.
Proof. unfold Tracker.run. rewrite fold_left_app. reflexivity. Qed.

Lemma run_Inv (evs : list event) : Inv (run evs).
Proof.
  induction evs as [ | e evs IH] using rev_ind.
  - exact init_Inv.
  - rewrite run_snoc. apply step_spec, IH.
Qed.

End Run.

(** C8. For each milestone, at any point of a page view: the milestone
    event has been posted once if the running maximum has reached the
    milestone and not at all otherwise; every such post carries the
    engagement fields; and a step posts it exactly when that step takes the
    running maximum from below the milestone to it or beyond, so never a
    second time. *)
Theorem milestone_event_once
    (TRACKER_ID href : string) (now : nat -> Z) (evs : list event) (m : Z) :
  In m MILESTONES ->
  let s := run TRACKER_ID href now evs in
  milestone_count m (sent s) = (if m <=? maxDepth s then 1 else 0)
  /\ (forall p, In p (sent s) -> milestone p = Some m -> has_engagement (body p))
  /\ (forall e,
        let s' := step TRACKER_ID href now s e in
        exists new,
          sent s' = sent s ++ new
          /\ milestone_count m new
             = (if (maxDepth s <? m) && (m <=? maxDepth s') then 1 else 0)).
Proof.
  intros Hm s.
  pose proof (run_Inv TRACKER_ID href now evs) as HI. fold s in HI.
  destruct (HI m Hm) as (_ & C & E).
  split; [exact C | ]. split; [exact E | ].
  intros e s'.
  destruct (step_spec TRACKER_ID href now s e HI) as (HI' & Hle & [new A]).
  fold s' in HI', Hle, A.
  exists new. split; [exact A | ].
  destruct (HI' m Hm) as (_ & C' & _).
  rewrite A, milestone_count_app, C in C'. unfold one_if in C'.
  destruct (Z.leb_spec m (maxDepth s)), (Z.leb_spec m (maxDepth s')),
    (Z.ltb_spec (maxDepth s) m); cbn [andb]; lia.
Qed.

Lemma milestone_event_once_witness :
  let s := run "abcd1234" "https://example.com/" Z.of_nat
             [Scroll; Frame scrolled_down; Scroll; Frame scrolled_down] in
  maxDepth s = 60
  /\ milestone_count 50 (sent s) = 1
  /\ milestone_count 75 (sent s) = 0.
Proof.
  intros s. split; [reflexivity | ]. split.
  - assert (H : In 50 MILESTONES) by (simpl; auto).
    exact (proj1 (milestone_event_once "abcd1234" "https://example.com/" Z.of_nat
                    [Scroll; Frame scrolled_down; Scroll; Frame scrolled_down] 50 H)).
  - reflexivity.
Defined.

End MilestoneEvents.

(** ** Unknown trackers *)

Module TrackFacts.
Import Track.
Local Open Scope string_scope.
Local Open Scope Z_scope.

(** The lookup finds nothing when no tracker has the id. *)
Lemma find_tracker_None (d : db) (id : string) :
  ~ tracker_exists d id -> find_tracker d id = None.
Proof.
  unfold tracker_exists, find_tracker. intros H.
  destruct (find (String.eqb id) (trackers d)) as [x | ] eqn:E; [ | reflexivity].
  apply find_some in E. destruct E as [E1 E2]. apply String.eqb_eq in E2. subst x.
  contradiction.
Qed.

(** C9. A valid body for a tracker that does not exist never changes the
    store, and the reply is 404 with [Unknown trackerId] whenever the
    lookup of the tracker works; a lookup that fails is a storage failure,
    which the specification answers with 500 and [Server error], as the
    code does. *)
Theorem unknown_tracker
    (is_url : string -> bool) (production : bool)
    (st : storage) (req : request) (d : db) (body : json) (ev : track_event) :
  json_body req = Some body ->
  safeParse is_url body = Some ev ->
  ~ tracker_exists d (trackerId ev) ->
  let result := POST is_url production st req d in
  snd result = d
  /\ (lookup_fails st = false ->
      status (fst result) = 404 /\ reply_body (fst result) = Error "Unknown trackerId")
  /\ (lookup_fails st = true ->
      status (fst result) = 500 /\ reply_body (fst result) = Error "Server error").
Proof.
  intros Hb Hp Hn. unfold POST. rewrite Hb, Hp, (find_tracker_None d _ Hn).
  destruct (lookup_fails st); cbn.
  - split; [reflexivity | ]. split; [discriminate | ]. intros _. split; reflexivity.
  - split; [reflexivity | ]. split; [ | discriminate]. intros _. split; reflexivity.
Qed.

Lemma unknown_tracker_witness :
  let result := POST https_url true storage_ok sample_request other_db in
  snd result = other_db
  /\ status (fst result) = 404 /\ reply_body (fst result) = Error "Unknown trackerId".
Proof.
  destruct (safeParse https_url sample_body) as [ev | ] eqn:E; [ | discriminate E].
  assert (Hn : ~ tracker_exists other_db (trackerId ev)).
  { injection E as <-. unfold tracker_exists. simpl. intros [H | []]. discriminate H. }
  destruct (unknown_tracker https_url true storage_ok sample_request other_db
              sample_body ev eq_refl E Hn) as (H1 & H2 & _).
  split; [exact H1 | exact (H2 eq_refl)].
Defined.

End TrackFacts.

(** ** The log of the tracking script *)

Module TrackerLogFacts.

Import JsNumber Tracker TrackerLog.

Local Open Scope Z_scope.

Lemma getScrollDepth_le_100 (d : dom) : getScrollDepth d <= 100.
Proof. unfold getScrollDepth. lia. Qed.

Lemma plain_depths_app (l1 l2 : list sent_event) :
  plain_depths (l1 ++ l2) = plain_depths l1 ++ plain_depths l2.
Proof. unfold plain_depths. apply flat_map_app. Qed.

(** In a strictly increasing list nothing exceeds the last element. *)
Lemma sorted_le_last (l : list Z) :
  StronglySorted Z.lt l -> forall x, In x l -> x <= List.last l 0.
Proof.
  induction 1 as [ | a l S IH F]; intros x Hin; [destruct Hin | ].
  destruct l as [ | b l'].
  - destruct Hin as [<- | []]. simpl. lia.
  - change (List.last (a :: b :: l') 0) with (List.last (b :: l') 0).
    destruct Hin as [<- | Hin].
    + rewrite List.Forall_forall in F. pose proof (F b (or_introl eq_refl)).
      pose proof (IH b (or_introl eq_refl)). lia.
    + apply IH, Hin.
Qed.

Lemma sorted_snoc (l : list Z) (x : Z) :
  StronglySorted Z.lt l -> List.last l 0 < x -> StronglySorted Z.lt (l ++ [x]).
Proof.
  intros S L.
  assert (B : forall y, In y l -> y < x).
  { intros y Hy. pose proof (sorted_le_last l S y Hy). lia. }
  clear L. induction S as [ | a l S IH F].
  - simpl. constructor; constructor.
  - simpl. constructor.
    + apply IH. intros y Hy. apply B. right. exact Hy.
    + apply Forall_app. split; [exact F | ].
      constructor; [apply B; left; reflexivity | constructor].
Qed.

Section Run.

Variable TRACKER_ID : string.
Variable href : string.
Variable now : nat -> Z.

Local Abbreviation post := (post TRACKER_ID href now).
Local Abbreviation step := (step TRACKER_ID href now).
Local Abbreviation listen := (listen TRACKER_ID href now).
Local Abbreviation frame := (frame TRACKER_ID href now).
Local Abbreviation unload := (unload TRACKER_ID href now).
Local Abbreviation check_milestone := (check_milestone TRACKER_ID href now).
Local Abbreviation run := (run TRACKER_ID href now).
Local Abbreviation init := (init TRACKER_ID href now).
Local Abbreviation well_formed := (well_formed TRACKER_ID href now).
Local Abbreviation log_ok := (log_ok TRACKER_ID href now).

(** A call [post(maxDepth, ms)] appends one well-formed request. *)
Lemma post_well_formed (ms : option Z) (s : state) :
  0 <= maxDepth s <= 100 ->
  match ms with Some m => In m MILESTONES /\ m <= maxDepth s | None => True end ->
  exists p,
    sent (post (maxDepth s) ms s) = sent s ++ [p]
    /\ well_formed p /\ milestone p = ms
    /\ scrollDepth (body p) = Some (maxDepth s).
Proof.
  intros HD Hms. eexists. split; [reflexivity | ]. split; [ | split; reflexivity].
  exists (clock s), (length (scrollEvents s ++ [ {| sr_depth := maxDepth s;
            sr_timestamp := now (clock s);
            sr_timeOnPage := now (clock s) - now 0 |} ])), (maxDepth s).
  cbn [body milestone]. split; [destruct ms; reflexivity | ].
  split; [exact HD | ]. split; [rewrite length_app; simpl; lia | exact Hms].
Qed.

Lemma post_milestone_ok (m : Z) (s : state) :
  log_ok s -> In m MILESTONES -> m <= maxDepth s ->
  log_ok (post (maxDepth s) (Some m) (add_fired m s)).
Proof.
  intros (HD & W & L & S & M) Hm Hle.
  destruct (post_well_formed (Some m) (add_fired m s) HD (conj Hm Hle))
    as (p & Hs & Wp & Mp & _).
  cbn [add_fired maxDepth sent] in Hs.
  unfold TrackerLog.log_ok.
  change (maxDepth (post (maxDepth s) (Some m) (add_fired m s))) with (maxDepth s).
  rewrite Hs. split; [exact HD | ]. split; [ | split; [ | split]].
  - apply Forall_app. split; [exact W | ]. constructor; [exact Wp | constructor].
  - cbn [Tracker.post scrollEvents add_fired]. rewrite !length_app, L. reflexivity.
  - rewrite plain_depths_app. unfold plain_depths at 2. simpl. rewrite Mp.
    rewrite app_nil_r. exact S.
  - rewrite plain_depths_app. unfold plain_depths at 2. simpl. rewrite Mp.
    rewrite app_nil_r. exact M.
Qed.

Lemma check_milestone_ok (s : state) (m : Z) :
  log_ok s -> In m MILESTONES ->
  let s' := check_milestone s m in
  log_ok s' /\ maxDepth s' = maxDepth s /\ beacons s' = beacons s
  /\ plain_depths (sent s') = plain_depths (sent s)
  /\ exists new, sent s' = sent s ++ new.
Proof.
  intros H Hm. unfold Tracker.check_milestone.
  destruct ((m <=? maxDepth s) && negb (bool_decide (m ∈ fired s))) eqn:E.
  - apply andb_true_iff in E. destruct E as [E _]. apply Z.leb_le in E.
    split; [apply post_milestone_ok; assumption | ].
    destruct H as (HD & _).
    destruct (post_well_formed (Some m) (add_fired m s) HD (conj Hm E))
      as (p & Hs & _ & Mp & _).
    cbn [add_fired maxDepth sent] in Hs.
    split; [reflexivity | ]. split; [reflexivity | ]. split.
    + rewrite Hs, plain_depths_app. unfold plain_depths at 2. simpl. rewrite Mp.
      apply app_nil_r.
    + exists [p]. exact Hs.
  - split; [exact H | ]. split; [reflexivity | ]. split; [reflexivity | ].
    split; [reflexivity | ]. exists []. rewrite app_nil_r. reflexivity.
Qed.

Lemma check_milestones_ok (l : list Z) :
  forall s,
    log_ok s -> (forall m, In m l -> In m MILESTONES) ->
    let s' := fold_left check_milestone l s in
    log_ok s' /\ maxDepth s' = maxDepth s /\ beacons s' = beacons s
    /\ plain_depths (sent s') = plain_depths (sent s)
    /\ exists new, sent s' = sent s ++ new.
Proof.
  induction l as [ | m l IH]; intros s H Hl; cbn [fold_left].
  - split; [exact H | ]. split; [reflexivity | ]. split; [reflexivity | ].
    split; [reflexivity | ]. exists []. rewrite app_nil_r. reflexivity.
  - destruct (check_milestone_ok s m H (Hl m (or_introl eq_refl)))
      as (H1 & M1 & B1 & P1 & [new1 A1]).
    destruct (IH (check_milestone s m) H1 (fun x Hx => Hl x (or_intror Hx)))
      as (H2 & M2 & B2 & P2 & [new2 A2]).
    split; [exact H2 | ]. split; [congruence | ]. split; [congruence | ].
    split; [congruence | ]. exists (new1 ++ new2). rewrite A2, A1, app_assoc. reflexivity.
Qed.

(** The post of a new maximum. *)
Lemma plain_post_ok (s : state) (D : Z) :
  log_ok s -> maxDepth s < D <= 100 ->
  let s' := post D None (set_maxDepth D s) in
  log_ok s' /\ maxDepth s' = D /\ beacons s' = beacons s
  /\ plain_depths (sent s') = plain_depths (sent s) ++ [D]
  /\ exists new, sent s' = sent s ++ new.
Proof.
  intros (HD & W & L & S & M) HD'.
  assert (HD2 : 0 <= maxDepth (set_maxDepth D s) <= 100) by (cbn [set_maxDepth maxDepth]; lia).
  destruct (post_well_formed None (set_maxDepth D s) HD2 I) as (p & Hs & Wp & Mp & Dp).
  cbn [set_maxDepth maxDepth sent] in Hs, Dp.
  assert (P : plain_depths (sent s ++ [p]) = plain_depths (sent s) ++ [D]).
  { rewrite plain_depths_app. unfold plain_depths at 2. simpl. rewrite Mp, Dp. reflexivity. }
  cbv zeta. unfold TrackerLog.log_ok.
  change (maxDepth (post D None (set_maxDepth D s))) with D.
  change (beacons (post D None (set_maxDepth D s))) with (beacons s).
  rewrite Hs, P.
  split; [ | split; [reflexivity | split; [reflexivity | split; [reflexivity | ]]]].
  - split; [lia | ]. split; [ | split; [ | split]].
    + apply Forall_app. split; [exact W | ]. constructor; [exact Wp | constructor].
    + cbn [Tracker.post scrollEvents set_maxDepth]. rewrite !length_app, L. reflexivity.
    + apply sorted_snoc; [exact S | lia].
    + apply List.last_last.
  - exists [p]. reflexivity.
Qed.

Lemma set_ticking_ok (b : bool) (s : state) : log_ok s -> log_ok (set_ticking b s).
Proof. intros H. exact H. Qed.

Lemma frame_ok (d : dom) (s : state) :
  log_ok s ->
  let s' := frame d s in
  log_ok s' /\ ticking s' = false /\ beacons s' = beacons s
  /\ (plain_depths (sent s') = plain_depths (sent s)
      \/ plain_depths (sent s') = plain_depths (sent s) ++ [getScrollDepth d])
  /\ exists new, sent s' = sent s ++ new.
Proof.
  intros H. unfold Tracker.frame.
  pose proof (getScrollDepth_le_100 d) as U.
  set (D := getScrollDepth d) in *. clearbody D.
  destruct (Z.ltb_spec (maxDepth s) D) as [L | L].
  - destruct (plain_post_ok s D H (conj L U)) as (H1 & M1 & B1 & P1 & [new1 A1]).
    change (maxDepth (set_maxDepth D s)) with D.
    set (s1 := post D None (set_maxDepth D s)) in *. clearbody s1.
    destruct (check_milestones_ok MILESTONES s1 H1 (fun m Hm => Hm))
      as (H2 & M2 & B2 & P2 & [new2 A2]).
    set (s2 := fold_left check_milestone MILESTONES s1) in *. clearbody s2.
    split; [apply set_ticking_ok, H2 | ]. split; [reflexivity | ].
    cbn [set_ticking beacons sent].
    split; [congruence | ]. split; [right; congruence | ].
    exists (new1 ++ new2). rewrite A2, A1, app_assoc. reflexivity.
  - split; [apply set_ticking_ok, H | ]. split; [reflexivity | ]. split; [reflexivity | ].
    split; [left; reflexivity | ]. exists []. rewrite app_nil_r. reflexivity.
Qed.

Lemma blank_ok : log_ok blank.
Proof.
  unfold TrackerLog.log_ok. cbn. split; [lia | ]. split; [constructor | ].
  split; [reflexivity | ]. split; [constructor | reflexivity].
Qed.

Lemma init_ok : log_ok init.
Proof.
  unfold Tracker.init. destruct (installed TRACKER_ID); [ | exact blank_ok].
  set (s0 := {| maxDepth := 0; ticking := false; fired := ∅; scrollEvents := [];
                clock := 1; sent := []; beacons := [] |}).
  assert (H0 : 0 <= maxDepth s0 <= 100) by (cbn [s0 maxDepth]; lia).
  destruct (post_well_formed None s0 H0 I) as (p & Hs & Wp & Mp & Dp).
  change (maxDepth s0) with 0 in Hs, Dp.
  unfold TrackerLog.log_ok. change (maxDepth (post 0 None s0)) with 0.
  rewrite Hs. change (sent s0) with (@nil sent_event). cbn [app].
  unfold plain_depths. cbn [flat_map]. rewrite Mp, Dp. cbn.
  split; [lia | ]. split; [repeat constructor; exact Wp | ].
  split; [reflexivity | ]. split; [repeat constructor | reflexivity].
Qed.

Lemma step_ok (s : state) (e : event) : log_ok s -> log_ok (step s e).
Proof.
  intros H. unfold Tracker.step. destruct (installed TRACKER_ID); [ | exact H].
  destruct e as [ | d | ]; cbn [Tracker.listen].
  - destruct (ticking s); exact H.
  - destruct (ticking s); [apply frame_ok, H | exact H].
  - exact H.
Qed.

Lemma run_app_one (evs : list event) (e : event) : run (evs ++ [e]) = step (run evs) e.
Proof. unfold Tracker.run. rewrite fold_left_app. reflexivity. Qed.

Lemma run_ok (evs : list event) : log_ok (run evs).
Proof.
  induction evs as [ | e evs IH] using rev_ind.
  - exact init_ok.
  - rewrite run_app_one. apply step_ok, IH.
Qed.

Lemma count_snoc {A} (f : A -> bool) (l : list A) (x : A) :
  length (List.filter f (l ++ [x]))
  = (length (List.filter f l) + (if f x then 1 else 0))%nat.
Proof. rewrite List.filter_app, length_app. simpl. destruct (f x); reflexivity. Qed.

(** Along a run of an installed script: the state is well formed, the log
    extends the one of [init], the posts of a new maximum are at most one
    per scroll event besides the first, and each unload has left one
    beacon. *)
Lemma run_installed (evs : list event) :
  installed TRACKER_ID = true ->
  let s := run evs in
  (exists rest, sent s = sent init ++ rest)
  /\ Z.of_nat (length (plain_depths (sent s))) + (if ticking s then 1 else 0)
     <= 1 + Z.of_nat (length (List.filter is_scroll evs))
  /\ length (beacons s) = length (List.filter is_unload evs)
  /\ Forall (beacon_ok TRACKER_ID href) (beacons s).
Proof.
  intros Hi. induction evs as [ | e evs IH] using rev_ind.
  - cbv zeta. change (run []) with init. unfold Tracker.init. rewrite Hi.
    split; [exists []; rewrite app_nil_r; reflexivity | ].
    split; [cbn; lia | ]. split; [reflexivity | constructor].
  - cbv zeta in IH |- *. rewrite run_app_one, !count_snoc.
    pose proof (run_ok evs) as Hok.
    destruct IH as ([rest Hr] & Hc & Hb & Hf).
    set (s := run evs) in *. clearbody s.
    unfold Tracker.step. rewrite Hi. destruct e as [ | d | ]; cbn [Tracker.listen is_scroll is_unload].
    + destruct (ticking s) eqn:T; cbn [set_ticking sent ticking beacons]; rewrite ?T.
      * split; [exists rest; exact Hr | ]. split; [lia | ]. split; [lia | exact Hf].
      * split; [exists rest; exact Hr | ]. split; [lia | ]. split; [lia | exact Hf].
    + destruct (ticking s) eqn:T.
      * cbn [plus] in Hc |- *.
        destruct (frame_ok d s Hok) as (_ & T' & B' & P' & [new A']).
        set (s' := frame d s) in *. clearbody s'. rewrite T', B'.
        split; [exists (rest ++ new); rewrite A', Hr, app_assoc; reflexivity | ].
        split; [ | split; [lia | exact Hf]].
        destruct P' as [-> | ->]; [lia | rewrite length_app; simpl; lia].
      * rewrite T. split; [exists rest; exact Hr | ]. split; [lia | ].
        split; [lia | exact Hf].
    + destruct Hok as (HD & _).
      cbn [Tracker.unload sent ticking beacons]. destruct (ticking s).
      all: (split; [exists rest; exact Hr | ]; split; [lia | ]; split;
            [rewrite length_app; simpl; lia | ]).
      all: (apply Forall_app; split; [exact Hf | ]; constructor; [ | constructor]).
      all: (unfold beacon_ok; cbn; repeat split; try reflexivity).
      all: (exists (maxDepth s); split; [reflexivity | exact HD]).
Qed.

Lemma run_not_installed (evs : list event) :
  installed TRACKER_ID = false -> run evs = blank.
Proof.
  intros Hi. induction evs as [ | e evs IH] using rev_ind.
  - change (run []) with init. unfold Tracker.init. rewrite Hi. reflexivity.
  - rewrite run_app_one, IH. unfold Tracker.step. rewrite Hi. reflexivity.
Qed.

(** A frame callback leaves the larger of the maximum and the depth it
    reads. *)
Lemma frame_maxDepth (d : dom) (s : state) :
  log_ok s -> maxDepth (frame d s) = Z.max (maxDepth s) (getScrollDepth d).
Proof.
  intros H. unfold Tracker.frame.
  pose proof (getScrollDepth_le_100 d) as U.
  set (D := getScrollDepth d) in *. clearbody D.
  destruct (Z.ltb_spec (maxDepth s) D) as [L | L].
  - destruct (plain_post_ok s D H (conj L U)) as (H1 & M1 & _).
    change (maxDepth (set_maxDepth D s)) with D.
    set (s1 := post D None (set_maxDepth D s)) in *. clearbody s1.
    destruct (check_milestones_ok MILESTONES s1 H1 (fun m Hm => Hm)) as (_ & M2 & _).
    set (s2 := fold_left check_milestone MILESTONES s1) in *. clearbody s2.
    cbn [set_ticking maxDepth]. lia.
  - cbn [set_ticking maxDepth]. lia.
Qed.

Lemma max_read_nonneg (l : list Z) : 0 <= fold_right Z.max 0 l.
Proof. induction l as [ | x l IH]; cbn [fold_right]; lia. Qed.

(** The maximum kept by the script is the largest depth that a frame
    callback has read. *)
Lemma steps_maxDepth (evs : list event) :
  installed TRACKER_ID = true ->
  forall s,
    log_ok s ->
    maxDepth (fold_left step evs s)
    = Z.max (maxDepth s) (fold_right Z.max 0 (depths_read (ticking s) evs)).
Proof.
  intros Hi. induction evs as [ | e evs IH]; intros s H.
  - destruct H as (HD & _). cbn [fold_left depths_read fold_right]. lia.
  - cbn [fold_left]. rewrite (IH (step s e) (step_ok s e H)).
    unfold Tracker.step. rewrite Hi.
    destruct e as [ | d | ]; cbn [Tracker.listen depths_read].
    + destruct (ticking s) eqn:T; [rewrite T; reflexivity | reflexivity].
    + destruct (ticking s) eqn:T; [ | rewrite T; reflexivity].
      destruct (frame_ok d s H) as (_ & T' & _).
      rewrite (frame_maxDepth d s H), T'. cbn [fold_right].
      set (D := getScrollDepth d). clearbody D. lia.
    + reflexivity.
Qed.

Lemma run_maxDepth (evs : list event) :
  installed TRACKER_ID = true -> maxDepth (run evs) = largest_depth_read evs.
Proof.
  intros Hi. unfold Tracker.run. rewrite (steps_maxDepth evs Hi init init_ok).
  assert (E : maxDepth init = 0 /\ ticking init = false).
  { unfold Tracker.init. rewrite Hi. split; reflexivity. }
  destruct E as [-> ->]. unfold largest_depth_read.
  pose proof (max_read_nonneg (depths_read false evs)). lia.
Qed.

(** The beacons already sent stay as they are. *)
Lemma beacons_grow (before evs : list event) :
  exists rest, beacons (run (before ++ evs)) = beacons (run before) ++ rest.
Proof.
  induction evs as [ | e evs IH] using rev_ind.
  - exists []. rewrite !app_nil_r. reflexivity.
  - destruct IH as [rest IH]. rewrite app_assoc, run_app_one.
    pose proof (run_ok (before ++ evs)) as Hok.
    set (s := run (before ++ evs)) in *. clearbody s.
    unfold Tracker.step. destruct (installed TRACKER_ID);
      [ | exists rest; exact IH].
    destruct e as [ | d | ]; cbn [Tracker.listen].
    + exists rest. destruct (ticking s); exact IH.
    + exists rest. destruct (ticking s); [ | exact IH].
      destruct (frame_ok d s Hok) as (_ & _ & B & _). rewrite B. exact IH.
    + eexists. cbn [Tracker.unload beacons]. rewrite IH, <- app_assoc. reflexivity.
Qed.

(** What one [beforeunload] sends. *)
Lemma unload_beacon (before : list event) :
  installed TRACKER_ID = true ->
  let s0 := run before in
  beacons (run (before ++ [Unload]))
  = beacons s0
    ++ [{| trackerId := TRACKER_ID;
           scrollDepth := None;
           pageUrl := href;
           timestamp := now (clock s0);
           timeOnPage := None;
           totalTimeOnPage := Some (now (clock s0) - now 0%nat);
           maxScrollDepth := Some (maxDepth s0);
           scrollEvents_n := Some (Z.of_nat (length (scrollEvents s0)));
           engagement_data :=
             Some (engagement_of (now (clock s0) - now 0%nat) (maxDepth s0)
                     (length (scrollEvents s0))) |}].
Proof.
  intros Hi s0. rewrite run_app_one. unfold Tracker.step. rewrite Hi. reflexivity.
Qed.

End Run.

(** X1. Whatever the page does, the maximum kept by the script is a depth
    in [0, 100] and every request sent carries the tracker id, the page and
    a depth in [0, 100] (although [getScrollDepth] can be negative); a
    milestone request is for one of the four milestones, carries a depth
    that has reached it, the same depth as [maxScrollDepth], and the
    engagement fields; any other request carries none of them. *)
Theorem sent_requests_in_range
    (TRACKER_ID href : string) (now : nat -> Z) (evs : list event) :
  let s := run TRACKER_ID href now evs in
  0 <= maxDepth s <= 100
  /\ forall p,
      In p (sent s) ->
      trackerId (body p) = TRACKER_ID /\ pageUrl (body p) = href
      /\ exists d,
          scrollDepth (body p) = Some d /\ 0 <= d <= 100
          /\ match milestone p with
             | Some m =>
                 In m MILESTONES /\ m <= d /\ maxScrollDepth (body p) = Some d
                 /\ has_engagement (body p)
             | None =>
                 totalTimeOnPage (body p) = None /\ maxScrollDepth (body p) = None
                 /\ scrollEvents_n (body p) = None /\ engagement_data (body p) = None
             end.
Proof.
  intros s. destruct (run_ok TRACKER_ID href now evs) as (HD & W & _). fold s in HD, W.
  split; [exact HD | ]. intros p Hp. rewrite List.Forall_forall in W.
  destruct (W p Hp) as (k & n & d & Hb & Hd & Hn & Hm). cbv zeta in Hb.
  rewrite Hb. cbn [trackerId pageUrl scrollDepth maxScrollDepth totalTimeOnPage
                    scrollEvents_n engagement_data].
  split; [reflexivity | ]. split; [reflexivity | ]. exists d.
  split; [reflexivity | ]. split; [exact Hd | ].
  destruct (milestone p) as [m | ].
  - destruct Hm as [Hm1 Hm2]. split; [exact Hm1 | ]. split; [exact Hm2 | ].
    split; [reflexivity | ]. unfold has_engagement. cbn. repeat split; eexists; reflexivity.
  - repeat split; reflexivity.
Qed.

(** X2. The requests sent for a new maximum (those without a milestone,
    the first being the one sent on load) carry strictly increasing depths,
    and the last of them carries the current maximum; each post has left
    one record in [scrollEvents]. *)
Theorem new_maximum_posts_increase
    (TRACKER_ID href : string) (now : nat -> Z) (evs : list event) :
  let s := run TRACKER_ID href now evs in
  StronglySorted Z.lt (plain_depths (sent s))
  /\ List.last (plain_depths (sent s)) 0 = maxDepth s
  /\ length (scrollEvents s) = length (sent s).
Proof.
  intros s. destruct (run_ok TRACKER_ID href now evs) as (_ & _ & L & S & M).
  split; [exact S | ]. split; [exact M | exact L].
Qed.

(** X3. Without a tracker id the script does nothing: whatever happens on
    the page, no request and no beacon is sent. *)
Theorem no_tracker_id_nothing_sent (href : string) (now : nat -> Z) (evs : list event) :
  sent (run "" href now evs) = [] /\ beacons (run "" href now evs) = [].
Proof.
  rewrite (run_not_installed "" href now evs eq_refl). split; reflexivity.
Qed.

(** X4. With a tracker id, the first request sent is the one of the load,
    with depth 0 and no milestone; and the requests for a new maximum,
    that one apart, are at most as many as the scroll, resize and
    readystatechange events: the frames in between are coalesced. *)
Theorem load_post_first_and_throttle
    (TRACKER_ID href : string) (now : nat -> Z) (evs : list event) :
  TRACKER_ID <> "" ->
  let s := run TRACKER_ID href now evs in
  (exists p rest,
      sent s = p :: rest /\ milestone p = None /\ scrollDepth (body p) = Some 0
      /\ timestamp (body p) = now 1%nat)
  /\ Z.of_nat (length (plain_depths (sent s)))
     <= 1 + Z.of_nat (length (List.filter is_scroll evs)).
Proof.
  intros Hne s.
  assert (Hi : installed TRACKER_ID = true).
  { unfold installed. destruct (String.eqb_spec TRACKER_ID ""); [contradiction | reflexivity]. }
  destruct (run_installed TRACKER_ID href now evs Hi) as ([rest Hr] & Hc & _).
  fold s in Hr, Hc. split.
  - unfold init in Hr. rewrite Hi in Hr. cbn [post sent app] in Hr.
    eexists. exists rest. split; [exact Hr | ]. split; [reflexivity | ].
    split; reflexivity.
  - destruct (ticking s); lia.
Qed.

Lemma load_post_first_and_throttle_witness :
  "abcd1234"%string <> ""%string
  /\ Z.of_nat (length (plain_depths
                 (sent (run "abcd1234" "https://example.com/" sample_clock sample_visit))))
     <= 1 + Z.of_nat (length (List.filter is_scroll sample_visit)).
Proof.
  split; [discriminate | ].
  exact (proj2 (load_post_first_and_throttle "abcd1234" "https://example.com/"
                  sample_clock sample_visit ltac:(discriminate))).
Defined.

(** X5. With a tracker id, each [beforeunload] sends exactly one beacon and
    nothing else does.  The beacon of an unload, which comes after as many
    beacons as there were unloads before, carries the tracker id and the
    page, no [scrollDepth], and as [maxScrollDepth] the maximum that the
    script holds at that unload: the largest depth read by a frame callback
    until then (0 when none is above it), a depth in [0, 100]; its
    [scrollEvents] is the number of requests sent until then, and its time
    is the reading of the clock at the unload. *)
Theorem one_beacon_per_unload
    (TRACKER_ID href : string) (now : nat -> Z) (evs : list event) :
  TRACKER_ID <> "" ->
  let s := run TRACKER_ID href now evs in
  length (beacons s) = length (List.filter is_unload evs)
  /\ forall before after : list event,
      evs = before ++ Unload :: after ->
      let s0 := run TRACKER_ID href now before in
      exists b,
        nth_error (beacons s) (length (List.filter is_unload before)) = Some b
        /\ trackerId b = TRACKER_ID /\ pageUrl b = href
        /\ scrollDepth b = None
        /\ maxScrollDepth b = Some (maxDepth s0)
        /\ maxDepth s0 = largest_depth_read before
        /\ 0 <= maxDepth s0 <= 100
        /\ scrollEvents_n b = Some (Z.of_nat (length (sent s0)))
        /\ timestamp b = now (clock s0)
        /\ totalTimeOnPage b = Some (now (clock s0) - now 0%nat).
Proof.
  intros Hne s.
  assert (Hi : installed TRACKER_ID = true).
  { unfold installed. destruct (String.eqb_spec TRACKER_ID ""); [contradiction | reflexivity]. }
  destruct (run_installed TRACKER_ID href now evs Hi) as (_ & _ & Hb & _).
  fold s in Hb. split; [exact Hb | ].
  intros before after Hsplit s0.
  destruct (run_installed TRACKER_ID href now before Hi) as (_ & _ & Hb0 & _).
  destruct (run_ok TRACKER_ID href now before) as (HD & _ & HL & _).
  pose proof (run_maxDepth TRACKER_ID href now before Hi) as HM.
  pose proof (unload_beacon TRACKER_ID href now before Hi) as HU. cbv zeta in HU.
  destruct (beacons_grow TRACKER_ID href now (before ++ [Unload]) after) as [rest HG].
  rewrite <- app_assoc in HG. cbn [app] in HG. rewrite <- Hsplit in HG. fold s in HG.
  fold s0 in Hb0, HD, HL, HM, HU. rewrite HU in HG.
  set (D := maxDepth s0) in *. clearbody D.
  eexists. split.
  - rewrite HG, <- Hb0, <- app_assoc, nth_error_app2 by lia.
    rewrite Nat.sub_diag. reflexivity.
  - cbn [trackerId pageUrl scrollDepth maxScrollDepth scrollEvents_n timestamp
         totalTimeOnPage].
    rewrite HL. repeat split; try reflexivity; try exact HM; lia.
Qed.

Lemma one_beacon_per_unload_witness :
  "abcd1234"%string <> ""%string
  /\ exists b,
       nth_error
         (beacons (run "abcd1234" "https://example.com/" sample_clock sample_visit)) 0
       = Some b
       /\ maxScrollDepth b = Some 60.
Proof.
  split; [discriminate | ].
  destruct (proj2 (one_beacon_per_unload "abcd1234" "https://example.com/"
                     sample_clock sample_visit ltac:(discriminate))
              [Scroll; Frame scrolled_down] [] eq_refl)
    as (b & Hn & _ & _ & _ & Hm & _).
  exists b. split; [exact Hn | ]. vm_compute in Hm. exact Hm.
Defined.

End TrackerLogFacts.

(** ** From the script to the endpoint *)

Module WireFacts.

Import JsNumber JsNumberFacts Track Wire.

Local Open Scope string_scope.
Local Open Scope Z_scope.

Lemma is_int_inject_Z (z : Z) : is_int (inject_Z z) = true.
Proof.
  unfold is_int, inject_Z, Qred.
  pose proof (Z.ggcd_gcd z 1) as G. pose proof (Z.ggcd_correct_divisors z 1) as D.
  destruct (Z.ggcd z 1) as [g [aa bb]]. cbn [fst snd] in *.
  rewrite Z.gcd_1_r in G. subst g. destruct D as [_ D].
  assert (bb = 1) by lia. subst bb. reflexivity.
Qed.

Lemma zint_jint (lo : Z) (hi : option Z) (z : Z) :
  lo <= z -> match hi with Some h => z <= h | None => True end ->
  zint lo hi (jint z) = Some z.
Proof.
  intros L H. unfold zint, jint, to_Z. rewrite is_int_inject_Z, Qfloor_Z.
  assert (E : (lo <=? z) = true) by (apply Z.leb_le, L). rewrite E.
  destruct hi as [h | ]; [ | reflexivity].
  assert (E' : (z <=? h) = true) by (apply Z.leb_le, H). rewrite E'. reflexivity.
Qed.

Lemma znumber_jint (z : Z) : 0 <= z <= 100 -> znumber 0 100 (jint z) = Some (inject_Z z).
Proof.
  intros [L U]. unfold znumber, jint.
  assert (E1 : Qle_bool 0 (inject_Z z) = true).
  { apply Qle_bool_iff. change 0%Q with (inject_Z 0). rewrite <- Zle_Qle. exact L. }
  assert (E2 : Qle_bool (inject_Z z) 100 = true).
  { apply Qle_bool_iff. change 100%Q with (inject_Z 100). rewrite <- Zle_Qle. exact U. }
  change (inject_Z 0) with 0%Q. change (inject_Z 100) with 100%Q.
  rewrite E1, E2. reflexivity.
Qed.

Lemma zstring_ok (lo hi : Z) (s : string) :
  lo <= len s <= hi -> zstring lo hi (JStr s) = Some s.
Proof.
  intros [L U]. unfold zstring.
  assert (E1 : (lo <=? len s) = true) by (apply Z.leb_le, L).
  assert (E2 : (len s <=? hi) = true) by (apply Z.leb_le, U).
  rewrite E1, E2. reflexivity.
Qed.

(** The average scroll speed of a payload is not negative when the time on
    page is not. *)
Lemma avgScrollSpeed_nonneg (t d : Z) (n : nat) :
  0 <= t -> Qle_bool 0 (Tracker.e_avgScrollSpeed (Tracker.engagement_of t d n)) = true.
Proof.
  intros Ht. apply Qle_bool_iff. cbn [Tracker.engagement_of Tracker.e_avgScrollSpeed].
  destruct (Z.ltb_spec 1 (Z.of_nat n)) as [L | L]; [ | apply Qle_refl].
  unfold js_div. apply b64_nonneg. apply Qle_shift_div_l.
  - change 0%Q with (inject_Z 0). rewrite <- Zlt_Qlt. lia.
  - rewrite Qmult_0_l. change 0%Q with (inject_Z 0). rewrite <- Zle_Qle. exact Ht.
Qed.

Section Endpoint.

Variable is_url : string -> bool.
Variable production : bool.

(** X6. The body sent on unload has no [scrollDepth], which the schema
    requires: whatever the beacon carries, the endpoint answers 400 and
    stores nothing. *)
Theorem beacon_rejected (st : storage) (req : request) (d : db) (b : Tracker.payload) :
  json_body req = Some (json_of_beacon b) ->
  safeParse is_url (json_of_beacon b) = None
  /\ status (fst (POST is_url production st req d)) = 400
  /\ snd (POST is_url production st req d) = d.
Proof.
  intros Hb.
  assert (E : safeParse is_url (json_of_beacon b) = None).
  { unfold safeParse, json_of_beacon.
    destruct (Tracker.totalTimeOnPage b), (Tracker.maxScrollDepth b),
      (Tracker.scrollEvents_n b), (Tracker.engagement_data b); cbn [opt app prop String.eqb Ascii.eqb Bool.eqb required];
      destruct (zstring 8 64 (JStr (Tracker.trackerId b))); reflexivity. }
  split; [exact E | ]. unfold POST. rewrite Hb, E. split; reflexivity.
Qed.

(** X7. A request sent by the script passes the schema, and is parsed to
    its own tracker id, depth, page and time, provided the tracker id has 8
    to 64 characters, the page address is a URL for the validator, the
    clock is positive and never before the start of the script, and the
    window reports a user agent of at most 512 characters and a size
    within 1..20000. *)
Theorem sent_request_passes_schema
    (TRACKER_ID href : string) (now : nat -> Z) (w : window)
    (evs : list Tracker.event) (p : Tracker.sent_event) :
  8 <= len TRACKER_ID <= 64 ->
  is_url href = true ->
  (forall k, 1 <= now k /\ now 0%nat <= now k) ->
  len (userAgent w) <= 512 ->
  1 <= innerWidth w <= 20000 ->
  1 <= innerHeight w <= 20000 ->
  In p (Tracker.sent (Tracker.run TRACKER_ID href now evs)) ->
  exists ev depth,
    safeParse is_url (json_of_post w (Tracker.body p)) = Some ev
    /\ Tracker.scrollDepth (Tracker.body p) = Some depth
    /\ trackerId ev = TRACKER_ID
    /\ scrollDepth ev = inject_Z depth
    /\ pageUrl ev = href
    /\ timestamp ev = Tracker.timestamp (Tracker.body p).
Proof.
  intros Hid Hurl Hnow Hua Hw Hh Hin.
  destruct (TrackerLogFacts.run_ok TRACKER_ID href now evs) as (_ & W & _).
  rewrite List.Forall_forall in W.
  destruct (W p Hin) as (k & n & depth & Hb & Hd & Hn & Hm). cbv zeta in Hb.
  destruct (Hnow k) as [N1 N2].
  assert (Ht : 0 <= now k - now 0%nat) by lia.
  assert (Hl : 0 <= len (userAgent w)) by (unfold len; lia).
  rewrite Hb. unfold json_of_post, safeParse.
  cbn [Tracker.trackerId Tracker.scrollDepth Tracker.pageUrl Tracker.timestamp
       Tracker.timeOnPage Tracker.totalTimeOnPage Tracker.maxScrollDepth
       Tracker.scrollEvents_n Tracker.engagement_data].
  destruct (Tracker.milestone p) as [m | ];
    cbn [opt app prop String.eqb Ascii.eqb Bool.eqb required optional zurl
         zdevice zengagement json_of_engagement Tracker.engagement_of
         Tracker.e_timeOnPage Tracker.e_maxDepth Tracker.e_scrollEvents];
    rewrite ?(zstring_ok 8 64 TRACKER_ID Hid), ?(znumber_jint depth Hd), ?Hurl,
      ?(zint_jint 1 None (now k) N1 I), ?(zint_jint 0 None _ Ht I),
      ?(zint_jint 0 None (Z.of_nat n) (Nat2Z.is_nonneg n) I),
      ?(zstring_ok 0 512 (userAgent w) (conj Hl Hua)),
      ?(zint_jint 1 (Some 20000) (innerWidth w) (proj1 Hw) (proj2 Hw)),
      ?(zint_jint 1 (Some 20000) (innerHeight w) (proj1 Hh) (proj2 Hh));
    cbn [mbind option_bind option_map mret option_ret];
    rewrite ?(zstring_ok 8 64 TRACKER_ID Hid), ?(znumber_jint depth Hd), ?Hurl,
      ?(zint_jint 1 None (now k) N1 I), ?(zint_jint 0 None _ Ht I),
      ?(zint_jint 0 None (Z.of_nat n) (Nat2Z.is_nonneg n) I);
    cbn [mbind option_bind option_map mret option_ret].
  - pose proof (avgScrollSpeed_nonneg (now k - now 0%nat) depth n Ht) as Hs.
    rewrite Hs.
    cbn [mbind option_bind option_map mret option_ret].
    eexists. exists depth. repeat split; reflexivity.
  - eexists. exists depth. repeat split; reflexivity.
Qed.

End Endpoint.

Lemma beacon_rejected_witness :
  json_body (request_with (json_of_beacon sample_beacon))
  = Some (json_of_beacon sample_beacon)
  /\ status (fst (POST https_url true storage_ok
                    (request_with (json_of_beacon sample_beacon)) other_db)) = 400.
Proof.
  split; [reflexivity | ].
  exact (proj1 (proj2 (beacon_rejected https_url true storage_ok
                         (request_with (json_of_beacon sample_beacon)) other_db
                         sample_beacon eq_refl))).
Defined.

Lemma sent_request_passes_schema_witness :
  In load_post
    (Tracker.sent
       (Tracker.run "abcd1234" "https://example.com/" TrackerLog.sample_clock
          TrackerLog.sample_visit))
  /\ exists ev depth,
       safeParse https_url (json_of_post sample_window (Tracker.body load_post)) = Some ev
       /\ Tracker.scrollDepth (Tracker.body load_post) = Some depth
       /\ trackerId ev = "abcd1234"
       /\ scrollDepth ev = inject_Z depth
       /\ pageUrl ev = "https://example.com/"
       /\ timestamp ev = Tracker.timestamp (Tracker.body load_post).
Proof.
  assert (Hin : In load_post
                  (Tracker.sent
                     (Tracker.run "abcd1234" "https://example.com/"
                        TrackerLog.sample_clock TrackerLog.sample_visit))).
  { vm_compute. left. reflexivity. }
  split; [exact Hin | ].
  apply (sent_request_passes_schema https_url "abcd1234" "https://example.com/"
           TrackerLog.sample_clock sample_window TrackerLog.sample_visit load_post).
  - vm_compute. split; discriminate.
  - reflexivity.
  - intros k. unfold TrackerLog.sample_clock. lia.
  - vm_compute. discriminate.
  - vm_compute. split; discriminate.
  - vm_compute. split; discriminate.
  - exact Hin.
Defined.

End WireFacts.

(** ** The endpoint *)

Module TrackRowsFacts.

Import Track TrackRows.

Local Open Scope string_scope.
Local Open Scope Z_scope.

Lemma zstring_inv (lo hi : Z) (v : json) (s : string) :
  zstring lo hi v = Some s -> v = JStr s /\ lo <= len s <= hi.
Proof.
  unfold zstring. destruct v as [ | | | s' | | ]; try discriminate.
  destruct (Z.leb_spec lo (len s')), (Z.leb_spec (len s') hi); try discriminate.
  intros [= <-]. split; [reflexivity | lia].
Qed.

Lemma znumber_inv (lo hi : Q) (v : json) (q : Q) :
  znumber lo hi v = Some q -> v = JNum q /\ (lo <= q <= hi)%Q.
Proof.
  unfold znumber. destruct v as [ | | q' | | | ]; try discriminate.
  destruct (Qle_bool lo q') eqn:E1, (Qle_bool q' hi) eqn:E2; try discriminate.
  intros [= <-]. apply Qle_bool_iff in E1, E2. split; [reflexivity | split; assumption].
Qed.

Lemma zint_inv (lo : Z) (hi : option Z) (v : json) (z : Z) :
  zint lo hi v = Some z ->
  lo <= z /\ match hi with Some h => z <= h | None => True end.
Proof.
  unfold zint. destruct v as [ | | q | | | ]; try discriminate.
  destruct (is_int q); [ | discriminate]. cbn [andb].
  destruct (Z.leb_spec lo (to_Z q)); [ | discriminate]. cbn [andb].
  destruct hi as [h | ].
  - destruct (Z.leb_spec (to_Z q) h); [ | discriminate]. intros [= <-]. split; assumption.
  - intros [= <-]. split; [assumption | exact I].
Qed.

Lemma required_inv {A} (f : json -> option A) (v : option json) (a : A) :
  required f v = Some a -> exists j, v = Some j /\ f j = Some a.
Proof. destruct v as [j | ]; [ | discriminate]. intros H. exists j. split; [reflexivity | exact H]. Qed.

Lemma optional_inv {A} (f : json -> option A) (v : option json) (a : option A) :
  optional f v = Some a ->
  match a with
  | Some x => exists j, v = Some j /\ f j = Some x
  | None => v = None
  end.
Proof.
  destruct v as [j | ]; cbn.
  - destruct (f j) as [x | ] eqn:E; [ | discriminate]. intros [= <-]. exists j.
    split; [reflexivity | exact E].
  - intros [= <-]. reflexivity.
Qed.

Lemma optional_zint (lo : Z) (hi : option Z) (v : option json) (a : option Z) :
  optional (zint lo hi) v = Some a ->
  match a with
  | Some z => lo <= z /\ match hi with Some h => z <= h | None => True end
  | None => True
  end.
Proof.
  intros H. apply optional_inv in H. destruct a as [z | ]; [ | exact I].
  destruct H as (j & _ & H). apply zint_inv in H. exact H.
Qed.

Lemma zengagement_inv (v : json) (e : engagement) :
  zengagement v = Some e ->
  0 <= e_timeOnPage e /\ (0 <= e_maxDepth e <= 100)%Q
  /\ 0 <= e_scrollEvents e /\ (0 <= e_avgScrollSpeed e)%Q.
Proof.
  unfold zengagement. destruct v as [ | | | | | props]; try discriminate.
  intros H.
  apply bind_Some in H. destruct H as (a & Ha & H).
  apply bind_Some in H. destruct H as (b & Hb & H).
  apply bind_Some in H. destruct H as (c & Hc & H).
  apply bind_Some in H. destruct H as (d & Hd & H).
  injection H as <-. cbn.
  apply required_inv in Ha, Hb, Hc, Hd.
  destruct Ha as (? & _ & Ha), Hb as (? & _ & Hb), Hc as (? & _ & Hc), Hd as (j & _ & Hd).
  apply zint_inv in Ha, Hc. apply znumber_inv in Hb.
  split; [apply Ha | ]. split; [apply Hb | ]. split; [apply Hc | ].
  destruct j as [ | | q | | | ]; try discriminate.
  destruct (Qle_bool 0 q) eqn:E; [ | discriminate]. injection Hd as <-.
  apply Qle_bool_iff, E.
Qed.

Lemma zdevice_inv (v : json) (dv : device) : zdevice v = Some dv -> device_ok dv.
Proof.
  unfold zdevice. destruct v as [ | | | | | props]; try discriminate.
  intros H.
  apply bind_Some in H. destruct H as (a & Ha & H).
  apply bind_Some in H. destruct H as (b & Hb & H).
  apply bind_Some in H. destruct H as (c & Hc & H).
  injection H as <-. unfold device_ok. cbn.
  apply optional_inv in Ha. apply optional_zint in Hb, Hc.
  split; [ | split].
  - destruct a as [s | ]; [ | exact I]. destruct Ha as (j & _ & Ha).
    apply zstring_inv in Ha. lia.
  - destruct b; [lia | exact I].
  - destruct c; [lia | exact I].
Qed.

Section Endpoint.

Variable is_url : string -> bool.
Variable production : bool.

(** The inversion of [safeParse]: each validator that succeeded gives its
    bounds. *)
Lemma safeParse_inv (body : json) (ev : track_event) :
  safeParse is_url body = Some ev ->
  parsed_ok is_url ev
  /\ exists props,
      body = JObj props
      /\ prop "trackerId" props = Some (JStr (trackerId ev))
      /\ prop "scrollDepth" props = Some (JNum (scrollDepth ev)).
Proof.
  unfold safeParse. destruct body as [ | | | | | props]; try discriminate.
  intros H.
  apply bind_Some in H. destruct H as (a & Ha & H).
  apply bind_Some in H. destruct H as (b & Hb & H).
  apply bind_Some in H. destruct H as (c & Hc & H).
  apply bind_Some in H. destruct H as (d & Hd & H).
  apply bind_Some in H. destruct H as (e & He & H).
  apply bind_Some in H. destruct H as (f & Hf & H).
  apply bind_Some in H. destruct H as (g & Hg & H).
  apply bind_Some in H. destruct H as (h & Hh & H).
  apply bind_Some in H. destruct H as (i & Hi & H).
  apply bind_Some in H. destruct H as (j & Hj & H).
  injection H as <-.
  apply required_inv in Ha, Hb, Hc, Hd.
  destruct Ha as (ja & Pa & Ha), Hb as (jb & Pb & Hb), Hc as (jc & Pc & Hc),
    Hd as (jd & Pd & Hd).
  apply zstring_inv in Ha. destruct Ha as [-> Ha].
  apply znumber_inv in Hb. destruct Hb as [-> Hb].
  apply zint_inv in Hd.
  apply optional_zint in He, Hf, Hh.
  apply optional_inv in Hg, Hi, Hj.
  split.
  - unfold parsed_ok. cbn.
    split; [exact Ha | ]. split; [exact Hb | ]. split.
    { unfold zurl in Hc. destruct jc as [ | | | s | | ]; try discriminate.
      destruct (is_url s) eqn:E; [ | discriminate]. injection Hc as <-. exact E. }
    split; [apply Hd | ].
    split; [destruct e; [apply He | exact I] | ].
    split; [destruct f; [apply Hf | exact I] | ].
    split.
    { destruct g as [q | ]; [ | exact I]. destruct Hg as (? & _ & Hg).
      apply znumber_inv in Hg. apply Hg. }
    split; [destruct h; [apply Hh | exact I] | ].
    split.
    { destruct i as [en | ]; [ | exact I]. destruct Hi as (? & _ & Hi).
      apply zengagement_inv in Hi. exact Hi. }
    destruct j as [dv | ]; [ | exact I]. destruct Hj as (? & _ & Hj).
    apply zdevice_inv in Hj. exact Hj.
  - exists props. cbn. split; [reflexivity | ]. split; assumption.
Qed.

(** X8. What the schema accepts is within its bounds, and the tracker id
    and the depth are those of the body: the body is an object whose
    [trackerId] is a string of 8 to 64 characters and whose [scrollDepth]
    is a number in [0, 100]. *)
Theorem safeParse_sound (body : json) (ev : track_event) :
  safeParse is_url body = Some ev ->
  parsed_ok is_url ev
  /\ exists props,
      body = JObj props
      /\ prop "trackerId" props = Some (JStr (trackerId ev))
      /\ prop "scrollDepth" props = Some (JNum (scrollDepth ev)).
Proof. exact (safeParse_inv body ev). Qed.

Lemma int_or_null_positive (x : option Z) :
  nonneg_or_absent x -> positive_or_null (int_or_null x).
Proof.
  destruct x as [z | ]; cbn; [ | trivial]. intros H.
  destruct (Z.eqb_spec z 0); cbn; [trivial | lia].
Qed.

Lemma str_or_null_nonempty (x : option string) (s : string) :
  str_or_null x = Some s -> x = Some s /\ 1 <= len s.
Proof.
  destruct x as [s' | ]; cbn; [ | discriminate].
  destruct (String.eqb_spec s' ""); [discriminate | ]. intros [= <-].
  split; [reflexivity | ]. destruct s'; [contradiction | unfold len; cbn; lia].
Qed.

Lemma header_or_nonempty (x : option string) (d : string) :
  d <> "" -> header_or x d <> "".
Proof.
  intros Hd. unfold header_or. destruct (str_or_null x) as [s | ] eqn:E; [ | exact Hd].
  apply str_or_null_nonempty in E. destruct E as [_ E]. intros ->. unfold len in E. cbn in E. lia.
Qed.

Lemma viewport_of_device (dv : option device) (f : device -> option Z) :
  (forall d, dv = Some d ->
             match f d with Some z => 1 <= z <= 20000 | None => True end) ->
  viewport_ok (int_or_null (dv ≫= f)).
Proof.
  intros H. destruct dv as [d | ]; cbn; [ | trivial].
  specialize (H d eq_refl). destruct (f d) as [z | ]; cbn; [ | trivial].
  destruct (Z.eqb_spec z 0); cbn; [trivial | lia].
Qed.

(** The row built from a parsed body for an existing tracker. *)
Lemma row_of_ok (req : request) (ev : track_event) (d : db) :
  parsed_ok is_url ev -> tracker_exists d (trackerId ev) ->
  timestamp ev <= 8640000000000000 ->
  row_ok (trackers d) (row_of req ev (timestamp ev)).
Proof.
  intros (P1 & P2 & _ & P4 & P5 & P6 & P7 & P8 & _ & P10) Hex Hts.
  unfold row_ok. cbn [row_of tracker_id scroll_depth occurred_at time_on_page
                      total_time_on_page scroll_events_count max_scroll_depth ua
                      viewport_w viewport_h ip_address].
  split; [exact Hex | ]. split; [exact P1 | ]. split; [exact P2 | ].
  split; [lia | ].
  split; [apply int_or_null_positive, P5 | ].
  split; [apply int_or_null_positive, P6 | ].
  split; [apply int_or_null_positive, P8 | ].
  split.
  { destruct (maxScrollDepth ev) as [q | ]; cbn; [ | trivial].
    destruct (Qeq_bool q 0) eqn:E; cbn; [trivial | ].
    split; [ | exact P7]. intros C. apply Qeq_bool_iff in C. congruence. }
  split.
  { destruct (str_or_null (device_data ev ≫= d_ua)) as [s | ] eqn:E; [ | trivial].
    apply str_or_null_nonempty in E. destruct E as [E L]. split; [exact L | ].
    destruct (device_data ev) as [dv | ]; [ | discriminate E]. cbn in E.
    destruct P10 as [U _]. rewrite E in U. exact U. }
  split.
  { apply viewport_of_device. intros dv E. rewrite E in P10. apply P10. }
  split.
  { apply viewport_of_device. intros dv E. rewrite E in P10. apply P10. }
  apply header_or_nonempty, header_or_nonempty. discriminate.
Qed.

Lemma find_tracker_spec (d : db) (id : string) :
  match find_tracker d id with
  | Some _ => tracker_exists d id
  | None => ~ tracker_exists d id
  end.
Proof.
  unfold find_tracker, tracker_exists.
  destruct (find (String.eqb id) (trackers d)) as [x | ] eqn:E.
  - apply find_some in E. destruct E as [E1 E2]. apply String.eqb_eq in E2. subst x. exact E1.
  - intros Hin. apply (find_none _ _ E) in Hin. rewrite String.eqb_refl in Hin. discriminate.
Qed.

(** X9. A [scrollDepth] outside [0, 100] is answered with 400 and nothing
    is stored, whatever else the body holds and whatever the storage does. *)
Theorem depth_out_of_range_rejected
    (st : storage) (req : request) (d : db) (props : list (string * json)) (q : Q) :
  json_body req = Some (JObj props) ->
  prop "scrollDepth" props = Some (JNum q) ->
  (q < 0 \/ 100 < q)%Q ->
  POST is_url production st req d
  = ({| status := 400; reply_body := Invalid "Invalid payload";
        allow_origin := getCorsHeaders production (origin req) |}, d).
Proof.
  intros Hb Hq Hr. unfold POST. rewrite Hb.
  destruct (safeParse is_url (JObj props)) as [ev | ] eqn:E; [exfalso | reflexivity].
  destruct (safeParse_inv _ _ E) as ((_ & P2 & _) & props' & Hp & _ & Hd).
  injection Hp as <-. rewrite Hq in Hd. injection Hd as Hq'.
  rewrite <- Hq' in P2. destruct P2 as [L U]. destruct Hr as [Hr | Hr].
  - apply (Qlt_not_le _ _ Hr), L.
  - apply (Qlt_not_le _ _ Hr), U.
Qed.

(** X10. One request changes the store by at most one row: the trackers
    are never touched, the status is 204, 400, 404 or 500, and either the
    status is 204 and exactly one row is appended, which satisfies the
    constraints of the table for the trackers of the store, or the store
    is as it was. *)
Theorem POST_effect (st : storage) (req : request) (d : db) :
  let resp := fst (POST is_url production st req d) in
  let d' := snd (POST is_url production st req d) in
  trackers d' = trackers d
  /\ In (status resp) [204; 400; 404; 500]
  /\ ((status resp = 204
       /\ exists r, scroll_events d' = (scroll_events d ++ [r])%list /\ row_ok (trackers d) r)
      \/ (status resp <> 204 /\ d' = d)).
Proof.
  unfold POST. destruct (json_body req) as [body | ].
  2: { cbn. split; [reflexivity | ]. split; [auto | ]. right. split; [discriminate | reflexivity]. }
  destruct (safeParse is_url body) as [ev | ] eqn:E.
  2: { cbn. split; [reflexivity | ]. split; [auto | ]. right. split; [discriminate | reflexivity]. }
  destruct (lookup_fails st).
  { cbn. split; [reflexivity | ]. split; [auto 6 | ]. right. split; [discriminate | reflexivity]. }
  pose proof (find_tracker_spec d (trackerId ev)) as Hf.
  destruct (find_tracker d (trackerId ev)) as [x | ].
  2: { cbn. split; [reflexivity | ]. split; [auto 6 | ]. right. split; [discriminate | reflexivity]. }
  unfold toISOString. destruct (Z.leb_spec (timestamp ev) 8640000000000000) as [L | L].
  2: { cbn. split; [reflexivity | ]. split; [auto 6 | ]. right. split; [discriminate | reflexivity]. }
  destruct (insert_fails st).
  { cbn. split; [reflexivity | ]. split; [auto 6 | ]. right. split; [discriminate | reflexivity]. }
  cbn [fst snd status trackers scroll_events].
  split; [reflexivity | ]. split; [left; reflexivity | ]. left. split; [reflexivity | ].
  eexists. split; [reflexivity | ].
  apply row_of_ok; [apply (safeParse_inv _ _ E) | exact Hf | exact L].
Qed.

(** X11. A valid body for an existing tracker, with a time within the range
    of dates and a storage that works, is answered 204 with no body and
    the allowed origin [*] (in production too), and is stored as the last
    row: its tracker id, depth, page and time are those of the body, and
    the address is the forwarding header, or else the real-ip header, or
    else [unknown]. *)
Theorem valid_event_stored
    (st : storage) (req : request) (d : db) (body : json) (ev : track_event) :
  json_body req = Some body ->
  safeParse is_url body = Some ev ->
  tracker_exists d (trackerId ev) ->
  timestamp ev <= 8640000000000000 ->
  lookup_fails st = false -> insert_fails st = false ->
  exists r,
    POST is_url production st req d
    = ({| status := 204; reply_body := NoContent; allow_origin := Some "*" |},
       {| trackers := trackers d; scroll_events := (scroll_events d ++ [r])%list |})
    /\ tracker_id r = trackerId ev /\ scroll_depth r = scrollDepth ev
    /\ page_url r = pageUrl ev /\ occurred_at r = timestamp ev
    /\ ip_address r
       = match x_forwarded_for req, x_real_ip req with
         | Some a, _ => if String.eqb a "" then
                          match x_real_ip req with
                          | Some b => if String.eqb b "" then "unknown" else b
                          | None => "unknown"
                          end
                        else a
         | None, Some b => if String.eqb b "" then "unknown" else b
         | None, None => "unknown"
         end.
Proof.
  intros Hb Hp Hex Hts Hl Hi. unfold POST. rewrite Hb, Hp, Hl.
  pose proof (find_tracker_spec d (trackerId ev)) as Hf.
  destruct (find_tracker d (trackerId ev)) as [x | ]; [ | contradiction].
  unfold toISOString. destruct (Z.leb_spec (timestamp ev) 8640000000000000); [ | lia].
  rewrite Hi. eexists. split; [reflexivity | ].
  cbn [row_of tracker_id scroll_depth page_url occurred_at ip_address].
  repeat (split; [reflexivity | ]).
  unfold header_or, str_or_null.
  destruct (x_forwarded_for req) as [a | ], (x_real_ip req) as [b | ];
    try destruct (String.eqb a ""); try destruct (String.eqb b ""); reflexivity.
Qed.

(** X12. A time beyond the range of dates (more than 8.64e15 ms, and at
    most [2 ^ 53 - 1], an integer that a number holds exactly) passes the
    schema but makes the conversion to an ISO string throw: the answer is
    500 and nothing is stored, although the body is valid and the tracker
    exists. *)
Theorem time_out_of_range_fails
    (st : storage) (req : request) (d : db) (body : json) (ev : track_event) :
  json_body req = Some body ->
  safeParse is_url body = Some ev ->
  tracker_exists d (trackerId ev) ->
  lookup_fails st = false ->
  8640000000000000 < timestamp ev <= 9007199254740991 ->
  POST is_url production st req d
  = ({| status := 500; reply_body := Error "Server error"; allow_origin := Some "*" |}, d).
Proof.
  intros Hb Hp Hex Hl [Hts _]. unfold POST. rewrite Hb, Hp, Hl.
  pose proof (find_tracker_spec d (trackerId ev)) as Hf.
  destruct (find_tracker d (trackerId ev)) as [x | ]; [ | contradiction].
  unfold toISOString. destruct (Z.leb_spec (timestamp ev) 8640000000000000); [lia | ].
  reflexivity.
Qed.

End Endpoint.

Lemma safeParse_sound_witness :
  exists ev, safeParse https_url sample_body = Some ev /\ parsed_ok https_url ev.
Proof.
  assert (E : exists ev, safeParse https_url sample_body = Some ev).
  { vm_compute. eexists. reflexivity. }
  destruct E as [ev E]. exists ev. split; [exact E | ].
  exact (proj1 (safeParse_sound https_url sample_body ev E)).
Defined.

Lemma depth_out_of_range_rejected_witness :
  POST https_url true storage_ok (request_of (JObj deep_props)) own_db
  = ({| status := 400; reply_body := Invalid "Invalid payload";
        allow_origin := getCorsHeaders true (Some "https://example.com") |}, own_db).
Proof.
  apply (depth_out_of_range_rejected https_url true storage_ok
           (request_of (JObj deep_props)) own_db deep_props 150).
  - reflexivity.
  - reflexivity.
  - right. reflexivity.
Defined.

Lemma valid_event_stored_witness :
  exists r,
    POST https_url true storage_ok (request_of sample_body) own_db
    = ({| status := 204; reply_body := NoContent; allow_origin := Some "*" |},
       {| trackers := ["abcd1234"]; scroll_events := [r] |})
    /\ ip_address r = "10.0.0.2".
Proof.
  assert (E : exists ev, safeParse https_url sample_body = Some ev
                         /\ trackerId ev = "abcd1234"
                         /\ timestamp ev = 1700000000000).
  { vm_compute. eexists. repeat split. }
  destruct E as (ev & E & Hid & Hts).
  assert (Hex : tracker_exists own_db (trackerId ev)).
  { rewrite Hid. left. reflexivity. }
  assert (Hle : timestamp ev <= 8640000000000000).
  { rewrite Hts. vm_compute. discriminate. }
  destruct (valid_event_stored https_url true storage_ok (request_of sample_body)
              own_db sample_body ev eq_refl E Hex Hle eq_refl eq_refl)
    as (r & H & _ & _ & _ & _ & Hip).
  exists r. split; [exact H | exact Hip].
Defined.

Lemma time_out_of_range_fails_witness :
  POST https_url true storage_ok (request_of late_body) own_db
  = ({| status := 500; reply_body := Error "Server error"; allow_origin := Some "*" |},
     own_db).
Proof.
  assert (E : exists ev, safeParse https_url late_body = Some ev
                         /\ trackerId ev = "abcd1234"
                         /\ timestamp ev = 9000000000000000).
  { vm_compute. eexists. repeat split. }
  destruct E as (ev & E & Hid & Hts).
  apply (time_out_of_range_fails https_url true storage_ok (request_of late_body)
           own_db late_body ev).
  - reflexivity.
  - exact E.
  - rewrite Hid. left. reflexivity.
  - reflexivity.
  - rewrite Hts. split; [reflexivity | discriminate].
Defined.

(** X13. Outside production every origin is allowed.  In production the
    header of [getCorsHeaders] is always one of the two allowed origins,
    the caller's own when it is one of them and the first otherwise; the
    replies 400 and 404 carry that header, while the reply 204 carries
    [*]. *)
Theorem cors_allow_list
    (is_url : string -> bool) (st : storage) (req : request) (d : db) :
  getCorsHeaders false (origin req) = Some "*"
  /\ (exists o,
        getCorsHeaders true (origin req) = Some o
        /\ In o (allowedOrigins true)
        /\ (includes (allowedOrigins true) (origin req) = true -> origin req = Some o)
        /\ (includes (allowedOrigins true) (origin req) = false
            -> o = "https://yourdomain.com"))
  /\ let resp := fst (POST is_url true st req d) in
     (status resp = 400 \/ status resp = 404 ->
      allow_origin resp = getCorsHeaders true (origin req))
     /\ (status resp = 204 -> allow_origin resp = Some "*").
Proof.
  split; [reflexivity | ]. split.
  - unfold getCorsHeaders. cbn [allowedOrigins includes existsb String.eqb Ascii.eqb Bool.eqb orb].
    destruct (origin req) as [a | ]; cbn [includes existsb].
    + destruct (String.eqb_spec a "https://yourdomain.com") as [-> | N1]; cbn [orb].
      * eexists. split; [reflexivity | ]. split; [left; reflexivity | ].
        split; [reflexivity | discriminate].
      * destruct (String.eqb_spec a "https://www.yourdomain.com") as [-> | N2]; cbn [orb].
        -- eexists. split; [reflexivity | ]. split; [right; left; reflexivity | ].
           split; [reflexivity | discriminate].
        -- eexists. split; [reflexivity | ]. split; [left; reflexivity | ].
           split; [discriminate | reflexivity].
    + eexists. split; [reflexivity | ]. split; [left; reflexivity | ].
      split; [discriminate | reflexivity].
  - unfold POST. destruct (json_body req) as [body | ];
      [ | cbn; split; [intros [H | H]; discriminate H | discriminate]].
    destruct (safeParse is_url body) as [ev | ];
      [ | cbn; split; [reflexivity | discriminate]].
    destruct (lookup_fails st); [cbn; split; [intros [H | H]; discriminate H | discriminate] | ].
    destruct (find_tracker d (trackerId ev)); [ | cbn; split; [reflexivity | discriminate]].
    destruct (toISOString (timestamp ev));
      [ | cbn; split; [intros [H | H]; discriminate H | discriminate]].
    destruct (insert_fails st); cbn; (split; [intros [H | H]; discriminate H | ]);
      [discriminate | reflexivity].
Qed.

End TrackRowsFacts.

(** ** Percentages: bounds and order *)

Module PercentBounds.

Import JsNumber JsNumberFacts Dashboard PercentFacts MilestoneFacts.

Local Open Scope Z_scope.

Lemma ilog2_unique (x : Q) (k : Z) :
  (0 < x)%Q -> (2 ^ k <= x)%Q -> (x < 2 ^ (k + 1))%Q -> ilog2 x = k.
Proof.
  intros Hx H1 H2. destruct (ilog2_spec x Hx) as [S1 S2].
  assert (k < ilog2 x + 1) by (apply pow2_lt_inv; lra).
  assert (ilog2 x < k + 1) by (apply pow2_lt_inv; lra).
  lia.
Qed.

Lemma ilog2_comp (x y : Q) : (0 < x)%Q -> (x == y)%Q -> ilog2 x = ilog2 y.
Proof.
  intros Hx E. destruct (ilog2_spec x Hx) as [S1 S2].
  symmetry. apply ilog2_unique; lra.
Qed.

Lemma round_pos_comp (x y : Q) : (0 < x)%Q -> (x == y)%Q -> (round_pos x == round_pos y)%Q.
Proof.
  intros Hx E. unfold round_pos, ulp_exp. rewrite <- (ilog2_comp x y Hx E).
  set (e := Z.max (ilog2 x - (prec - 1)) emin).
  assert (E' : (x / 2 ^ e == y / 2 ^ e)%Q) by (rewrite E; reflexivity).
  rewrite (rne_comp _ _ E'). reflexivity.
Qed.

(** Rounding to binary64 depends on the value only, not on the fraction
    that denotes it. *)
Lemma b64_comp (x y : Q) : (x == y)%Q -> (b64 x == b64 y)%Q.
Proof.
  intros E. destruct (Qlt_le_dec 0 x) as [P | N].
  - rewrite (b64_pos x P), (b64_pos y) by lra. apply round_pos_comp; assumption.
  - destruct (Qlt_le_dec x 0) as [P' | N'].
    + assert (Hx : b64 x = (- round_pos (- x))%Q).
      { unfold b64. destruct x as [[ | p | p] d]; cbn; [discriminate P' | discriminate P' | reflexivity]. }
      assert (P'' : (y < 0)%Q) by lra.
      assert (Hy : b64 y = (- round_pos (- y))%Q).
      { unfold b64. destruct y as [[ | p | p] d]; cbn; [discriminate P'' | discriminate P'' | reflexivity]. }
      rewrite Hx, Hy. apply Qopp_comp. apply round_pos_comp; lra.
    + rewrite (b64_zero x), (b64_zero y) by lra. reflexivity.
Qed.

Lemma percent_all (t : Z) : 1 <= t -> percent t t = 100.
Proof.
  intros Ht. unfold percent, js_mul, js_div, Math_round.
  assert (HT : (0 < inject_Z t)%Q).
  { change 0%Q with (inject_Z 0). rewrite <- Zlt_Qlt. lia. }
  assert (E1 : (inject_Z t / inject_Z t == 1)%Q) by (field; lra).
  assert (E2 : (b64 (inject_Z t / inject_Z t) == 1)%Q).
  { rewrite (b64_comp _ _ E1). reflexivity. }
  assert (E3 : (b64 (inject_Z t / inject_Z t) * 100 == 100)%Q) by (rewrite E2; reflexivity).
  assert (E4 : (b64 (b64 (inject_Z t / inject_Z t) * 100) + (1 # 2) == 100 + (1 # 2))%Q).
  { rewrite (b64_comp _ _ E3). reflexivity. }
  rewrite (Qfloor_comp _ _ E4). reflexivity.
Qed.

(** A percentage of a part is between 0 and 100. *)
Lemma percent_bounds (c t : Z) : 0 <= c <= t -> 1 <= t -> 0 <= percent c t <= 100.
Proof.
  intros Hc Ht. split.
  - rewrite <- (percent_0 t). apply percent_mono; lia.
  - rewrite <- (percent_all t Ht). apply percent_mono; lia.
Qed.

Lemma count_if_bounds (f : event -> bool) (l : list event) :
  0 <= count_if f l <= Z.of_nat (length l).
Proof. unfold count_if. pose proof (filter_length_le f l). lia. Qed.

Lemma count_ge_all (events : list event) (m : Z) :
  (forall e, In e events -> m <= scroll_depth e) ->
  count_ge events m = Z.of_nat (length events).
Proof.
  intros H. unfold count_ge. f_equal. f_equal.
  induction events as [ | e l IH]; [reflexivity | ]. cbn [List.filter].
  assert (E : (m <=? scroll_depth e) = true) by (apply Z.leb_le, H; left; reflexivity).
  rewrite E, IH; [reflexivity | ]. intros x Hx. apply H. right. exact Hx.
Qed.

Lemma count_ge_none (events : list event) (m : Z) :
  (forall e, In e events -> scroll_depth e < m) -> count_ge events m = 0.
Proof.
  intros H. unfold count_ge.
  replace (List.filter (fun e => m <=? scroll_depth e) events) with (@nil event); [reflexivity | ].
  induction events as [ | e l IH]; [reflexivity | ]. cbn [List.filter].
  assert (E : (m <=? scroll_depth e) = false) by (apply Z.leb_gt, H; left; reflexivity).
  rewrite E. apply IH. intros x Hx. apply H. right. exact Hx.
Qed.

Lemma count_ge_perm (l l' : list event) (m : Z) :
  Permutation l l' -> count_ge l m = count_ge l' m.
Proof.
  intros P. unfold count_ge. f_equal.
  induction P as [ | x l l' P IH | x y l | l l' l'' P1 IH1 P2 IH2]; cbn [List.filter].
  - reflexivity.
  - destruct (m <=? scroll_depth x); cbn [length]; rewrite IH; reflexivity.
  - destruct (m <=? scroll_depth x), (m <=? scroll_depth y); reflexivity.
  - rewrite IH1. exact IH2.
Qed.

(** X14. Each milestone percentage is between 0 and 100; it is 100 when the
    set is not empty and every event has reached the milestone, and 0 when
    no event has. *)
Theorem milestone_percentage_bounds (events : list event) (m : Z) :
  0 <= perc events m <= 100
  /\ (events <> [] -> (forall e, In e events -> m <= scroll_depth e) ->
      perc events m = 100)
  /\ ((forall e, In e events -> scroll_depth e < m) -> perc events m = 0).
Proof.
  pose proof (count_ge_bounds events m) as Hc.
  assert (Ht : 1 <= len_or_1 (Z.of_nat (length events))).
  { unfold len_or_1. destruct (Z.eqb_spec (Z.of_nat (length events)) 0); lia. }
  assert (Hle : Z.of_nat (length events) <= len_or_1 (Z.of_nat (length events))).
  { unfold len_or_1. destruct (Z.eqb_spec (Z.of_nat (length events)) 0); lia. }
  unfold perc. split; [apply percent_bounds; lia | ]. split.
  - intros Hne Hall. rewrite (count_ge_all events m Hall).
    assert (E : len_or_1 (Z.of_nat (length events)) = Z.of_nat (length events)).
    { unfold len_or_1. destruct (Z.eqb_spec (Z.of_nat (length events)) 0) as [E | E];
        [ | reflexivity]. destruct events; [contradiction | discriminate E]. }
    rewrite E. apply percent_all. destruct events; [contradiction | cbn [length]; lia].
  - intros Hnone. rewrite (count_ge_none events m Hnone). apply percent_0.
Qed.

(** X15. The milestone statistics do not depend on the order of the
    events. *)
Theorem milestoneStats_order (events events' : list event) :
  Permutation events events' -> milestoneStats events = milestoneStats events'.
Proof.
  intros P. unfold milestoneStats, perc.
  rewrite !(count_ge_perm _ _ _ P), (Permutation_length P). reflexivity.
Qed.

Lemma milestoneStats_order_witness :
  milestoneStats [event_at 20; event_at 60; event_at 100]
  = milestoneStats [event_at 60; event_at 20; event_at 100].
Proof.
  apply (milestoneStats_order [event_at 20; event_at 60; event_at 100]
           [event_at 60; event_at 20; event_at 100]).
  apply perm_swap.
Defined.


End PercentBounds.

(** ** Visitors *)

Module VisitorFacts.

Import JsString Dashboard DashboardMaps.

Local Open Scope string_scope.
Local Open Scope Z_scope.

Lemma to_int32_shift (x k : Z) : to_int32 (x + k * 2 ^ 32) = to_int32 x.
Proof.
  unfold to_int32. replace (x + k * 2 ^ 32 + 2 ^ 31) with (x + 2 ^ 31 + k * 2 ^ 32) by ring.
  rewrite Z_mod_plus_full. reflexivity.
Qed.

Lemma to_int32_eq (x : Z) : exists k, to_int32 x = x + k * 2 ^ 32.
Proof.
  exists (- ((x + 2 ^ 31) / 2 ^ 32)). unfold to_int32.
  pose proof (Z.div_mod (x + 2 ^ 31) (2 ^ 32) ltac:(lia)). lia.
Qed.

(** [(a << 5) - a + c], wrapped, is [31 * a + c], wrapped. *)
Lemma hash_step_31 (a : Z) (b : ascii) :
  hash_step a b = to_int32 (31 * a + JsString.code b).
Proof.
  unfold hash_step. rewrite Z.shiftl_mul_pow2 by lia.
  destruct (to_int32_eq a) as [k1 ->].
  destruct (to_int32_eq ((a + k1 * 2 ^ 32) * 2 ^ 5)) as [k2 ->].
  replace ((a + k1 * 2 ^ 32) * 2 ^ 5 + k2 * 2 ^ 32 - a + JsString.code b)
    with (31 * a + JsString.code b + (32 * k1 + k2) * 2 ^ 32) by ring.
  apply to_int32_shift.
Qed.

(** X16. The hash of an address is the polynomial hash with multiplier 31
    of its code units, wrapped to a signed 32-bit integer: the shift and
    subtraction of the source multiply by 31. *)
Theorem ipHash_polynomial (a : string) :
  ipHash a = to_int32 (poly31 a)
  /\ forall s c,
      fold_left hash_step (s ++ [c])%list 0
      = to_int32 (31 * fold_left hash_step s 0 + JsString.code c).
Proof.
  split.
  - unfold ipHash, poly31.
    induction (list_ascii_of_string a) as [ | c l IH] using rev_ind; [reflexivity | ].
    rewrite !fold_left_app. cbn [fold_left]. rewrite hash_step_31, IH.
    destruct (to_int32_eq (fold_left (fun a0 c0 => 31 * a0 + JsString.code c0) l 0))
      as [k ->].
    replace (31 * (fold_left (fun a0 c0 => 31 * a0 + JsString.code c0) l 0 + k * 2 ^ 32)
             + JsString.code c)
      with (31 * fold_left (fun a0 c0 => 31 * a0 + JsString.code c0) l 0
            + JsString.code c + (31 * k) * 2 ^ 32) by ring.
    apply to_int32_shift.
  - intros s c. rewrite fold_left_app. cbn [fold_left]. apply hash_step_31.
Qed.

Lemma has_keys {A} (m : list (string * A)) (k : string) :
  has m k = true <-> In k (map fst m).
Proof.
  unfold has. rewrite existsb_exists. split.
  - intros [kv [H1 H2]]. apply String.eqb_eq in H2. subst k. apply in_map, H1.
  - intros H. apply in_map_iff in H. destruct H as [kv [H1 H2]].
    exists kv. split; [exact H2 | ]. apply String.eqb_eq, H1.
Qed.

Lemma collect_users_None (data : list visit) :
  forall acc,
    collect_users data acc = None <-> exists v, In v data /\ v_ip_address v = None.
Proof.
  induction data as [ | v data IH]; intros acc; cbn [collect_users].
  - split; [discriminate | intros [v [[] _]]].
  - destruct (v_ip_address v) as [a | ] eqn:Ha.
    + assert (R : (exists v0, In v0 (v :: data) /\ v_ip_address v0 = None)
                  <-> exists v0, In v0 data /\ v_ip_address v0 = None).
      { split; intros [v0 [Hin Hv]].
        - destruct Hin as [<- | Hin]; [congruence | ]. exists v0. split; assumption.
        - exists v0. split; [right; exact Hin | exact Hv]. }
      rewrite R. destruct (has acc a); apply IH.
    + split; [ | reflexivity]. intros _. exists v. split; [left; reflexivity | exact Ha].
Qed.

Lemma first_row_skip (a b : string) (v : visit) (data : list visit) :
  v_ip_address v = Some b -> a <> b -> first_row a (v :: data) = first_row a data.
Proof.
  intros Hv Hne. unfold first_row. cbn [find]. rewrite Hv.
  destruct (String.eqb_spec b a); [congruence | reflexivity].
Qed.

Lemma first_row_here (a : string) (v : visit) (data : list visit) :
  v_ip_address v = Some a -> first_row a (v :: data) = Some v.
Proof.
  intros Hv. unfold first_row. cbn [find]. rewrite Hv, String.eqb_refl. reflexivity.
Qed.

(** Every entry of the map was there before, or was made from the first
    row that carries its address. *)
Lemma collect_users_first (data : list visit) :
  forall acc res,
    collect_users data acc = Some res ->
    (exists new, res = (acc ++ new)%list /\ (length new <= length data)%nat)
    /\ forall a u,
        In (a, u) res ->
        In (a, u) acc
        \/ (has acc a = false
            /\ exists v, first_row a data = Some v /\ u = make_user a v).
Proof.
  induction data as [ | v data IH]; intros acc res H; cbn [collect_users] in H.
  - injection H as <-. split; [exists []; rewrite app_nil_r; split; [reflexivity | cbn; lia] | ].
    intros a u Hin. left. exact Hin.
  - destruct (v_ip_address v) as [b | ] eqn:Hb; [ | discriminate].
    destruct (has acc b) eqn:Hh.
    + destruct (IH acc res H) as ([new [Hn Hl]] & IH2).
      split; [exists new; split; [exact Hn | cbn; lia] | ].
      intros a u Hin. destruct (IH2 a u Hin) as [Hacc | (Hna & v' & Hv' & Hu)];
        [left; exact Hacc | right].
      split; [exact Hna | ]. exists v'. split; [ | exact Hu].
      rewrite (first_row_skip a b v data Hb); [exact Hv' | congruence].
    + destruct (IH _ res H) as ([new [Hn Hl]] & IH2).
      split.
      { exists ((b, make_user b v) :: new). rewrite Hn, <- app_assoc.
        split; [reflexivity | cbn; lia]. }
      intros a u Hin. destruct (IH2 a u Hin) as [Hacc | (Hna & v' & Hv' & Hu)].
      * apply in_app_or in Hacc. destruct Hacc as [Hacc | [[= <- <-] | []]];
          [left; exact Hacc | right].
        split; [exact Hh | ]. exists v. split; [apply first_row_here, Hb | reflexivity].
      * right.
        assert (Hab : a <> b).
        { intros ->. assert (X : has (acc ++ [(b, make_user b v)]) b = true).
          { apply has_keys. rewrite map_app. apply in_or_app. right. left. reflexivity. }
          congruence. }
        split.
        { destruct (has acc a) eqn:E; [ | reflexivity].
          assert (X : has (acc ++ [(b, make_user b v)]) a = true).
          { apply has_keys. apply has_keys in E. rewrite map_app. apply in_or_app.
            left. exact E. }
          congruence. }
        exists v'. split; [ | exact Hu].
        rewrite (first_row_skip a b v data Hb Hab). exact Hv'.
Qed.

(** X17. The load of the visitors fails (an exception, nothing is set)
    exactly when a fetched row has no address. *)
Theorem loadUserStats_null_address (data : list visit) :
  loadUserStats data = None <-> exists v, In v data /\ v_ip_address v = None.
Proof.
  unfold loadUserStats. rewrite <- (collect_users_None data []).
  destruct (collect_users data []); cbn; split; congruence.
Qed.

(** X18. Each visitor is made from the first fetched row that carries its
    address (the most recent one, the rows being fetched latest first): its
    last-seen time and its device are those of that row; and there are at
    most as many visitors as rows. *)
Theorem visitors_from_first_row (data : list visit) (users : list user) :
  loadUserStats data = Some users ->
  (length users <= length data)%nat
  /\ forall u,
      In u users ->
      exists v,
        first_row (ip u) data = Some v
        /\ u = make_user (ip u) v
        /\ lastSeen u = v_occurred_at v
        /\ deviceType u
           = getDeviceType (str_or (v_ua v) "") (num_or (v_viewport_w v) 0)
               (num_or (v_viewport_h v) 0).
Proof.
  unfold loadUserStats. intros H.
  destruct (collect_users data []) as [m | ] eqn:E; [ | discriminate].
  injection H as <-.
  destruct (collect_users_first data [] m E) as ([new [Hn Hl]] & Hf).
  cbn [app] in Hn. subst new. split.
  - unfold values. rewrite length_map. exact Hl.
  - intros u Hin. unfold values in Hin. apply in_map_iff in Hin.
    destruct Hin as [[a u'] [Hu Hin]]. cbn in Hu. subst u'.
    destruct (Hf a u Hin) as [[] | (_ & v & Hv & Hu)].
    assert (Ha : ip u = a) by (rewrite Hu; reflexivity).
    exists v. rewrite Ha. split; [exact Hv | ]. split; [exact Hu | ].
    rewrite Hu. split; reflexivity.
Qed.

Lemma visitors_from_first_row_witness :
  exists users,
    loadUserStats sample_visits = Some users
    /\ (length users <= length sample_visits)%nat.
Proof.
  assert (E : exists users, loadUserStats sample_visits = Some users).
  { vm_compute. eexists. reflexivity. }
  destruct E as [users E]. exists users. split; [exact E | ].
  exact (proj1 (visitors_from_first_row sample_visits users E)).
Defined.


Lemma residue_in_range (r : Z) (n : nat) :
  0 <= r < Z.of_nat n -> In r (map Z.of_nat (seq 0 n)).
Proof.
  intros H. apply in_map_iff. exists (Z.to_nat r). split; [lia | ].
  apply in_seq. lia.
Qed.

(** X19. For a residue below 96 the loop always leaves through [break];
    every country but the first is selected for exactly as many of the
    100 residues as its weight, and the first for its weight and the four
    residues that no cumulative weight reaches. *)
Theorem country_distribution :
  (forall r, 0 <= r < 96 -> snd (select_country r) = true)
  /\ Forall
       (fun c =>
          Z.of_nat (length (residues_of (code c)))
          = weight c + (if String.eqb (code c) (code countries_0) then 4 else 0))
       countries.
Proof.
  split.
  - intros r Hr.
    assert (A : forallb (fun r => snd (select_country r)) (map Z.of_nat (seq 0 96)) = true)
      by (vm_compute; reflexivity).
    rewrite forallb_forall in A. apply A. apply residue_in_range. exact Hr.
  - unfold countries. repeat constructor; vm_compute; reflexivity.
Qed.

End VisitorFacts.

(** ** Sessions *)

Module SessionFacts.

Import JsNumber JsString Dashboard DashboardMaps PercentBounds VisitorFacts.

Local Open Scope string_scope.
Local Open Scope Z_scope.

Lemma first_session_skip (k : string) (e : event) (l : list event) :
  session_key e <> k -> first_session k (e :: l) = first_session k l.
Proof.
  intros Hne. unfold first_session. cbn [find].
  destruct (String.eqb_spec (session_key e) k); [contradiction | ].
  rewrite andb_false_r. reflexivity.
Qed.

(** The map of the sessions: every entry was there before or is the first
    session with its key, the keys stay distinct, and every session met
    has its key in the map. *)
Lemma collect_sessions_first (l : list event) :
  forall acc,
    (forall e, In e l -> is_session e = true) ->
    List.NoDup (map fst acc) ->
    let res := collect_sessions l acc in
    List.NoDup (map fst res)
    /\ (exists new, res = (acc ++ new)%list /\ (length new <= length l)%nat)
    /\ (forall e, In e l -> In (session_key e) (map fst res))
    /\ forall k e,
        In (k, e) res ->
        In (k, e) acc
        \/ (has acc k = false /\ first_session k l = Some e /\ session_key e = k).
Proof.
  induction l as [ | x l IH]; intros acc Hs N; cbn [collect_sessions].
  - split; [exact N | ]. split; [exists []; rewrite app_nil_r; split; [reflexivity | cbn; lia] | ].
    split; [intros e [] | ]. intros k e Hin. left. exact Hin.
  - assert (Hs' : forall e, In e l -> is_session e = true).
    { intros e He. apply Hs. right. exact He. }
    destruct (has acc (session_key x)) eqn:Hh.
    + destruct (IH acc Hs' N) as (N' & [new [Hn Hl]] & K & F).
      split; [exact N' | ]. split; [exists new; split; [exact Hn | cbn; lia] | ]. split.
      * intros e [<- | He]; [ | apply K, He].
        rewrite Hn, map_app. apply in_or_app. left. apply has_keys, Hh.
      * intros k e Hin. destruct (F k e Hin) as [Hacc | (Hna & Hf & Hk)];
          [left; exact Hacc | right].
        split; [exact Hna | ]. split; [ | exact Hk].
        rewrite first_session_skip; [exact Hf | ]. intros E. congruence.
    + assert (N1 : List.NoDup (map fst (acc ++ [(session_key x, x)]))).
      { rewrite map_app. cbn [map fst]. apply List.NoDup_app.
        - exact N.
        - apply List.NoDup_cons; [intros [] | apply List.NoDup_nil].
        - intros k Hk [<- | []]. apply has_keys in Hk. congruence. }
      destruct (IH _ Hs' N1) as (N' & [new [Hn Hl]] & K & F).
      split; [exact N' | ]. split.
      { exists ((session_key x, x) :: new). rewrite Hn, <- app_assoc.
        split; [reflexivity | cbn; lia]. }
      split.
      * intros e [<- | He]; [ | apply K, He].
        rewrite Hn, !map_app. apply in_or_app. left. apply in_or_app. right. left. reflexivity.
      * intros k e Hin. destruct (F k e Hin) as [Hacc | (Hna & Hf & Hk)].
        -- apply in_app_or in Hacc. destruct Hacc as [Hacc | [[= <- <-] | []]];
             [left; exact Hacc | right].
           split; [exact Hh | ]. split; [ | reflexivity].
           unfold first_session. cbn [find]. rewrite (Hs x (or_introl eq_refl)).
           rewrite String.eqb_refl. reflexivity.
        -- right.
           assert (Hab : session_key x <> k).
           { intros <-. assert (X : has (acc ++ [(session_key x, x)]) (session_key x) = true).
             { apply has_keys. rewrite map_app. apply in_or_app. right. left. reflexivity. }
             congruence. }
           split.
           { destruct (has acc k) eqn:E; [ | reflexivity].
             assert (X : has (acc ++ [(session_key x, x)]) k = true).
             { apply has_keys. apply has_keys in E. rewrite map_app. apply in_or_app.
               left. exact E. }
             congruence. }
           split; [ | exact Hk]. rewrite first_session_skip; assumption.
Qed.

Lemma first_session_filter (k : string) (events : list event) :
  first_session k (List.filter is_session events) = first_session k events.
Proof.
  unfold first_session. induction events as [ | e l IH]; [reflexivity | ].
  cbn [List.filter find]. destruct (is_session e) eqn:E; cbn [find andb].
  - rewrite E. cbn [andb]. rewrite IH. reflexivity.
  - exact IH.
Qed.

(** What [sessionData_of] keeps of the events. *)
Lemma sessionData_of_spec (events : list event) :
  let sessionData := sessionData_of events in
  List.NoDup (map session_key sessionData)
  /\ (forall s, In s sessionData -> first_session (session_key s) events = Some s)
  /\ (forall e, In e events -> is_session e = true ->
                In (session_key e) (map session_key sessionData))
  /\ (length sessionData <= length events)%nat.
Proof.
  cbv zeta. unfold sessionData_of.
  fold is_session.
  assert (Hs : forall e, In e (List.filter is_session events) -> is_session e = true).
  { intros e He. apply filter_In in He. apply He. }
  destruct (collect_sessions_first (List.filter is_session events) [] Hs (List.NoDup_nil _))
    as (N & [new [Hn Hl]] & K & F).
  set (m := collect_sessions (List.filter is_session events) []) in *. clearbody m.
  cbn [app] in Hn. subst new.
  assert (Kv : forall k e, In (k, e) m -> session_key e = k
                                          /\ first_session k events = Some e).
  { intros k e Hin. destruct (F k e Hin) as [[] | (_ & Hf & Hk)].
    split; [exact Hk | ]. rewrite <- first_session_filter. exact Hf. }
  assert (Keys : map session_key (values m) = map fst m).
  { unfold values. rewrite map_map. apply map_ext_in. intros [k e] Hin.
    cbn. apply (Kv k e Hin). }
  rewrite Keys. split; [exact N | ]. split; [ | split].
  - intros s Hin. unfold values in Hin. apply in_map_iff in Hin.
    destruct Hin as [[k e] [He Hin]]. cbn in He. subst e.
    destruct (Kv k s Hin) as [Hk Hf]. rewrite Hk. exact Hf.
  - intros e He Hse. apply K. apply filter_In. split; assumption.
  - unfold values. rewrite length_map.
    pose proof (filter_length_le is_session events). lia.
Qed.

(** X20. The deduplicated sessions: their keys are pairwise distinct, each
    is the first event of the set with both session metrics and its key,
    every event with both metrics has its key among them, and there are at
    most as many as events. *)
Theorem sessions_deduplicated (events : list event) :
  let sessionData := sessionData_of events in
  List.NoDup (map session_key sessionData)
  /\ (forall s, In s sessionData -> first_session (session_key s) events = Some s)
  /\ (forall e, In e events -> is_session e = true ->
                In (session_key e) (map session_key sessionData))
  /\ (length sessionData <= length events)%nat.
Proof. exact (sessionData_of_spec events). Qed.

Lemma sessionData_of_none (events : list event) :
  (forall e, In e events -> is_session e = false) -> sessionData_of events = [].
Proof.
  intros H. unfold sessionData_of. fold is_session.
  replace (List.filter is_session events) with (@nil event); [reflexivity | ].
  symmetry. induction events as [ | e l IH]; [reflexivity | ]. cbn [List.filter].
  rewrite (H e (or_introl eq_refl)). apply IH. intros x Hx. apply H. right. exact Hx.
Qed.

(** X21. The overall engagement statistics: the number of sessions is the
    number of deduplicated sessions, at most the number of events; the
    completion and the active rates are between 0 and 100; and when no
    event has both session metrics everything is 0. *)
Theorem engagement_rates_bounds (events : list event) :
  let s := engagementStats events in
  totalSessions s = Z.of_nat (length (sessionData_of events))
  /\ totalSessions s <= Z.of_nat (length events)
  /\ 0 <= scrollCompletionRate s <= 100
  /\ 0 <= activeScrollRate s <= 100
  /\ ((forall e, In e events -> is_session e = false) -> s = no_engagement).
Proof.
  cbv zeta.
  destruct (sessionData_of_spec events) as (_ & _ & _ & Hl). cbv zeta in Hl.
  pose proof (sessionData_of_none events) as Hempty.
  unfold engagementStats. fold is_session.
  change (values (collect_sessions (List.filter is_session events) []))
    with (sessionData_of events).
  set (sd := sessionData_of events) in *. clearbody sd.
  destruct (Z.eqb_spec (Z.of_nat (length events)) 0) as [E0 | E0].
  { assert (length sd = 0%nat) by lia.
    cbn. split; [lia | ]. split; [lia | ]. split; [lia | ]. split; [lia | reflexivity]. }
  destruct (Z.eqb_spec (Z.of_nat (length sd)) 0) as [E1 | E1].
  { cbn. split; [lia | ]. split; [lia | ]. split; [lia | ]. split; [lia | reflexivity]. }
  cbn [totalSessions scrollCompletionRate activeScrollRate].
  split; [reflexivity | ]. split; [lia | ].
  split; [apply percent_bounds; [apply count_if_bounds | lia] | ].
  split; [apply percent_bounds; [apply count_if_bounds | lia] | ].
  intros H. rewrite (Hempty H) in E1. contradiction E1. reflexivity.
Qed.

End SessionFacts.

(** ** The key of a session *)

Module SessionKeyFacts.

Import JsString Dashboard DashboardMaps.

Local Open Scope string_scope.
Local Open Scope Z_scope.

Lemma digits_dash_free (d : Decimal.uint) : dash_free (NilEmpty.string_of_uint d).
Proof. induction d; cbn; [exact I | split; [discriminate | assumption] ..]. Qed.

Lemma string_of_Z_dash_free (z : Z) : 0 <= z -> dash_free (string_of_Z z).
Proof.
  intros Hz. unfold string_of_Z. destruct z as [ | p | p]; [ | | lia].
  - cbn. split; [discriminate | exact I].
  - cbn [Z.to_int NilZero.string_of_int]. unfold NilZero.string_of_uint.
    pose proof (digits_dash_free (Pos.to_uint p)) as H.
    destruct (Pos.to_uint p); try exact H. cbn. split; [discriminate | exact I].
Qed.

Lemma to_uint_nonnil (p : positive) : Pos.to_uint p <> Decimal.Nil.
Proof. apply DecimalPos.Unsigned.to_uint_nonnil. Qed.

(** Printing an integer in decimal loses nothing. *)
Lemma string_of_Z_inj (a b : Z) : string_of_Z a = string_of_Z b -> a = b.
Proof.
  unfold string_of_Z. intros H.
  assert (P : forall z, NilZero.int_of_string (NilZero.string_of_int (Z.to_int z))
                        = Some (Z.to_int z)).
  { intros z. apply NilZero.isi; destruct z as [ | p | p]; cbn; try discriminate;
      intros [= E]; apply (to_uint_nonnil p); exact E. }
  apply DecimalZ.to_int_inj.
  pose proof (P a) as Pa. rewrite H, P in Pa. congruence.
Qed.

Lemma split_at_dash (u u' v v' : string) :
  dash_free u -> dash_free u' ->
  (u ++ "-" ++ v)%string = (u' ++ "-" ++ v')%string -> u = u' /\ v = v'.
Proof.
  revert u'. induction u as [ | c u IH]; intros u' Hu Hu' E.
  - destruct u' as [ | c' u'].
    + cbn in E. injection E as E. split; [reflexivity | exact E].
    + cbn in E. injection E as E1 E2. destruct Hu' as [Hc _]. congruence.
  - destruct u' as [ | c' u'].
    + cbn in E. injection E as E1 E2. destruct Hu as [Hc _]. congruence.
    + cbn in E. injection E as E1 E2. destruct Hu as [_ Hu], Hu' as [_ Hu'].
      destruct (IH u' Hu Hu' E2) as [-> ->]. subst c'. split; reflexivity.
Qed.

(** X22. Two events whose time on page is not negative (the columns are
    32-bit integers, printed in plain decimal) have the same session key
    exactly when they agree on the time on page and on the maximum depth:
    the key loses nothing of the pair. *)
Theorem session_key_injective (e e' : event) (a a' b b' : Z) :
  total_time_on_page e = Some a -> total_time_on_page e' = Some a' ->
  max_scroll_depth e = Some b -> max_scroll_depth e' = Some b' ->
  0 <= a < 2 ^ 31 -> 0 <= a' < 2 ^ 31 ->
  - 2 ^ 31 <= b < 2 ^ 31 -> - 2 ^ 31 <= b' < 2 ^ 31 ->
  (session_key e = session_key e' <-> a = a' /\ b = b').
Proof.
  intros Ha Ha' Hb Hb' [Pa _] [Pa' _] _ _. unfold session_key. rewrite Ha, Ha', Hb, Hb'.
  cbn [show]. split.
  - intros E.
    destruct (split_at_dash _ _ _ _ (string_of_Z_dash_free a Pa)
                (string_of_Z_dash_free a' Pa') E) as [E1 E2].
    split; apply string_of_Z_inj; assumption.
  - intros [-> ->]. reflexivity.
Qed.

Lemma session_key_injective_witness :
  session_key desktop_session = session_key mobile_session
  <-> 20000 = 45000 /\ 100 = 60.
Proof.
  apply (session_key_injective desktop_session mobile_session 20000 45000 100 60);
    try reflexivity; vm_compute; split; first [reflexivity | discriminate].
Defined.


End SessionKeyFacts.

(** ** The four classes of [getDeviceType] *)

Module DeviceMore.

Import JsString Dashboard DashboardMaps.

Local Open Scope string_scope.
Local Open Scope Z_scope.

(** Lower-casing a code unit never changes whether an ASCII code unit
    matches it under the [i] flag: checked on all pairs of code units. *)
Lemma eq_ci_lower_all :
  forallb
    (fun a =>
       forallb
         (fun c =>
            implb (JsString.code a <? 128)
              (Bool.eqb (eq_ci a (lower_unit c)) (eq_ci a c)))
         all_units)
    all_units = true.
Proof. vm_compute. reflexivity. Qed.

Lemma in_all_units (c : ascii) : In c all_units.
Proof.
  unfold all_units. apply in_map_iff. exists (nat_of_ascii c).
  split; [apply ascii_nat_embedding | ]. apply in_seq.
  pose proof (nat_ascii_bounded c). lia.
Qed.

Lemma eq_ci_lower (a c : ascii) :
  (JsString.code a <? 128) = true -> eq_ci a (lower_unit c) = eq_ci a c.
Proof.
  intros Ha. pose proof eq_ci_lower_all as H. rewrite forallb_forall in H.
  specialize (H a (in_all_units a)). rewrite forallb_forall in H.
  specialize (H c (in_all_units c)). rewrite Ha in H. cbn [implb] in H.
  apply Bool.eqb_prop. exact H.
Qed.

(** Lower-casing keeps a match of an ASCII literal. *)
Lemma prefix_ci_lower (p s : string) :
  ascii_only p = true -> prefix_ci p s = true -> prefix_ci p (toLowerCase s) = true.
Proof.
  revert s. induction p as [ | a p IH]; intros s Hp H; [reflexivity | ].
  cbn [ascii_only] in Hp. apply andb_true_iff in Hp. destruct Hp as [Ha Hp].
  destruct s as [ | c s]; [discriminate H | ].
  cbn [prefix_ci toLowerCase] in H |- *. apply andb_true_iff in H. destruct H as [H1 H2].
  rewrite (eq_ci_lower a c Ha), H1, (IH s Hp H2). reflexivity.
Qed.

Lemma contains_ci_lower (p s : string) :
  ascii_only p = true -> contains_ci p s = true -> contains_ci p (toLowerCase s) = true.
Proof.
  intros Hp. induction s as [ | c s IH]; intros H.
  - exact H.
  - change (toLowerCase (String c s)) with (String (lower_unit c) (toLowerCase s)).
    cbn [contains_ci] in H |- *. apply orb_true_iff in H. destruct H as [H | H].
    + change (String (lower_unit c) (toLowerCase s)) with (toLowerCase (String c s)).
      rewrite (prefix_ci_lower p (String c s) Hp H). reflexivity.
    + rewrite (IH H). apply orb_true_r.
Qed.

Lemma mobile_re_lower (s : string) :
  mobile_re s = true -> mobile_re (toLowerCase s) = true.
Proof.
  unfold mobile_re. intros H. apply existsb_exists in H. destruct H as (p & Hp & H).
  apply existsb_exists. exists p. split; [exact Hp | ].
  apply contains_ci_lower; [ | exact H].
  cbn [In] in Hp.
  repeat (destruct Hp as [<- | Hp]; [reflexivity | ]). destruct Hp.
Qed.

Lemma prefix_contains (p s : string) : prefix_ci p s = true -> contains_ci p s = true.
Proof. intros H. destruct s; cbn [contains_ci]; rewrite H; reflexivity. Qed.

Lemma contains_tail (p : string) (c : ascii) (s : string) :
  contains_ci p s = true -> contains_ci p (String c s) = true.
Proof. intros H. cbn [contains_ci]. rewrite H. apply orb_true_r. Qed.

(** What the tablet expression matches, the mobile expression matches. *)
Lemma tablet_re_mobile_re (s : string) : tablet_re s = true -> mobile_re s = true.
Proof.
  intros H.
  assert (C : contains_ci "ipad" s = true \/ contains_ci "android" s = true).
  { induction s as [ | c s IH].
    - cbn in H. discriminate H.
    - cbn [tablet_re] in H. apply orb_true_iff in H. destruct H as [H | H].
      + apply orb_true_iff in H. destruct H as [H | H].
        * left. apply prefix_contains, H.
        * right. apply andb_true_iff in H. apply prefix_contains, H.
      + destruct (IH H) as [C | C]; [left | right]; apply contains_tail, C. }
  unfold mobile_re. cbn [existsb]. destruct C as [C | C]; rewrite C;
    rewrite ?orb_true_r; reflexivity.
Qed.

Lemma mobile_re_empty : mobile_re "" = false.
Proof. reflexivity. Qed.

(** X23. The four classes, in terms of the two expressions on the
    lower-cased user agent, to which the code applies them: [Unknown] for
    the empty user agent and no other; [Tablet] for any other whose
    lower-cased form matches the tablet expression or whose viewport is
    within 768..1024 both ways; [Mobile] when the mobile expression matches,
    the tablet expression does not and the viewport is not so; and
    [Desktop] exactly when the user agent is not empty, its lower-cased
    form has none of the eight mobile keywords and the viewport is not
    within 768..1024 both ways, the tablet expression matching nothing that
    the mobile one does not.  A user agent that has one of the eight
    keywords as given, in any case, is [Tablet] or [Mobile]. *)
Theorem getDeviceType_classes (ua : string) (viewportW viewportH : Z) :
  let square :=
    (768 <=? viewportW) && (viewportW <=? 1024)
    && (768 <=? viewportH) && (viewportH <=? 1024) in
  let lowered := toLowerCase ua in
  let class := getDeviceType ua viewportW viewportH in
  (class = "Unknown" <-> ua = "")
  /\ (class = "Tablet" <-> ua <> "" /\ (tablet_re lowered = true \/ square = true))
  /\ (class = "Mobile"
      <-> ua <> "" /\ mobile_re lowered = true /\ tablet_re lowered = false
          /\ square = false)
  /\ (class = "Desktop" <-> ua <> "" /\ mobile_re lowered = false /\ square = false)
  /\ (mobile_re ua = true -> class = "Tablet" \/ class = "Mobile").
Proof.
  intros square lowered class.
  assert (K : mobile_re ua = true -> ua <> "" /\ mobile_re lowered = true).
  { intros H. split; [ | apply mobile_re_lower, H].
    intros ->. rewrite mobile_re_empty in H. discriminate H. }
  pose proof (tablet_re_mobile_re lowered) as TM.
  unfold class, getDeviceType. fold lowered. fold square.
  clearbody square lowered.
  destruct (String.eqb_spec ua "") as [E | Hne].
  - split; [split; [intros _; exact E | reflexivity] | ].
    split; [split; [discriminate | intros [H _]; contradiction] | ].
    split; [split; [discriminate | intros [H _]; contradiction] | ].
    split; [split; [discriminate | intros [H _]; contradiction] | ].
    intros H. destruct (K H) as [H' _]. contradiction.
  - split; [split; [ | contradiction] | ].
    { destruct (tablet_re lowered || square); [discriminate | ].
      destruct (mobile_re lowered); discriminate. }
    destruct (tablet_re lowered) eqn:T.
    + cbn [orb]. rewrite (TM eq_refl).
      split; [split; [intros _; split; [exact Hne | left; reflexivity] | reflexivity] | ].
      split; [split; [discriminate | intros (_ & _ & H & _); discriminate H] | ].
      split; [split; [discriminate | intros (_ & H & _); discriminate H] | ].
      intros _. left. reflexivity.
    + cbn [orb]. destruct square.
      * split; [split; [intros _; split; [exact Hne | right; reflexivity] | reflexivity] | ].
        split; [split; [discriminate | intros (_ & _ & _ & H); discriminate H] | ].
        split; [split; [discriminate | intros (_ & _ & H); discriminate H] | ].
        intros _. left. reflexivity.
      * destruct (mobile_re lowered) eqn:M.
        -- split; [split; [discriminate | intros (_ & [H | H]); discriminate H] | ].
           split; [split; [intros _; repeat split; assumption | reflexivity] | ].
           split; [split; [discriminate | intros (_ & H & _); discriminate H] | ].
           intros _. right. reflexivity.
        -- split; [split; [discriminate | intros (_ & [H | H]); discriminate H] | ].
           split; [split; [discriminate | intros (_ & H & _); discriminate H] | ].
           split; [split; [intros _; repeat split; assumption | reflexivity] | ].
           intros H. destruct (K H) as [_ H']. discriminate H'.
Qed.

End DeviceMore.

(** ** The identifier of a new tracker *)

Module TrackerIdFacts.

Import JsString Dashboard DashboardMaps.

Local Open Scope string_scope.
Local Open Scope Z_scope.

Lemma remove_dashes_app (a b : string) :
  remove_dashes (a ++ b) = remove_dashes a ++ remove_dashes b.
Proof.
  induction a as [ | c a IH]; [reflexivity | ].
  change (remove_dashes (String c a ++ b))
    with (if Ascii.eqb c "-" then remove_dashes (a ++ b)
          else String c (remove_dashes (a ++ b))).
  cbn [remove_dashes]. rewrite IH.
  destruct (Ascii.eqb c "-"); reflexivity.
Qed.

Lemma remove_dashes_free (a : string) : dash_free a -> remove_dashes a = a.
Proof.
  induction a as [ | c a IH]; [reflexivity | ]. intros [Hc Ha].
  cbn [remove_dashes]. destruct (Ascii.eqb_spec c "-") as [E | _]; [contradiction | ].
  rewrite (IH Ha). reflexivity.
Qed.

Lemma remove_dashes_dash_free (s : string) : dash_free (remove_dashes s).
Proof.
  induction s as [ | c s IH]; [exact I | ]. cbn [remove_dashes].
  destruct (Ascii.eqb_spec c "-") as [E | N]; [exact IH | split; assumption].
Qed.

Lemma take_dash_free (n : nat) (s : string) : dash_free s -> dash_free (take n s).
Proof.
  revert s. induction n as [ | n IH]; intros s H; [exact I | ].
  destruct s as [ | c s]; [exact I | ]. destruct H as [Hc Hs].
  split; [exact Hc | apply IH, Hs].
Qed.

Lemma take_length (n : nat) (s : string) :
  String.length (take n s) = Nat.min n (String.length s).
Proof.
  revert s. induction n as [ | n IH]; intros s; [reflexivity | ].
  destruct s as [ | c s]; [reflexivity | ]. cbn [take String.length Nat.min].
  rewrite IH. reflexivity.
Qed.

Lemma take_app (a b : string) : take (String.length a) (a ++ b) = a.
Proof.
  induction a as [ | c a IH].
  - cbn. destruct b; reflexivity.
  - change (String c a ++ b)%string with (String c (a ++ b)).
    cbn [String.length take]. rewrite IH. reflexivity.
Qed.

Lemma length_append (a b : string) :
  String.length (a ++ b) = (String.length a + String.length b)%nat.
Proof.
  induction a as [ | c a IH]; [reflexivity | ].
  change (String c a ++ b)%string with (String c (a ++ b)).
  cbn [String.length]. rewrite IH. reflexivity.
Qed.

Lemma append_assoc (a b c : string) : ((a ++ b) ++ c)%string = (a ++ (b ++ c))%string.
Proof.
  induction a as [ | x a IH]; [reflexivity | ].
  change (((String x a ++ b) ++ c)%string) with (String x ((a ++ b) ++ c)).
  rewrite IH. reflexivity.
Qed.

(** X24. The identifier of a new tracker never holds a dash and never has
    more than 16 code units; from a UUID, whose first three groups have 8,
    4 and 4 code units without a dash, it is these three groups put
    together, 16 code units, which the ingestion schema accepts as a
    tracker identifier. *)
Theorem new_tracker_id_of_uuid (uuid : string) :
  dash_free (new_tracker_id uuid)
  /\ (String.length (new_tracker_id uuid) <= 16)%nat
  /\ forall g1 g2 g3 rest : string,
       uuid = (g1 ++ "-" ++ g2 ++ "-" ++ g3 ++ rest)%string ->
       String.length g1 = 8%nat -> String.length g2 = 4%nat ->
       String.length g3 = 4%nat ->
       dash_free g1 -> dash_free g2 -> dash_free g3 ->
       new_tracker_id uuid = (g1 ++ g2 ++ g3)%string
       /\ String.length (new_tracker_id uuid) = 16%nat
       /\ Track.zstring 8 64 (Track.JStr (new_tracker_id uuid))
          = Some (new_tracker_id uuid).
Proof.
  split; [apply take_dash_free, remove_dashes_dash_free | ].
  split; [unfold new_tracker_id; rewrite take_length; lia | ].
  intros g1 g2 g3 rest -> L1 L2 L3 D1 D2 D3.
  assert (E : new_tracker_id (g1 ++ "-" ++ g2 ++ "-" ++ g3 ++ rest)
              = (g1 ++ g2 ++ g3)%string).
  { unfold new_tracker_id.
    rewrite !remove_dashes_app.
    rewrite (remove_dashes_free g1 D1), (remove_dashes_free g2 D2),
      (remove_dashes_free g3 D3).
    change (remove_dashes "-") with "".
    change ("" ++ g2 ++ "" ++ g3 ++ remove_dashes rest)%string
      with (g2 ++ g3 ++ remove_dashes rest)%string.
    assert (A : (g1 ++ g2 ++ g3 ++ remove_dashes rest)%string
                = ((g1 ++ g2 ++ g3) ++ remove_dashes rest)%string).
    { rewrite !append_assoc. reflexivity. }
    rewrite A.
    assert (L : String.length (g1 ++ g2 ++ g3) = 16%nat).
    { rewrite !length_append, L1, L2, L3. reflexivity. }
    rewrite <- L. apply take_app. }
  assert (L : String.length (g1 ++ g2 ++ g3) = 16%nat).
  { rewrite !length_append, L1, L2, L3. reflexivity. }
  rewrite E. split; [reflexivity | ]. split; [exact L | ].
  unfold Track.zstring, Track.len. rewrite L. reflexivity.
Qed.

End TrackerIdFacts.
